(** * napari: plugin I/O dispatch, menu population, points visual

    A shallow embedding of

    - [napari/plugins/io.py]: reading and writing layers through the two
      plugin engines (npe2 first, napari_plugin_engine as fallback);
    - [napari/_qt/menus/_util.py]: [populate_menu];
    - [napari/_vispy/layers/points.py]: [VispyPointsLayer._on_data_change];
    - the mouse bindings of the points layer, as exercised by
      [napari/layers/points/_tests/test_points_mouse_bindings.py].

    Python functions that call out to plugins are embedded as computations
    in a small monad that records the calls made to the outside world (a
    trace of events) and ends in a returned value or a raised exception. *)

From Stdlib Require Import Ascii.
From stdpp Require Import gmap strings list.

Set Warnings "-register-all".

(** ** Python values

    Layer data travels through [io.py] as plain Python objects.  Only their
    shape is inspected there: [None], lists, tuples, and truthiness. *)

Inductive pyval :=
| PyNone
| PyBool (b : bool)
| PyInt (n : Z)
| PyStr (s : string)
| PyTuple (items : list pyval)
| PyList (items : list pyval)
| PyDict (d : gmap string pyval)
| PyObject (id : nat).  (* any other object (an array, a callable): truthy *)

(** [bool(v)] *)
Definition truthy (v : pyval) : bool :=
  match v with
  | PyNone => false
  | PyBool b => b
  | PyInt n => negb (n =? 0)%Z
  | PyStr s => negb (String.eqb s "")
  | PyTuple items | PyList items => negb (length items =? 0)
  | PyDict d => negb (size d =? 0)
  | PyObject _ => true
  end.

(** [a or b] *)
Definition py_or (a b : pyval) : pyval := if truthy a then a else b.

(** [bool(s)] for an [Optional[str]] *)
Definition str_truthy (s : option string) : bool :=
  match s with
  | Some s => negb (String.eqb s "")
  | None => false
  end.

(** The string of an [Optional[str]] that is truthy. *)
Definition truthy_str (s : option string) : option string :=
  match s with
  | Some s => if String.eqb s "" then None else Some s
  | None => None
  end.

(** A path argument: [Union[str, Sequence[str]]].  [PathStr] stands for a
    [str] or a [pathlib.Path], [PathSeq] for a list or tuple of them. *)
Inductive path :=
| PathStr (s : string)
| PathSeq (l : list string).

(** A hook implementation of napari_plugin_engine, and the [hookimpl]
    namedtuple that [_read_with_npe2] builds in its place: the code reads
    [plugin_name] only. *)
Record HookImplementation := HookImpl { hookimpl_plugin_name : string }.

#[global] Instance HookImplementation_eq_dec : EqDecision HookImplementation.
Proof. solve_decision. Defined.

(** The three hook specifications [io.py] goes through. *)
Inductive hook_name :=
| napari_get_reader_spec
| napari_get_writer_spec
| napari_write_spec (layer_type : string).

(** ** Exceptions *)

(** Messages built with [trans._]; [Text] is the message of an exception
    raised outside of this module. *)
Inductive message :=
| Text (s : string)
| NoRegisteredPlugin (h : hook_name) (plugin : string) (names : gset string)
| PluginDoesNotSupportFile (plugin : string) (p : path)
| NoPluginForStack (first : string)
| NoPluginForPath (p : path)
| PluginCannotWriteLayers (plugin : string) (layer_types : list string)
| NoPluginCanWriteLayers (layer_types : list string)
| NoDataWritten (n_layers : nat) (p : path).

(** The exceptions met in [io.py]; every one is an instance of Python's
    [Exception], so that [except Exception] catches them all.
    [ValueError] stands for the class and its subclasses. *)
Inductive exn :=
| ImportError
| ValueError (m : message)
| IndexError
| KeyError (key : string)
| TypeError
| PluginCallError (impl : HookImplementation) (cause : exn)
| OtherException (name : string).

(** What a call into foreign code does: it returns or it raises. *)
Inductive outcome (A : Type) :=
| Returns (a : A)
| Raises (e : exn).
Arguments Returns {A} a.
Arguments Raises {A} e.

(** An object handed back by a plugin where a function is expected
    ([None] is kept apart, as [option]). *)
Inductive pyfun (F : Type) :=
| NotCallable (is_truthy : bool)
| Callable (f : F).
Arguments NotCallable {F} is_truthy.
Arguments Callable {F} f.

Definition fun_truthy {F} (o : pyfun F) : bool :=
  match o with NotCallable b => b | Callable _ => true end.

(** ** The second plugin engine: npe2 *)

Record ReaderContribution := { reader_plugin_name : string }.

(** [(data, meta, layer_type)], the value of [layer.as_layer_data_tuple()] *)
Definition FullLayerData : Type := pyval * pyval * string.

Record Npe2 := {
  (* npe2.io_utils.read_get_reader(path, plugin_name=...) *)
  read_get_reader :
    path → option string → outcome (pyval * ReaderContribution);
  (* npe2.write(path=..., layer_data=..., plugin_name=...) *)
  npe2_write :
    path → list FullLayerData → option string → outcome (list string)
}.

(** The arguments [_write_layers_with_npe2] passes to [writer.exec]. *)
Inductive writer_args :=
| ArgsOne (p : path) (data meta : pyval)     (* path, data, meta *)
| ArgsMany (p : path) (layer_data : list FullLayerData).

(** What [writer.exec] hands back: a [str], a list of [str], or [None]. *)
Inductive exec_result :=
| ExecStr (s : string)
| ExecList (l : list string)
| ExecNone.

Record WriterContribution := {
  (* [ltc.max() for ltc in writer.layer_type_constraints()] *)
  layer_type_constraints_max : list Z;
  exec : writer_args → outcome exec_result
}.

(** ** The first plugin engine: napari_plugin_engine *)

(** [HookResult] of a first-result hook: no implementation answered
    ([result] and [implementation] are [None]), or [implementation] is the
    one whose non-[None] return value is [result]. *)
Inductive HookResult (R : Type) :=
| NoResult
| HookReturned (result : R) (implementation : HookImplementation).
Arguments NoResult {R}.
Arguments HookReturned {R} result implementation.

(** A hook caller, as far as [io.py] uses one.  [K] is the type of the
    keyword arguments of the hook, [R] the type of its non-[None]
    results. *)
Record HookCaller (K R : Type) := {
  get_hookimpls : list HookImplementation;
  _call_plugin : string → K → outcome (option R);
  get_plugin_implementation : string → outcome HookImplementation;
  (* [call_with_result_obj(_skip_impls=skip, ...).result], which raises
     when an implementation of the hook raised *)
  call_with_result_obj : K → list HookImplementation → outcome (HookResult R);
  (* [hook_caller(_plugin=plugin, ...)] *)
  hook_call : option string → K → outcome (option R)
}.
Arguments get_hookimpls {K R} h.
Arguments _call_plugin {K R} h plugin kwargs.
Arguments get_plugin_implementation {K R} h plugin.
Arguments call_with_result_obj {K R} h kwargs skip.
Arguments hook_call {K R} h plugin kwargs.

Definition ReaderFunction : Type := path → outcome pyval.
Definition WriterFunction : Type :=
  path → list FullLayerData → outcome (list string).

Record Hooks := {
  napari_get_reader : HookCaller path (pyfun ReaderFunction);
  napari_get_writer : HookCaller (path * list string) (pyfun WriterFunction);
  (* getattr(plugin_manager.hook, f'napari_write_{layer._type_string}') *)
  napari_write : string → HookCaller (path * pyval * pyval) string
}.

(** A layer, as far as [io.py] looks at one. *)
Record Layer := {
  data : pyval;
  _get_state : pyval;
  as_layer_data_tuple : FullLayerData;
  _type_string : string
}.

Record PluginManager := {
  hook : Hooks;
  plugins : gset string;
  get_reader_for_extension : string → option string;
  get_writer_for_extension : string → option string
}.

(** ** Events: the calls that leave [io.py] *)

Inductive log_record :=
| FallingBack                  (* "Falling back to original plugin engine." *)
| WritingTo (p : path) (h : hook_name)
| PluginError (err : exn)      (* err.log(logger=logger) *)
| ErrorsOccurred (n : nat) (names : gset string).

Inductive event :=
(* second engine *)
| ImportNpe2
| Npe2ReadGetReader (p : path) (plugin : option string)
| Npe2Write (p : path) (layer_data : list FullLayerData) (plugin : option string)
| WriterExec (args : writer_args)
(* first engine *)
| GetReaderForExtension (extension : string)
| GetWriterForExtension (extension : string)
| GetHookimpls (h : hook_name)
| CallPlugin (h : hook_name) (plugin : string)
| GetPluginImplementation (h : hook_name) (plugin : string)
| CallWithResultObj (h : hook_name) (skip : list HookImplementation)
| HookCall (h : hook_name) (plugin : option string)
| CallReader (impl : HookImplementation) (p : path) (o : outcome pyval)
| CallWriter (impl : HookImplementation) (p : path)
    (o : outcome (list string))
(* logging and warnings *)
| Log (r : log_record)
| Warn (m : message).

(** A call on the hook caller of the first engine, or on a function that a
    hook of the first engine handed out. *)
Definition is_hook_event (ev : event) : bool :=
  match ev with
  | GetHookimpls _ | CallPlugin _ _ | GetPluginImplementation _ _
  | CallWithResultObj _ _ | HookCall _ _ | CallReader _ _ _
  | CallWriter _ _ _ => true
  | _ => false
  end.

(** Any use of the first engine: its hooks and its extension tables. *)
Definition is_first_engine_event (ev : event) : bool :=
  match ev with
  | GetReaderForExtension _ | GetWriterForExtension _ => true
  | _ => is_hook_event ev
  end.

Definition is_warning (ev : event) : bool :=
  match ev with Warn _ => true | _ => false end.

(** ** Computations with a trace *)

Inductive result (A : Type) :=
| Ok (a : A)
| Raise (e : exn)
| OutOfFuel.        (* a [while True] loop cut off by the fuel of the model *)
Arguments Ok {A} a.
Arguments Raise {A} e.
Arguments OutOfFuel {A}.

Definition M (A : Type) : Type := list event * result A.

Definition ret {A} (a : A) : M A := ([], Ok a).
Definition raise {A} (e : exn) : M A := ([], Raise e).
Definition emit (ev : event) : M unit := ([ev], Ok tt).

Definition bind {A B} (m : M A) (k : A → M B) : M B :=
  match m with
  | (t, Ok a) => let '(t', r) := k a in (t ++ t', r)
  | (t, Raise e) => (t, Raise e)
  | (t, OutOfFuel) => (t, OutOfFuel)
  end.

(** A call to foreign code, recorded in the trace.  ([CallReader] and
    [CallWriter] record what the call did as well.) *)
Definition call {A} (ev : event) (o : outcome A) : M A :=
  ([ev], match o with Returns a => Ok a | Raises e => Raise e end).

(** [try: body except <the exceptions that handler accepts>: handler] *)
Definition try_except {A} (body : M A) (handler : exn → option (M A)) : M A :=
  match body with
  | (t, Raise e) =>
      match handler e with
      | Some h => let '(t', r) := h in (t ++ t', r)
      | None => (t, Raise e)
      end
  | _ => body
  end.

Declare Scope io_scope.
Delimit Scope io_scope with io.
Notation "x <- m ;; k" := (bind m (λ x, k))
  (at level 100, m at next level, right associativity) : io_scope.
Notation "m ;;; k" := (bind m (λ _, k))
  (at level 100, right associativity) : io_scope.

Inductive control := Break | Continue.

(** [while True: body], cut off after [fuel] rounds. *)
Fixpoint while_true {S} (fuel : nat) (body : S → M (control * S)) (st : S)
  : M S :=
  match fuel with
  | 0 => ([], OutOfFuel)
  | S fuel' =>
      bind (body st) (λ r,
        match r with
        | (Break, st') => ret st'
        | (Continue, st') => while_true fuel' body st'
        end)
  end.

(** [trace] and [value] of a computation *)
Definition trace {A} (m : M A) : list event := fst m.
Definition value {A} (m : M A) : result A := snd m.

(** ** [napari/plugins/io.py] *)

(** [_is_null_layer_sentinel] *)
Definition _is_null_layer_sentinel (layer_data : pyval) : bool :=
  match layer_data with
  | PyList items =>                                 (* isinstance(.., list) *)
      (length items =? 1)
      && match items !! 0 with
         | Some (PyTuple t) =>                      (* isinstance(.., tuple) *)
             (length t =? 1)
             && match t !! 0 with
                | Some PyNone => true               (* layer_data[0][0] is None *)
                | _ => false
                end
         | _ => false
         end
  | _ => false
  end.

Section io.
(** The module-level [plugin_manager], the npe2 package when it can be
    imported, and the helpers from the standard library and from
    [napari.utils.misc] that [io.py] calls. *)
Variable plugin_manager : PluginManager.
Variable npe2 : option Npe2.
(** [os.path.splitext] *)
Variable splitext : string → string * string.
(** [abspath_or_url], on a single path and on a sequence of paths: it
    hands back a value of the kind it was given. *)
Variable abspath_or_url_str : string → string.
Variable abspath_or_url_seq : list string → list string.

Definition abspath_or_url (p : path) : path :=
  match p with
  | PathStr s => PathStr (abspath_or_url_str s)
  | PathSeq l => PathSeq (abspath_or_url_seq l)
  end.

Local Open Scope io_scope.

(** [_read_with_npe2] *)
Definition _read_with_npe2 (p : path) (plugin : option string)
  : M (option (pyval * HookImplementation)) :=
  emit ImportNpe2 ;;;
  match npe2 with
  | None => ret None                                (* except ImportError *)
  | Some npe2 =>
      r <- try_except
             (r <- call (Npe2ReadGetReader p plugin)
                        (read_get_reader npe2 p plugin) ;;
              ret (Some r))
             (λ e, match e with
                   | ValueError _ => Some (ret None)  (* except ValueError *)
                   | _ => None
                   end) ;;
      match r with
      | None => ret None
      | Some (layer_data, reader) =>
          let hookimpl := HookImpl in     (* namedtuple('hookimpl', ..) *)
          ret (Some (layer_data, hookimpl (reader_plugin_name reader)))
      end
  end.

(** The local variables of the [while True] loop of
    [read_data_with_plugins]. *)
Record reader_loop_state := {
  errors : list exn;
  skip_impls : list HookImplementation;
  last_layer_data : pyval;                  (* the variable [layer_data] *)
  hookimpl_found : option HookImplementation  (* the variable [hookimpl] *)
}.

Definition reader_loop_init : reader_loop_state :=
  {| errors := []; skip_impls := []; last_layer_data := PyNone;
     hookimpl_found := None |}.

(** [reader(path)] for whatever object the hook handed out *)
Definition apply_reader (reader : pyfun ReaderFunction) (p : path)
  : outcome pyval :=
  match reader with
  | Callable f => f p
  | NotCallable _ => Raises TypeError
  end.

(** One round of the loop. *)
Definition reader_loop_body (p : path) (st : reader_loop_state)
  : M (control * reader_loop_state) :=
  let hook_caller := napari_get_reader (hook plugin_manager) in
  res <- call (CallWithResultObj napari_get_reader_spec (skip_impls st))
              (call_with_result_obj hook_caller p (skip_impls st)) ;;
  match res with
  | NoResult => ret (Break, st)           (* we're all out of reader plugins *)
  | HookReturned reader implementation =>
      if negb (fun_truthy reader) then ret (Break, st)
      else
        r <- try_except
               (layer_data <- call (CallReader implementation p
                                               (apply_reader reader p))
                                   (apply_reader reader p) ;;
                if truthy layer_data then
                  ret (Break,
                       {| errors := errors st; skip_impls := skip_impls st;
                          last_layer_data := layer_data;
                          hookimpl_found := Some implementation |})
                else
                  ret (Continue,
                       {| errors := errors st; skip_impls := skip_impls st;
                          last_layer_data := layer_data;
                          hookimpl_found := hookimpl_found st |}))
               (λ exc,                               (* except Exception *)
                  let err := PluginCallError implementation exc in
                  Some (emit (Log (PluginError err)) ;;;
                        ret (Continue,
                             {| errors := errors st ++ [err];
                                skip_impls := skip_impls st;
                                last_layer_data := last_layer_data st;
                                hookimpl_found := hookimpl_found st |}))) ;;
        match r with
        | (Break, st') => ret (Break, st')
        | (Continue, st') =>             (* don't try this impl again *)
            ret (Continue,
                 {| errors := errors st';
                    skip_impls := skip_impls st' ++ [implementation];
                    last_layer_data := last_layer_data st';
                    hookimpl_found := hookimpl_found st' |})
        end
  end.

(** [{repr(e.plugin_name) for e in errors}] *)
Definition error_plugin_names (errs : list exn) : gset string :=
  list_to_set
    (omap (λ e, match e with
                | PluginCallError impl _ => Some (hookimpl_plugin_name impl)
                | _ => None
                end) errs).

(** [read_data_with_plugins] when a plugin is forced. *)
Definition read_with_forced_plugin (p : path) (plugin : string)
  : M (pyval * option HookImplementation) :=
  let hook_caller := napari_get_reader (hook plugin_manager) in
  if negb (bool_decide (plugin ∈ plugins plugin_manager)) then
    emit (GetHookimpls napari_get_reader_spec) ;;;
    let names := list_to_set (hookimpl_plugin_name <$> get_hookimpls hook_caller) in
    raise (ValueError (NoRegisteredPlugin napari_get_reader_spec plugin names))
  else
    reader <- call (CallPlugin napari_get_reader_spec plugin)
                   (_call_plugin hook_caller plugin p) ;;
    match reader with
    | Some (Callable reader) =>
        hookimpl <- call (GetPluginImplementation napari_get_reader_spec plugin)
                         (get_plugin_implementation hook_caller plugin) ;;
        layer_data <- call (CallReader hookimpl p (reader p)) (reader p) ;;
        if _is_null_layer_sentinel layer_data then
          ret (PyList [], Some hookimpl)
        else
          ret (py_or layer_data PyNone, Some hookimpl)
    | _ =>                                        (* not callable(reader) *)
        raise (ValueError (PluginDoesNotSupportFile plugin p))
    end.

(** [read_data_with_plugins] when no plugin is forced: the loop over the
    reader hooks and what follows it. *)
Definition read_with_any_plugin (fuel : nat) (p : path)
  : M (pyval * option HookImplementation) :=
  st <- while_true fuel (reader_loop_body p) reader_loop_init ;;
  if negb (truthy (last_layer_data st)) then
    match p with
    | PathSeq l =>                     (* isinstance(path, (tuple, list)) *)
        match l !! 0 with
        | Some first => raise (ValueError (NoPluginForStack first))
        | None => raise IndexError                           (* path[0] *)
        end
    | PathStr _ => raise (ValueError (NoPluginForPath p))
    end
  else
    (if negb (length (errors st) =? 0) then
       emit (Log (ErrorsOccurred (length (errors st))
                                 (error_plugin_names (errors st))))
     else ret tt) ;;;
    ret (if _is_null_layer_sentinel (last_layer_data st) then PyList []
         else py_or (last_layer_data st) PyNone,
         hookimpl_found st).

(** The plugin that [read_data_with_plugins] forces: the one asked for,
    or else the one assigned to the extension of a single path. *)
Definition reader_plugin_to_force (p : path) (plugin : option string)
  : M (option string) :=
  match p with
  | PathStr s =>
      if negb (str_truthy plugin) then
        let extension := (splitext s).2 in
        emit (GetReaderForExtension extension) ;;;
        ret (get_reader_for_extension plugin_manager extension)
      else ret plugin
  | PathSeq _ => ret plugin
  end.

(** [read_data_with_plugins] *)
Definition read_data_with_plugins (fuel : nat) (p : path)
    (plugin : option string) : M (pyval * option HookImplementation) :=
  res <- _read_with_npe2 p plugin ;;
  match res with
  | Some (_ld, hookimpl) =>
      ret (if _is_null_layer_sentinel _ld then PyList [] else _ld,
           Some hookimpl)
  | None =>
      let p := abspath_or_url p in
      plugin <- reader_plugin_to_force p plugin ;;
      match truthy_str plugin with                       (* if plugin: *)
      | Some plugin => read_with_forced_plugin p plugin
      | None => read_with_any_plugin fuel p
      end
  end.

(** [_write_layers_with_npe2] *)
Definition _write_layers_with_npe2 (p : path) (layers : list Layer)
    (plugin_name : option string) (writer : option WriterContribution)
  : M (list string) :=
  emit ImportNpe2 ;;;
  match npe2 with
  | None => ret []                                  (* except ImportError *)
  | Some npe2 =>
      let layer_data := as_layer_data_tuple <$> layers in
      match writer with
      | None =>
          call (Npe2Write p layer_data plugin_name)
               (npe2_write npe2 p layer_data plugin_name)
      | Some writer =>
          let n := foldr Z.add 0%Z (layer_type_constraints_max writer) in
          args <- (if (n <=? 1)%Z then
                     match layer_data !! 0 with
                     | Some (data, meta, _) => ret (ArgsOne p data meta)
                     | None => raise IndexError         (* layer_data[0] *)
                     end
                   else ret (ArgsMany p layer_data)) ;;
          res <- call (WriterExec args) (exec writer args) ;;
          ret (match res with
               | ExecStr s => [s]                 (* isinstance(res, str) *)
               | ExecList l => l                  (* res or [] *)
               | ExecNone => []
               end)
      end
  end.

(** The plugin that the writing functions force: the one asked for, or
    else the one assigned to the extension of a single path. *)
Definition writer_plugin_to_force (p : path) (plugin_name : option string)
  : M (option string) :=
  match p with
  | PathStr s =>
      if negb (str_truthy plugin_name) then
        let extension := (splitext s).2 in
        emit (GetWriterForExtension extension) ;;;
        ret (get_writer_for_extension plugin_manager extension)
      else ret plugin_name
  | PathSeq _ => ret plugin_name
  end.

(** [_write_multiple_layers_with_plugins] once the plugin to force is
    settled: the hook [napari_get_writer] of the first engine. *)
Definition write_multiple_with_hook (p : path) (layers : list Layer)
    (plugin_name : option string) : M (list string) :=
  let layer_data := as_layer_data_tuple <$> layers in
  let layer_types := (λ ld : FullLayerData, ld.2) <$> layer_data in
  let hook_caller := napari_get_writer (hook plugin_manager) in
  let p := abspath_or_url p in
  emit (Log (WritingTo p napari_get_writer_spec)) ;;;
  (* [writer_function] and [implementation]; the latter is only read
     when the former is callable *)
  found <-
    match truthy_str plugin_name with
    | Some name =>
        if negb (bool_decide (name ∈ plugins plugin_manager)) then
          emit (GetHookimpls napari_get_writer_spec) ;;;
          let names :=
            list_to_set (hookimpl_plugin_name <$> get_hookimpls hook_caller) in
          raise (ValueError
                   (NoRegisteredPlugin napari_get_writer_spec name names))
        else
          implementation <-
            call (GetPluginImplementation napari_get_writer_spec name)
                 (get_plugin_implementation hook_caller name) ;;
          writer_function <-
            call (HookCall napari_get_writer_spec plugin_name)
                 (hook_call hook_caller plugin_name (p, layer_types)) ;;
          ret (match writer_function with
               | Some w => HookReturned w implementation
               | None => NoResult
               end)
    | None =>
        call (CallWithResultObj napari_get_writer_spec [])
             (call_with_result_obj hook_caller (p, layer_types) [])
    end ;;
  match found with
  | HookReturned (Callable writer_function) implementation =>
      try_except
        (call (CallWriter implementation (abspath_or_url p)
                          (writer_function (abspath_or_url p) layer_data))
              (writer_function (abspath_or_url p) layer_data))
        (λ exc, Some (raise (PluginCallError implementation exc)))
  | _ =>                               (* not callable(writer_function) *)
      raise (ValueError
               match truthy_str plugin_name with
               | Some name => PluginCannotWriteLayers name layer_types
               | None => NoPluginCanWriteLayers layer_types
               end)
  end.

(** [_write_multiple_layers_with_plugins] *)
Definition _write_multiple_layers_with_plugins (p : path)
    (layers : list Layer) (plugin_name : option string)
    (_writer : option WriterContribution) : M (list string) :=
  (* Try to use NPE2 first *)
  written_paths <- _write_layers_with_npe2 p layers plugin_name _writer ;;
  if negb (length written_paths =? 0) then ret written_paths
  else
    emit (Log FallingBack) ;;;
    plugin_name <- writer_plugin_to_force p plugin_name ;;
    write_multiple_with_hook p layers plugin_name.

(** [_write_single_layer_with_plugins] once the plugin to force is
    settled: the hook [napari_write_<layer type>] of the first engine. *)
Definition write_single_with_hook (p : path) (layer : Layer)
    (plugin_name : option string) : M (option string) :=
  let spec := napari_write_spec (_type_string layer) in
  let hook_caller := napari_write (hook plugin_manager) (_type_string layer) in
  emit (Log (WritingTo p spec)) ;;;
  let call_the_hook :=
    call (HookCall spec plugin_name)
         (hook_call hook_caller plugin_name
                    (abspath_or_url p, data layer, _get_state layer)) in
  match truthy_str plugin_name with
  | Some name =>
      if negb (bool_decide (name ∈ plugins plugin_manager)) then
        emit (GetHookimpls spec) ;;;
        let names :=
          list_to_set (hookimpl_plugin_name <$> get_hookimpls hook_caller) in
        raise (ValueError (NoRegisteredPlugin spec name names))
      else call_the_hook
  | None => call_the_hook
  end.

(** [_write_single_layer_with_plugins] *)
Definition _write_single_layer_with_plugins (p : path) (layer : Layer)
    (plugin_name : option string) (_writer : option WriterContribution)
  : M (option string) :=
  (* Try to use NPE2 first *)
  written_paths <- _write_layers_with_npe2 p [layer] plugin_name _writer ;;
  match written_paths with
  | first :: _ => ret (Some first)              (* return written_paths[0] *)
  | [] =>
      emit (Log FallingBack) ;;;
      plugin_name <- writer_plugin_to_force p plugin_name ;;
      write_single_with_hook p layer plugin_name
  end.

(** [save_layers] *)
Definition save_layers (p : path) (layers : list Layer)
    (plugin : option string) (_writer : option WriterContribution)
  : M (list string) :=
  written <-
    match layers with
    | _ :: _ :: _ =>                                  (* len(layers) > 1 *)
        _write_multiple_layers_with_plugins p layers plugin _writer
    | [layer] =>                                      (* len(layers) == 1 *)
        written <- _write_single_layer_with_plugins p layer plugin _writer ;;
        ret (match truthy_str written with
             | Some written => [written]
             | None => []
             end)
    | [] => ret []
    end ;;
  (if (length written =? 0) then
     emit (Warn (NoDataWritten (length layers) p))
   else ret tt) ;;;
  ret written.

End io.

(** ** [napari/_qt/menus/_util.py] *)

Module Menus.

(** The values found under the keys of an action dict.  A [QMenu] is a
    reference into the store of menus below. *)
Inductive value :=
| VNone
| VBool (b : bool)
| VStr (s : string)
| VMenu (ref : nat)          (* isinstance(.., QMenu) *)
| VObject (id : nat).        (* a callable, an emitter, a menu role *)

Definition truthy (v : value) : bool :=
  match v with
  | VNone => false
  | VBool b => b
  | VStr s => negb (String.eqb s "")
  | VMenu _ | VObject _ => true
  end.

(** [MenuItem = Union[MenuDict, ActionDict, dict]].  The key ['items'],
    which holds the nested list of entries, is kept apart from the other
    keys of the dict. *)
Inductive MenuItem :=
| Dict (keys : gmap string value) (items : option (list MenuItem)).

Definition keys (ax : MenuItem) : gmap string value :=
  match ax with Dict keys _ => keys end.
Definition items (ax : MenuItem) : option (list MenuItem) :=
  match ax with Dict _ items => items end.

(** [bool(ax)]: a dict is falsy when it has no key at all. *)
Definition item_truthy (ax : MenuItem) : bool :=
  negb ((size (keys ax) =? 0) && bool_decide (items ax = None)).

(** [ax.get(key, default)] *)
Definition get (ax : MenuItem) (key : string) (otherwise : value) : value :=
  default otherwise (keys ax !! key).

Record QAction := {
  text : value;
  triggered : list value;        (* slots connected to [triggered] *)
  shortcut : value;
  statusTip : value;
  menuRole : option value;       (* [None]: the role Qt gives by default *)
  checkable : bool;
  checked : bool;
  checked_by : list value;       (* emitters connected to [setChecked] *)
  action_data : option MenuItem  (* setData *)
}.

(** What a menu shows, in order. *)
Inductive entry :=
| Separator
| Action (a : QAction)
| SubMenu (ref : nat).

Record QMenu := {
  title : value;
  parent : option nat;
  entries : list entry
}.

(** The [QMenu] objects alive, by reference. *)
Record Qt := { menus : gmap nat QMenu; next_ref : nat }.

Definition update_menu (f : QMenu → QMenu) (ref : nat) (qt : Qt) : Qt :=
  {| menus := alter f ref (menus qt); next_ref := next_ref qt |}.

Definition append_entry (e : entry) (m : QMenu) : QMenu :=
  {| title := title m; parent := parent m; entries := entries m ++ [e] |}.

(** [menu.addSeparator()] *)
Definition addSeparator (menu : nat) (qt : Qt) : Qt :=
  update_menu (append_entry Separator) menu qt.

(** [menu.addMenu(sub)] for a [QMenu] [sub] *)
Definition addMenu (menu sub : nat) (qt : Qt) : Qt :=
  update_menu (append_entry (SubMenu sub)) menu qt.

(** [sub.setParent(menu)] *)
Definition setParent (sub menu : nat) (qt : Qt) : Qt :=
  update_menu (λ m, {| title := title m; parent := Some menu;
                       entries := entries m |}) sub qt.

(** [menu.addMenu(title)]: a new menu, child of [menu], is made and
    handed back. *)
Definition addMenu_titled (menu : nat) (t : value) (qt : Qt) : nat * Qt :=
  let sub := next_ref qt in
  (sub,
   addMenu menu sub
     {| menus := <[sub := {| title := t; parent := Some menu; entries := [] |}]>
                   (menus qt);
        next_ref := S sub |}).

(** [menu.addAction(text)] makes an action with Qt's defaults. *)
Definition new_action (t : value) : QAction :=
  {| text := t; triggered := []; shortcut := VStr ""; statusTip := VStr "";
     menuRole := None; checkable := false; checked := false;
     checked_by := []; action_data := None |}.

(** The action that [populate_menu] sets up for an entry whose ['text']
    is [t].  (The code adds the action to the menu first and sets it up
    in place; no step in between can fail.) *)
Definition configure_action (ax : MenuItem) (t : value) : QAction :=
  let action := new_action t in
  let is_checkable := truthy (get ax "checkable" VNone) in
  {| text := text action;
     triggered :=
       match keys ax !! "slot" with               (* if 'slot' in ax *)
       | Some slot => triggered action ++ [slot]
       | None => triggered action
       end;
     shortcut := get ax "shortcut" (VStr "");
     statusTip := get ax "statusTip" (VStr "");
     menuRole :=
       match keys ax !! "menuRole" with           (* if 'menuRole' in ax *)
       | Some role => Some role
       | None => menuRole action
       end;
     checkable := if is_checkable then true else checkable action;
     checked :=
       if is_checkable then truthy (get ax "checked" (VBool false))
       else checked action;
     checked_by :=
       if is_checkable then
         match keys ax !! "check_on" with         (* if 'check_on' in ax *)
         | Some emitter => checked_by action ++ [emitter]
         | None => checked_by action
         end
       else checked_by action;
     action_data := Some ax |}.

(** How [populate_menu] ends: normally, or with the [KeyError] of a
    missing key. *)
Inductive ending := Done | KeyError (key : string).

(** One round of the [for] loop of [populate_menu]. *)
Fixpoint populate_item (menu : nat) (ax : MenuItem) (qt : Qt) {struct ax}
  : Qt * ending :=
  match ax with
  | Dict _ nested =>
      if negb (item_truthy ax) then (addSeparator menu qt, Done)
      else if negb (truthy (get ax "when" (VBool true))) then (qt, Done)
      else
        match keys ax !! "menu" with
        | Some sub =>                                  (* 'menu' in ax *)
            let sub_qt :=
              match sub with
              | VMenu sub => (sub, setParent sub menu (addMenu menu sub qt))
              | _ => addMenu_titled menu sub qt
              end in
            (* populate_menu(sub, ax.get("items", [])) *)
            let populate :=
              fix populate (l : list MenuItem) (qt : Qt) : Qt * ending :=
                match l with
                | [] => (qt, Done)
                | ax :: l =>
                    match populate_item sub_qt.1 ax qt with
                    | (qt, Done) => populate l qt
                    | stop => stop
                    end
                end in
            match nested with
            | Some l => populate l sub_qt.2
            | None => populate [] sub_qt.2
            end
        | None =>
            match keys ax !! "text" with
            | Some t =>
                (update_menu (append_entry (Action (configure_action ax t)))
                             menu qt, Done)
            | None => (qt, KeyError "text")               (* ax['text'] *)
            end
        end
  end.

(** [populate_menu] *)
Fixpoint populate_menu (menu : nat) (actions : list MenuItem) (qt : Qt)
  : Qt * ending :=
  match actions with
  | [] => (qt, Done)
  | ax :: actions =>
      match populate_item menu ax qt with
      | (qt, Done) => populate_menu menu actions qt
      | stop => stop
      end
  end.

End Menus.

(** ** [napari/_vispy/layers/points.py] *)

Module Vispy.
Section points.
(** The elements of the arrays (floats).  [_on_data_change] moves them
    around and never computes with them; [zero] and [one] stand for the
    constants [0] / [0.0] and [1.0]. *)
Context {scalar : Type}.
Variables zero one : scalar.

(** The attributes of the points layer that [_on_data_change] reads. *)
Record PointsLayer := {
  _indices_view : list nat;
  _ndisplay : nat;
  _view_data : list (list scalar);             (* one row per point *)
  _view_size : list scalar;
  _view_edge_color : list (list scalar);       (* one RGBA row per point *)
  _view_face_color : list (list scalar);
  edge_width : scalar;
  symbol : string
}.

(** The arguments of [self.node._subvisuals[0].set_data]. *)
Record set_data_args := {
  pos : list (list scalar);
  size : list scalar;
  arg_edge_width : scalar;
  arg_symbol : string;
  edge_color : list (list scalar);
  face_color : list (list scalar);
  scaling : bool
}.

(** What [_on_data_change] does to the visual. *)
Inductive visual_call :=
| set_data (args : set_data_args)
| reset.

(** [np.zeros((rows, columns))] *)
Definition np_zeros (rows columns : nat) : list (list scalar) :=
  replicate rows (replicate columns zero).

(** [data[:, ::-1]] *)
Definition reverse_columns (data : list (list scalar)) : list (list scalar) :=
  reverse <$> data.

(** [VispyPointsLayer._on_data_change] *)
Definition _on_data_change (layer : PointsLayer) : list visual_call :=
  let colors :=
    if 0 <? length (_indices_view layer) then
      (_view_edge_color layer, _view_face_color layer)
    else
      ([[zero; zero; zero; one]], [[one; one; one; one]]) in
  let data_size :=
    if length (_indices_view layer) =? 0 then
      (np_zeros 1 (_ndisplay layer), [zero])
    else
      (_view_data layer, _view_size layer) in
  [ set_data {| pos := reverse_columns data_size.1;
                size := data_size.2;
                arg_edge_width := edge_width layer;
                arg_symbol := symbol layer;
                edge_color := colors.1;
                face_color := colors.2;
                scaling := true |};
    reset ].
End points.
End Vispy.

(** ** The mouse bindings of the points layer *)

Module PointsMouse.

Inductive Mode := PAN_ZOOM | ADD | SELECT.

Inductive event_type := mouse_press | mouse_move | mouse_release.

(** The [Event] dataclass of the tests. *)
Record Event := {
  type : event_type;
  is_dragging : bool;
  modifiers : list string;
  position : list Z;          (* world coordinates *)
  pos : list Z                (* canvas coordinates *)
}.

(** A drag callback that waits, between press and release, for the rest
    of the gesture. *)
Inductive drag_generator :=
| add_waiting (start_pos : list Z)
| select_waiting.

(** Modelled from the spec: the points layer, missing from the sources,
    as far as the tests look at it; [_mouse_drag_gen] holds the drag
    callback that waits for the release. *)
Record Points := {
  data : list (list Z);
  selected_data : gset nat;
  mode : Mode;
  _mouse_drag_gen : option drag_generator
}.

(** The points layer ([napari/layers/points]), its mouse bindings and
    the dispatch functions of [napari/utils/interactions.py] are not
    among the files embedded here; only their tests are.  The definitions
    below follow what the spec and the tests say of them: a press starts
    a gesture and runs the drag callbacks of the layer's mode;
    ['pan_zoom'] binds none; ['add'] adds a point at the released
    position when the mouse was not dragged; ['select'] selects the
    point under the mouse, [Shift] toggling its membership in the
    selection, and a click on no point clears a selection that is not
    being modified. *)

(** Modelled from the spec: [layer.get_value], missing from the sources;
    the index of the point under [position], if any. *)
Definition get_value (layer : Points) (position : list Z) : option nat :=
  fst <$> list_find (λ point, point = position) (data layer).

(** Modelled from the spec: the drag callback of ['select'] mode, missing
    from the sources, up to its first [yield]. *)
Definition select_press (layer : Points) (event : Event) : Points :=
  let modify_selection := bool_decide ("Shift"%string ∈ modifiers event) in
  let selected :=
    match get_value layer (position event) with
    | Some value =>
        if modify_selection then
          if bool_decide (value ∈ selected_data layer)
          then selected_data layer ∖ {[value]}
          else selected_data layer ∪ {[value]}
        else
          if bool_decide (value ∈ selected_data layer)
          then selected_data layer
          else {[value]}
    | None =>
        if modify_selection then selected_data layer else ∅
    end in
  {| data := data layer; selected_data := selected; mode := mode layer;
     _mouse_drag_gen := Some select_waiting |}.

(** Modelled from the spec: [mouse_press_callbacks] of
    [napari.utils.interactions] on a points layer, missing from the
    sources.  In ['pan_zoom'] mode no drag callback of the layer runs. *)
Definition mouse_press_callbacks (layer : Points) (event : Event) : Points :=
  match mode layer with
  | PAN_ZOOM =>
      {| data := data layer; selected_data := selected_data layer;
         mode := mode layer; _mouse_drag_gen := None |}
  | ADD =>
      {| data := data layer; selected_data := selected_data layer;
         mode := mode layer;
         _mouse_drag_gen := Some (add_waiting (pos event)) |}
  | SELECT => select_press layer event
  end.

(** Modelled from the spec: [mouse_release_callbacks] of
    [napari.utils.interactions] on a points layer, missing from the
    sources: the callbacks still waiting are run to their end. *)
Definition mouse_release_callbacks (layer : Points) (event : Event) : Points :=
  let new_data :=
    match _mouse_drag_gen layer with
    | Some (add_waiting start_pos) =>
        if bool_decide (start_pos = pos event)
        then data layer ++ [position event]
        else data layer
    | _ => data layer
    end in
  {| data := new_data; selected_data := selected_data layer;
     mode := mode layer; _mouse_drag_gen := None |}.

(** Modelled from the spec: the setter of [layer.mode], missing from the
    sources. *)
Definition set_mode (m : Mode) (layer : Points) : Points :=
  {| data := data layer; selected_data := selected_data layer;
     mode := m; _mouse_drag_gen := _mouse_drag_gen layer |}.

(** The layer of the fixture [create_known_points_layer_2d]. *)
Definition known_points_layer_2d : Points :=
  {| data := [[1; 3]; [8; 4]; [10; 10]; [15; 4]]%Z; selected_data := ∅;
     mode := PAN_ZOOM; _mouse_drag_gen := None |}.

(** [Event(type=..., position=...)] with the defaults of the dataclass *)
Definition Event_at (ty : event_type) (position : list Z) : Event :=
  {| type := ty; is_dragging := false; modifiers := [];
     position := position; pos := [0; 0]%Z |}.

End PointsMouse.

(** ** Observations on traces *)

(** The implementations whose readers were called, in order. *)
Definition reader_impls (t : list event) : list HookImplementation :=
  omap (λ ev, match ev with CallReader impl _ _ => Some impl | _ => None end) t.

(** The reader call handed back truthy layer data. *)
Definition read_ok (o : outcome pyval) : bool :=
  match o with Returns layer_data => truthy layer_data | Raises _ => false end.

(** The failures of the reader calls, each wrapped as the loop wraps it. *)
Definition failed_reads (t : list event) : list exn :=
  omap (λ ev, match ev with
              | CallReader impl _ (Raises exc) => Some (PluginCallError impl exc)
              | _ => None
              end) t.

(** The reader calls, in order, each with what it did. *)
Definition attempts (t : list event)
  : list (HookImplementation * outcome pyval) :=
  omap (λ ev, match ev with
              | CallReader impl _ o => Some (impl, o)
              | _ => None
              end) t.

(** The implementations whose reader calls handed back no truthy data:
    those that raised and those that found nothing. *)
Definition unsuccessful_impls (t : list event) : list HookImplementation :=
  omap (λ a : HookImplementation * outcome pyval,
          if read_ok a.2 then None else Some a.1) (attempts t).

(** The failures that were logged with [err.log]. *)
Definition logged_errors (t : list event) : list exn :=
  omap (λ ev, match ev with Log (PluginError err) => Some err | _ => None end) t.

(** What a hook caller owes to [_skip_impls]: the implementation that
    answers is one of its own and none of those to skip. *)
Definition honours_skip_impls {K R} (h : HookCaller K R) : Prop :=
  ∀ kwargs skip res impl,
    call_with_result_obj h kwargs skip = Returns (HookReturned res impl) →
    impl ∈ get_hookimpls h ∧ impl ∉ skip.

(** The reader calls [l] are those of a loop that starts with [skip] to
    skip: each is the call of the reader that the hook [napari_get_reader]
    hands out for [p] when told to skip the implementations tried before
    it. *)
Fixpoint follows_hook_caller (pm : PluginManager) (p : path)
    (skip : list HookImplementation)
    (l : list (HookImplementation * outcome pyval)) : Prop :=
  match l with
  | [] => True
  | (impl, o) :: l =>
      (∃ reader,
          call_with_result_obj (napari_get_reader (hook pm)) p skip
          = Returns (HookReturned reader impl)
          ∧ fun_truthy reader = true
          ∧ o = apply_reader reader p)
      ∧ follows_hook_caller pm p (skip ++ [impl]) l
  end.

(** Walking down the trace of the loop, every call of the hook is told to
    skip exactly the implementations whose readers were called before it
    ([skip] are those to skip when the walk starts). *)
Fixpoint skips_tried (skip : list HookImplementation) (t : list event) : Prop :=
  match t with
  | [] => True
  | CallWithResultObj _ skip' :: t => skip' = skip ∧ skips_tried skip t
  | CallReader impl _ _ :: t => skips_tried (skip ++ [impl]) t
  | _ :: t => skips_tried skip t
  end.

(** The extension-table lookup that precedes the use of the reader hook,
    for the path [p] as [abspath_or_url] hands it back: the event of the
    lookup, if one is made, and the plugin that is forced in the end. *)
Definition reader_extension_lookup (splitext : string → string * string)
    (p : path) (plugin : option string) : list event :=
  match p with
  | PathStr s =>
      if str_truthy plugin then []
      else [GetReaderForExtension (splitext s).2]
  | PathSeq _ => []
  end.

Definition forced_reader_plugin (pm : PluginManager)
    (splitext : string → string * string)
    (p : path) (plugin : option string) : option string :=
  truthy_str
    match p with
    | PathStr s =>
        if str_truthy plugin then plugin
        else get_reader_for_extension pm (splitext s).2
    | PathSeq _ => plugin
    end.

(** The same for the writing functions, which look at the path as it was
    given. *)
Definition writer_extension_lookup (splitext : string → string * string)
    (p : path) (plugin_name : option string) : list event :=
  match p with
  | PathStr s =>
      if str_truthy plugin_name then []
      else [GetWriterForExtension (splitext s).2]
  | PathSeq _ => []
  end.

Definition forced_writer_plugin (pm : PluginManager)
    (splitext : string → string * string)
    (p : path) (plugin_name : option string) : option string :=
  match p with
  | PathStr s =>
      if str_truthy plugin_name then plugin_name
      else get_writer_for_extension pm (splitext s).2
  | PathSeq _ => plugin_name
  end.

(** Every call on a hook of the first engine in [t] has the event [x]
    before it. *)
Definition precedes_hooks (x : event) (t : list event) : Prop :=
  ∀ t1 ev t2, t = t1 ++ ev :: t2 → is_hook_event ev = true → x ∈ t1.

(** ** A hook caller over a list of implementations

    Used to run the functions above on concrete plugins: the
    implementations are asked in the order of the list, those to skip are
    left out, the first answer that is not [None] wins, and an
    implementation that raises ends the call with a [PluginCallError]. *)

Module Examples.

Definition hook_function (K R : Type) : Type := K → outcome (option R).

Fixpoint first_result {K R}
    (impls : list (HookImplementation * hook_function K R)) (kwargs : K)
  : outcome (HookResult R) :=
  match impls with
  | [] => Returns NoResult
  | (impl, function) :: impls =>
      match function kwargs with
      | Raises exc => Raises (PluginCallError impl exc)
      | Returns None => first_result impls kwargs
      | Returns (Some res) => Returns (HookReturned res impl)
      end
  end.

Definition implementation_of {K R}
    (impls : list (HookImplementation * hook_function K R)) (plugin : string)
  : option (HookImplementation * hook_function K R) :=
  snd <$> list_find (λ i, hookimpl_plugin_name i.1 = plugin) impls.

Definition call_plugin_of {K R}
    (impls : list (HookImplementation * hook_function K R))
    (plugin : string) (kwargs : K) : outcome (option R) :=
  match implementation_of impls plugin with
  | Some (impl, function) =>
      match function kwargs with
      | Raises exc => Raises (PluginCallError impl exc)
      | Returns res => Returns res
      end
  | None => Raises (KeyError plugin)
  end.

Definition hook_caller_of {K R}
    (impls : list (HookImplementation * hook_function K R)) : HookCaller K R :=
  {| get_hookimpls := impls.*1;
     _call_plugin := call_plugin_of impls;
     get_plugin_implementation plugin :=
       match implementation_of impls plugin with
       | Some (impl, _) => Returns impl
       | None => Raises (KeyError plugin)
       end;
     call_with_result_obj kwargs skip :=
       first_result (filter (λ i, i.1 ∉ skip) impls) kwargs;
     hook_call plugin kwargs :=
       match plugin with
       | Some plugin => call_plugin_of impls plugin kwargs
       | None =>
           match first_result impls kwargs with
           | Raises exc => Raises exc
           | Returns NoResult => Returns None
           | Returns (HookReturned res _) => Returns (Some res)
           end
       end |}.

(** Three reader plugins: one whose reader raises, one whose reader
    finds nothing, one that reads a file with no layer in it (the
    sentinel) from ["empty.tif"] and an image from anything else. *)
Definition image : pyval := PyList [PyTuple [PyObject 0]].
Definition sentinel : pyval := PyList [PyTuple [PyNone]].

Definition broken_reader : ReaderFunction :=
  λ _, Raises (OtherException "OSError").
Definition blind_reader : ReaderFunction := λ _, Returns (PyList []).
Definition good_reader : ReaderFunction :=
  λ p, match p with
       | PathStr "empty.tif" => Returns sentinel
       | _ => Returns image
       end.

Definition offers (reader : ReaderFunction)
  : hook_function path (pyfun ReaderFunction) :=
  λ _, Returns (Some (Callable reader)).

Definition reader_impl : Type :=
  HookImplementation * hook_function path (pyfun ReaderFunction).

Definition readers : list reader_impl :=
  [ (HookImpl "broken", offers broken_reader);
    (HookImpl "blind", offers blind_reader);
    (HookImpl "good", offers good_reader) ].

(** A writer plugin for several layers, and one for points layers. *)
Definition folder_writer : WriterFunction :=
  λ p layer_data, Returns ((λ ld : FullLayerData, ld.2) <$> layer_data).

Definition writers
  : list (HookImplementation
          * hook_function (path * list string) (pyfun WriterFunction)) :=
  [ (HookImpl "folder", λ _, Returns (Some (Callable folder_writer))) ].

Definition points_writers
  : list (HookImplementation * hook_function (path * pyval * pyval) string) :=
  [ (HookImpl "csv", λ _, Returns (Some "points.csv")) ].

Definition a_plugin_manager (readers : list reader_impl) : PluginManager :=
  {| hook := {| napari_get_reader := hook_caller_of readers;
                napari_get_writer := hook_caller_of writers;
                napari_write := λ layer_type,
                  if String.eqb layer_type "points"
                  then hook_caller_of points_writers
                  else hook_caller_of [] |};
     plugins := {["broken"; "blind"; "good"; "folder"; "csv"]};
     get_reader_for_extension := λ extension,
       if String.eqb extension ".good" then Some "good" else None;
     get_writer_for_extension := λ extension,
       if String.eqb extension ".csv" then Some "csv" else None |}.

Definition plugin_manager : PluginManager := a_plugin_manager readers.

(** An npe2 that reads ["*.npy"], finds no layer in ["empty.npy"], and
    writes ["*.zarr"]. *)
Definition ends_with (suffix s : string) : bool :=
  bool_decide (String.length suffix ≤ String.length s)
  && String.eqb
       (String.substring (String.length s - String.length suffix)
                  (String.length suffix) s) suffix.

Definition npe2 : Npe2 :=
  {| read_get_reader := λ p plugin,
       match p with
       | PathStr s =>
           if String.eqb s "empty.npy" then
             Returns (sentinel, {| reader_plugin_name := "npy" |})
           else if ends_with ".npy" s then
             Returns (image, {| reader_plugin_name := "npy" |})
           else Raises (ValueError (Text "No readers returned data"))
       | PathSeq _ => Raises (ValueError (Text "No readers returned data"))
       end;
     npe2_write := λ p layer_data plugin,
       match p with
       | PathStr s => if ends_with ".zarr" s then Returns [s] else Returns []
       | PathSeq _ => Returns []
       end |}.

(** [os.path.splitext], for the paths of the examples: the extension
    starts at the last dot. *)
Fixpoint last_dot (s : string) : option nat :=
  match s with
  | EmptyString => None
  | String c s =>
      match last_dot s with
      | Some n => Some (S n)
      | None => if Ascii.eqb c "."%char then Some 0 else None
      end
  end.

Definition splitext (s : string) : string * string :=
  match last_dot s with
  | Some n => (String.substring 0 n s, String.substring n (String.length s - n) s)
  | None => (s, EmptyString)
  end.

Definition a_layer (name type_string : string) : Layer :=
  {| data := PyObject 1;
     _get_state := PyDict {[ "name" := PyStr name ]};
     as_layer_data_tuple :=
       (PyObject 1, PyDict {[ "name" := PyStr name ]}, type_string);
     _type_string := type_string |}.

(** The functions of [io.py] in this setting ([abspath_or_url] leaves
    the paths of the examples as they are). *)
Definition read (fuel : nat) (p : path) (plugin : option string)
  : M (pyval * option HookImplementation) :=
  read_data_with_plugins plugin_manager (Some npe2) splitext id id fuel p plugin.

Definition reader_loop (p : path) : M reader_loop_state :=
  while_true 4 (reader_loop_body plugin_manager p) reader_loop_init.

Definition write_multiple (p : path) (layers : list Layer)
  : M (list string) :=
  _write_multiple_layers_with_plugins plugin_manager (Some npe2) splitext
    id id p layers None None.

Definition write_single (p : path) (layer : Layer) : M (option string) :=
  _write_single_layer_with_plugins plugin_manager (Some npe2) splitext
    id id p layer None None.

Definition two_images : list Layer :=
  [a_layer "nuclei" "image"; a_layer "membrane" "image"].

Definition some_points : Layer := a_layer "spots" "points".

(** Reading without npe2, with two reader plugins of which none can
    read. *)
Definition unreadable_plugin_manager : PluginManager :=
  a_plugin_manager [ (HookImpl "broken", offers broken_reader);
                     (HookImpl "blind", offers blind_reader) ].

Definition read_unreadable (p : path)
  : M (pyval * option HookImplementation) :=
  read_data_with_plugins unreadable_plugin_manager None splitext id id 3 p None.

End Examples.


(** ** A menu, a points layer and a click to run the other functions on *)

Module MenuExample.
Import Menus.

(** A menu bar entry in the way of [file_menu.py]: an action, a separator,
    a submenu made from a title with one action in it, and an action that
    is left out. *)
Definition open_action : MenuItem :=
  Dict {[ "text" := VStr "Open File(s)..."; "slot" := VObject 1;
          "shortcut" := VStr "Ctrl+O" ]} None.

Definition toggle_action : MenuItem :=
  Dict {[ "text" := VStr "Toggle"; "checkable" := VBool true;
          "checked" := VBool true; "check_on" := VObject 2 ]} None.

Definition ACTIONS : list MenuItem :=
  [ open_action;
    Dict ∅ None;
    Dict {[ "menu" := VStr "Open Sample" ]} (Some [toggle_action]);
    Dict {[ "text" := VStr "Restart"; "when" := VBool false ]} None ].

(** One menu, of reference 0, with nothing in it. *)
Definition empty_menu_bar : Qt :=
  {| menus := {[ 0 := {| title := VStr "File"; parent := None; entries := [] |} ]};
     next_ref := 1 |}.

End MenuExample.

Module PointsExample.
Import Vispy.

(** Two points in two dimensions, seen as they are, with coordinates and
    colours in [Z]. *)
Definition two_points : @PointsLayer Z :=
  {| _indices_view := [0; 1];
     _ndisplay := 2;
     _view_data := [[1; 3]; [8; 4]]%Z;
     _view_size := [1; 1]%Z;
     _view_edge_color := [[0; 0; 0; 1]; [0; 0; 0; 1]]%Z;
     _view_face_color := [[1; 0; 0; 1]; [0; 1; 0; 1]]%Z;
     edge_width := 1%Z;
     symbol := "o" |}.

(** No point in view, in three dimensions. *)
Definition no_points : @PointsLayer Z :=
  {| _indices_view := [];
     _ndisplay := 3;
     _view_data := [];
     _view_size := [];
     _view_edge_color := [];
     _view_face_color := [];
     edge_width := 1%Z;
     symbol := "o" |}.

End PointsExample.

(** ** More observations on traces *)

(** The summaries of errors that were logged: how many errors, and the
    plugins named. *)
Definition error_summaries (t : list event) : list (nat * gset string) :=
  omap (λ ev, match ev with
              | Log (ErrorsOccurred n names) => Some (n, names)
              | _ => None
              end) t.

(** ** More to run the writing functions on *)

Module MoreExamples.

(** A writer of npe2 that takes exactly one image layer, and writes it to
    the path it is given. *)
Definition single_image_writer : WriterContribution :=
  {| layer_type_constraints_max := [1; 0; 0; 0; 0; 0; 0]%Z;
     exec := λ args,
       match args with
       | ArgsOne (PathStr s) _ _ => Returns (ExecStr s)
       | ArgsOne (PathSeq _) _ _ => Raises (OtherException "TypeError")
       | ArgsMany _ _ => Raises (OtherException "TypeError")
       end |}.

Definition save (p : path) (layers : list Layer) (plugin : option string)
    (writer : option WriterContribution) : M (list string) :=
  save_layers Examples.plugin_manager (Some Examples.npe2) Examples.splitext
    id id p layers plugin writer.

End MoreExamples.


(** ** [napari/_vispy/layers/points.py]: highlight, text, blending *)

Module VispyPointsLayer.
Section points.
(** The elements of the arrays, as in [Vispy]; [six_tenths] stands for
    the [0.6] of [_highlight_color]. *)
Context {scalar : Type}.
Variables zero one six_tenths : scalar.
(** [get_settings().appearance.highlight_thickness] *)
Variable highlight_thickness : scalar.
(** [transform_color('transparent')] *)
Variable transparent : list (list scalar).
(** The keyword arguments of [set_gl_state], and [BLENDING_MODES] of
    [utils/gl.py], which gives them for a blending mode. *)
Context {gl_state : Type}.
Variable BLENDING_MODES : gmap string gl_state.

(** [layer.text] and [layer._text], as far as they are read. *)
Record TextManager := {
  visible : bool;
  text_blending : string;
  rotation : scalar;
  color : list scalar;
  text_size : scalar
}.

(** The attributes of the points layer that the functions read: those of
    [Vispy.PointsLayer], and some more. *)
Record Layer := {
  points : @Vispy.PointsLayer scalar;
  _highlight_index : list Z;
  _highlight_box : option (list (list scalar));  (* [None] or an array *)
  blending : string;
  text : TextManager;
  _text : TextManager;
  _view_text_coords : list (list scalar) * string * string;
  _view_text : list string
}.

Definition _ndisplay (layer : Layer) : nat := Vispy._ndisplay (points layer).
Definition _indices_view (layer : Layer) : list nat :=
  Vispy._indices_view (points layer).

(** [size] is handed over as an array or as the number [0]. *)
Inductive size_arg :=
| SizeArray (sizes : list scalar)
| SizeNumber (s : scalar).

(** What the functions do to the visual and to its nodes. *)
Inductive call :=
(* [self.node._subvisuals[1].set_data(pos, size=, edge_width=, symbol=,
   edge_color=, face_color=, scaling=)] *)
| highlight_set_data (pos : list (list scalar)) (size : size_arg)
    (edge_width : scalar) (symbol : string) (edge_color : list scalar)
    (face_color : list (list scalar)) (scaling : bool)
(* [self.node._subvisuals[2].set_data(pos=, color=, width=)]; [color] is
   [None] when the keyword is not given *)
| box_set_data (pos : list (list scalar)) (color : option (list scalar))
    (width : scalar)
(* [update_text] of [utils/text.py], on the text node *)
| update_text (text_values : list string) (coords : list (list scalar))
    (anchor : string * string) (rotation : scalar) (color : list scalar)
    (size : scalar) (ndisplay : nat)
| node_set_gl_state (kwargs : gl_state)
| text_node_set_gl_state (kwargs : gl_state)
| node_update
(* what a method of [VispyBaseLayer] does to the node *)
| of_base_layer (what : string).

(** A function that calls the visual, and returns or raises. *)
Definition V (A : Type) : Type := list call * outcome A.

Definition vret {A} (a : A) : V A := ([], Returns a).
Definition vraise {A} (e : exn) : V A := ([], Raises e).
Definition vdo (c : call) : V unit := ([c], Returns tt).
Definition vbind {A B} (m : V A) (k : A → V B) : V B :=
  match m with
  | (t, Returns a) => (t ++ (k a).1, (k a).2)
  | (t, Raises e) => (t, Raises e)
  end.

Definition calls {A} (m : V A) : list call := m.1.
Definition outcome_of {A} (m : V A) : outcome A := m.2.

(** [a[i]] for an integer [i] of an index list: a negative [i] counts from
    the end; the row [None] stands for numpy's [IndexError]. *)
Definition np_row (n : nat) (i : Z) : option nat :=
  if bool_decide (0 ≤ i < Z.of_nat n)%Z then Some (Z.to_nat i)
  else if bool_decide (- Z.of_nat n ≤ i < 0)%Z then
    Some (Z.to_nat (Z.of_nat n + i))
  else None.

(** The integers that index an array of [n] rows. *)
Definition in_range (n : nat) (i : Z) : Prop :=
  (- Z.of_nat n ≤ i < Z.of_nat n)%Z.

(** [a[index]] for a list of integers [index]: the rows of [a] that
    [index] names, in its order. *)
Definition np_take {A} (a : list A) (index : list Z) : V (list A) :=
  match mapM (λ i, np_row (length a) i ≫= λ k, a !! k) index with
  | Some rows => vret rows
  | None => vraise IndexError
  end.

(** [0 in box.shape], for an array of two dimensions. *)
Definition zero_in_shape (box : list (list scalar)) : bool :=
  match box with
  | [] => true
  | row :: _ => length row =? 0
  end.

(** [_highlight_color = (0, 0.6, 1)] *)
Definition _highlight_color : list scalar := [zero; six_tenths; one].

Declare Scope vispy_scope.
Delimit Scope vispy_scope with vispy.
Notation "x <- m ;; k" := (vbind m (λ x, k))
  (at level 100, m at next level, right associativity) : vispy_scope.
Notation "m ;;; k" := (vbind m (λ _, k))
  (at level 100, right associativity) : vispy_scope.
Local Open Scope vispy_scope.

(** [VispyPointsLayer._on_highlight_change].  (The index is a list, so
    that [_view_data[index]] has the two dimensions of [_view_data] and
    [np.expand_dims] is not reached.) *)
Definition _on_highlight_change (layer : Layer) : V unit :=
  data_size <-
    (if 0 <? length (_highlight_index layer) then
       (* Color the hovered or selected points *)
       data <- np_take (Vispy._view_data (points layer))
                       (_highlight_index layer) ;;
       size <- np_take (Vispy._view_size (points layer))
                       (_highlight_index layer) ;;
       vret (data, SizeArray size)
     else
       vret (Vispy.np_zeros zero 1 (_ndisplay layer), SizeNumber zero)) ;;
  vdo (highlight_set_data (Vispy.reverse_columns data_size.1) data_size.2
         highlight_thickness (Vispy.symbol (points layer))
         _highlight_color transparent true) ;;;
  (* only draw a box in 2D *)
  (if _ndisplay layer =? 2 then
     let pos_width :=
       match _highlight_box layer with
       | None => (Vispy.np_zeros zero 1 (_ndisplay layer), zero)
       | Some box =>
           if zero_in_shape box then
             (Vispy.np_zeros zero 1 (_ndisplay layer), zero)
           else (box, highlight_thickness)
       end in
     vdo (box_set_data (Vispy.reverse_columns pos_width.1)
            (Some _highlight_color) pos_width.2)
   else
     vdo (box_set_data (Vispy.np_zeros zero 1 (_ndisplay layer)) None zero)) ;;;
  vdo node_update.

(** [VispyPointsLayer._update_text] *)
Definition _update_text (layer : Layer) (update_node : bool) : V unit :=
  let ndisplay := _ndisplay layer in
  let shown :=
    if (length (_indices_view layer) =? 0) || negb (visible (text layer)) then
      (Vispy.np_zeros zero 1 ndisplay, [], "center"%string, "center"%string)
    else
      let '(text_coords, anchor_x, anchor_y) := _view_text_coords layer in
      (if length text_coords =? 0 then Vispy.np_zeros zero 1 ndisplay
       else text_coords,
       _view_text layer, anchor_x, anchor_y) in
  let '(text_coords, text_values, anchor_x, anchor_y) := shown in
  vdo (update_text text_values text_coords (anchor_x, anchor_y)
         (rotation (_text layer)) (color (_text layer))
         (text_size (_text layer)) ndisplay) ;;;
  if update_node then vdo node_update else vret tt.

(** [BLENDING_MODES[mode]] *)
Definition blending_mode (mode : string) : V gl_state :=
  match BLENDING_MODES !! mode with
  | Some kwargs => vret kwargs
  | None => vraise (KeyError mode)
  end.

(** [VispyPointsLayer._on_blending_change] *)
Definition _on_blending_change (layer : Layer) : V unit :=
  points_blending_kwargs <- blending_mode (blending layer) ;;
  vdo (node_set_gl_state points_blending_kwargs) ;;;
  text_blending_kwargs <- blending_mode (text_blending (text layer)) ;;
  vdo (text_node_set_gl_state text_blending_kwargs) ;;;
  vdo node_update.

(** [VispyPointsLayer._on_text_change]; [event] is [None] or the type of
    the event.  [_on_blending_change] takes no argument but [self], so
    that the call with [event] is a [TypeError]. *)
Definition _on_text_change (layer : Layer) (event : option string) : V unit :=
  match event with
  | Some type =>
      if String.eqb type "blending" then
        vraise TypeError            (* self._on_blending_change(event) *)
      else _update_text layer true
  | None => _update_text layer true
  end.

(** [super().reset()] and [self._on_matrix_change()] are methods of
    [VispyBaseLayer], which these sources do not hold: whatever they do
    to the node, the methods of this class that they call in turn
    included, and whether they return or raise, is left open. *)
Variable super_reset : V unit.
Variable _on_matrix_change : V unit.

(** [VispyPointsLayer.reset] *)
Definition reset (layer : Layer) : V unit :=
  super_reset ;;;
  _update_text layer false ;;;
  _on_blending_change layer ;;;
  _on_highlight_change layer ;;;
  _on_matrix_change.

End points.
End VispyPointsLayer.

Module HighlightExample.
Import VispyPointsLayer.

(** The two points of [PointsExample], the second and the first of them
    highlighted (the second by its index from the end), with no box. *)
Definition a_text : @TextManager Z :=
  {| visible := true; text_blending := "translucent";
     rotation := 0%Z; color := [0; 0; 0; 1]%Z; text_size := 12%Z |}.

Definition highlighted : @Layer Z :=
  {| points := PointsExample.two_points;
     _highlight_index := [-1; 0]%Z;
     _highlight_box := None;
     blending := "translucent";
     text := a_text;
     _text := a_text;
     _view_text_coords := ([], "center"%string, "center"%string);
     _view_text := [] |}.

(** The scalars of the example count in tenths: [10] is the number one,
    [6] is [0.6], and the highlight is [1.0] thick. *)
Definition on_highlight_change : @Layer Z → @V Z unit unit :=
  _on_highlight_change 0%Z 10%Z 6%Z 10%Z [[0; 0; 0; 0]]%Z.

End HighlightExample.

(** ** [napari/_qt/menus/_util.py]: [NapariMenu] *)

(** [bool(v)] *)
Definition bool_of (v : pyval) : bool := truthy v.

Module NapariMenus.
Import Menus.

(** The store of menus holds the menus made so far: a new menu gets a
    reference that no menu has yet. *)
Definition well_formed (qt : Qt) : Prop :=
  ∀ ref, is_Some (menus qt !! ref) → ref < next_ref qt.

(** From [qt] to [qt'] the menus have only grown: every menu of [qt] is
    still there under its title, and what it showed it shows still, in
    the same order and before anything new. *)
Definition grows (qt qt' : Qt) : Prop :=
  next_ref qt ≤ next_ref qt'
  ∧ ∀ ref m, menus qt !! ref = Some m →
             ∃ m', menus qt' !! ref = Some m'
                   ∧ title m' = title m
                   ∧ entries m `prefix_of` entries m'.

(** The entries that hand over no [QMenu]: neither the entry nor any of
    its ['items'], at any depth, has a [QMenu] under ['menu'], so that
    every submenu is made by [menu.addMenu(title)]. *)
Fixpoint makes_its_menus (ax : MenuItem) : bool :=
  match ax with
  | Dict keys nested =>
      match keys !! "menu" with
      | Some (VMenu _) => false
      | _ => true
      end
      && match nested with
         | Some l => forallb makes_its_menus l
         | None => true
         end
  end.

(** Every action of every menu has data, and the data is truthy. *)
Definition actions_have_data (qt : Qt) : Prop :=
  ∀ ref m a, menus qt !! ref = Some m → Action a ∈ entries m →
             ∃ ax, action_data a = Some ax ∧ item_truthy ax = true.

(** What an entry of [populate_menu] adds to the menu itself, when it
    makes no new menu: a separator, an action, or the menu it names. *)
Definition flat_entry (ax : MenuItem) : option entry :=
  if negb (item_truthy ax) then Some Separator
  else if negb (truthy (get ax "when" (VBool true))) then None
  else
    match keys ax !! "menu" with
    | Some (VMenu sub) => Some (SubMenu sub)
    | Some _ => None
    | None =>
        match keys ax !! "text" with
        | Some t => Some (Action (configure_action ax t))
        | None => None
        end
    end.

(** The entries that make no new menu and need no missing key: they have
    no ['items'], and are falsy, or switched off by ['when'], or name a
    menu other than [menu], or have a text. *)
Definition is_flat (menu : nat) (ax : MenuItem) : Prop :=
  items ax = None
  ∧ (item_truthy ax = true →
     truthy (get ax "when" (VBool true)) = true →
     match keys ax !! "menu" with
     | Some (VMenu sub) => sub ≠ menu
     | Some _ => False
     | None => is_Some (keys ax !! "text")
     end).

(** The class attribute [NapariMenu._INSTANCES] beside the menus. *)
Record State := { qt : Qt; _INSTANCES : list nat }.

(** [NapariMenu.__init__(title, parent)]: [QMenu.__init__] makes the menu,
    which is then appended to [_INSTANCES]. *)
Definition __init__ (t : value) (parent : option nat) (st : State)
  : nat * State :=
  let self := next_ref (qt st) in
  (self,
   {| qt := {| menus := <[self := {| title := t; parent := parent;
                                     entries := [] |}]> (menus (qt st));
               next_ref := S self |};
      _INSTANCES := _INSTANCES st ++ [self] |}).

(** [ax.setData(None)] on what a menu shows; the actions of separators
    and of submenus have no data to begin with. *)
Definition clear_data (e : entry) : entry :=
  match e with
  | Action a =>
      Action {| text := text a; triggered := triggered a;
                shortcut := shortcut a; statusTip := statusTip a;
                menuRole := menuRole a; checkable := checkable a;
                checked := checked a; checked_by := checked_by a;
                action_data := None |}
  | e => e
  end.

(** [list.remove(x)], for an [x] that is in the list: the first
    occurrence goes. *)
Fixpoint list_remove (x : nat) (l : list nat) : list nat :=
  match l with
  | [] => []
  | y :: l => if bool_decide (y = x) then l else y :: list_remove x l
  end.

(** [NapariMenu._destroy].  (A [QAction] has no [_destroy] method: the
    call raises the [AttributeError] that is caught.) *)
Definition _destroy (self : nat) (st : State) : State :=
  {| qt := update_menu (λ m, {| title := title m; parent := parent m;
                                entries := clear_data <$> entries m |})
                       self (qt st);
     _INSTANCES :=
       if bool_decide (self ∈ _INSTANCES st)
       then list_remove self (_INSTANCES st)
       else _INSTANCES st |}.

Section update.
(** What the call of the Python object [f] with one argument does. *)
Variable call_object : nat → value → outcome pyval.

(** [bool(enabled_func(event))] for
    [enabled_func = data.get('enabled', lambda event: True)] *)
Definition enabled (data : MenuItem) (event : value) : outcome bool :=
  match keys data !! "enabled" with
  | None => Returns true
  | Some (VObject f) =>
      match call_object f event with
      | Returns v => Returns (bool_of v)
      | Raises e => Raises e
      end
  | Some _ => Raises TypeError                   (* not callable *)
  end.

(** The loop of [NapariMenu.update] over [self.actions()], from the
    action of index [index] on: the calls [ax.setEnabled(b)], each as the
    index of the action and [b], and how the loop ends. *)
Fixpoint update_from (index : nat) (actions : list entry) (event : value)
  : list (nat * bool) * outcome unit :=
  match actions with
  | [] => ([], Returns tt)
  | ax :: actions =>
      let data :=
        match ax with
        | Action a => action_data a                       (* ax.data() *)
        | Separator | SubMenu _ => None
        end in
      match data with
      | Some data =>
          if item_truthy data then
            match enabled data event with
            | Returns b =>
                let rest := update_from (S index) actions event in
                ((index, b) :: rest.1, rest.2)
            | Raises e => ([], Raises e)
            end
          else update_from (S index) actions event
      | None => update_from (S index) actions event
      end
  end.

(** [NapariMenu.update] *)
Definition update (self : nat) (event : value) (qt : Qt)
  : list (nat * bool) * outcome unit :=
  match menus qt !! self with
  | Some m => update_from 0 (entries m) event
  | None => ([], Returns tt)
  end.

End update.
End NapariMenus.

(** ** [napari/_qt/menus/plugins_menu.py] *)

(** [needle in s], for two [str] *)
Fixpoint is_substring (needle s : string) : bool :=
  String.prefix needle s
  || match s with
     | EmptyString => false
     | String _ s' => is_substring needle s'
     end.

Module PluginsMenu.
Import Menus NapariMenus.

Section plugins_menu.
(** [trans._] *)
Variable trans : string → string.
(** [menu_item_template.format(plugin_name, widget_name)], of
    [napari/plugins/__init__.py] *)
Variable menu_item_template_format : string → string → string.
(** The function objects that are connected to the actions: the closure
    [_add_toggle_widget] of a key and a hook type, and the two bound
    methods that show the dialogs. *)
Variable _add_toggle_widget : string * string → string → nat.
Variables _show_plugin_install_dialog _show_plugin_err_reporter : nat.

(** [a.text()] for an action of [menu.actions()]: the text of the action,
    the title of a submenu, nothing for a separator. *)
Definition str_of (v : value) : string :=
  match v with VStr s => s | _ => EmptyString end.

Definition text_of (qt : Qt) (e : entry) : string :=
  match e with
  | Action a => str_of (text a)
  | Separator => EmptyString
  | SubMenu ref =>
      match menus qt !! ref with
      | Some m => str_of (title m)
      | None => EmptyString
      end
  end.

(** [[a.text() for a in menu.actions()]] *)
Definition action_texts (menu : nat) (qt : Qt) : list string :=
  match menus qt !! menu with
  | Some m => text_of qt <$> entries m
  | None => []
  end.

(** The action that [_add_plugin_actions] makes for a widget: [QAction]
    with its text, made checkable, and with the closure connected. *)
Definition widget_action (hook_type plugin_name wdg_name : string)
    (multiprovider : bool) : QAction :=
  let key := (plugin_name, wdg_name) in
  let action :=
    new_action (VStr (if multiprovider then wdg_name
                      else menu_item_template_format plugin_name wdg_name)) in
  {| text := text action;
     triggered := triggered action ++ [VObject (_add_toggle_widget key hook_type)];
     shortcut := shortcut action; statusTip := statusTip action;
     menuRole := menuRole action;
     checkable := true;                            (* setCheckable(True) *)
     checked := checked action; checked_by := checked_by action;
     action_data := action_data action |}.

(** The [for] loop of [_add_plugin_actions]. *)
Fixpoint add_widget_actions (menu : nat) (hook_type plugin_name : string)
    (multiprovider : bool) (widgets : list string) (qt : Qt) : Qt :=
  match widgets with
  | [] => qt
  | wdg_name :: widgets =>
      let action := widget_action hook_type plugin_name wdg_name multiprovider in
      (* check that this wasn't added to the menu already *)
      let actions := action_texts menu qt in
      let qt :=
        if bool_decide (str_of (text action) ∈ actions) then qt
        else update_menu (append_entry (Action action)) menu qt in
      add_widget_actions menu hook_type plugin_name multiprovider widgets qt
  end.

(** [PluginsMenu._add_plugin_actions] *)
Definition _add_plugin_actions (self : nat) (hook_type plugin_name : string)
    (widgets : list string) (st : State) : State :=
  let multiprovider := 1 <? length widgets in
  let menu_st :=
    if multiprovider then
      let menu_st := __init__ (VStr plugin_name) (Some self) st in
      (menu_st.1,
       {| qt := addMenu self menu_st.1 (qt menu_st.2);
          _INSTANCES := _INSTANCES menu_st.2 |})
    else (self, st) in
  {| qt := add_widget_actions menu_st.1 hook_type plugin_name multiprovider
             widgets (qt menu_st.2);
     _INSTANCES := _INSTANCES menu_st.2 |}.

(** [PluginsMenu._remove_unregistered_widget], for an event of value
    [value]: the state of the menus, and the calls of
    [self._win._remove_dock_widget(event=event)], each as the value of its
    event. *)
Definition _remove_unregistered_widget (self : nat) (value : string)
    (st : State) : list string * State :=
  let named e := is_substring value (text_of (qt st) e) in
  match menus (qt st) !! self with
  | Some m =>
      ((λ _, value) <$> filter (λ e, named e = true) (entries m),
       {| qt := update_menu
                  (λ m, {| title := title m; parent := parent m;
                           entries := filter (λ e, named e = false)
                                             (entries m) |})
                  self (qt st);
          _INSTANCES := _INSTANCES st |})
  | None => ([], st)
  end.

(** The [DefaultDict] of the widgets of npe2 by plugin, in the order in
    which the plugins come up: [wdgs[plugin_name].append(name)]. *)
Fixpoint append_widget (plugin_name name : string)
    (wdgs : list (string * list string)) : list (string * list string) :=
  match wdgs with
  | [] => [(plugin_name, [name])]
  | (p, names) :: wdgs =>
      if String.eqb p plugin_name then (p, names ++ [name]) :: wdgs
      else (p, names) :: append_widget plugin_name name wdgs
  end.

Definition group_widgets (contributions : list (string * string))
  : list (string * list string) :=
  foldl (λ wdgs c, append_widget c.1 c.2 wdgs) [] contributions.

(** The loop of [_add_registered_widget]; [event] is [None] or the value
    of the event. *)
Fixpoint add_registered (self : nat) (event : option string) (call_all : bool)
    (widgets : list (string * (string * list string))) (st : State)
  : State * outcome unit :=
  match widgets with
  | [] => (st, Returns tt)
  | (hook_type, (plugin_name, names)) :: widgets =>
      let add st := add_registered self event call_all widgets
                      (_add_plugin_actions self hook_type plugin_name names st) in
      if call_all then add st
      else
        match event with
        | None => (st, Raises (OtherException "AttributeError")) (* None.value *)
        | Some value =>
            if String.eqb value plugin_name then add st
            else add_registered self event call_all widgets st
        end
  end.

(** [PluginsMenu._add_registered_widget]; [npe2_widgets] are the widget
    contributions of npe2, each as its plugin and its name ([None] when
    npe2 cannot be imported), and [iter_widgets] is what
    [plugin_manager.iter_widgets()] goes through. *)
Definition _add_registered_widget (self : nat)
    (npe2_widgets : option (list (string * string)))
    (iter_widgets : list (string * (string * list string)))
    (event : option string) (call_all : bool) (st : State)
  : State * outcome unit :=
  let _iterable :=
    match npe2_widgets with
    | None => []
    | Some contributions =>
        (λ x, ("dock"%string, x)) <$> group_widgets contributions
    end in
  add_registered self event call_all (_iterable ++ iter_widgets) st.

(** [PluginsMenu._build] *)
Definition _build (self : nat)
    (npe2_widgets : option (list (string * string)))
    (iter_widgets : list (string * (string * list string)))
    (st : State) : State * outcome unit :=
  let install := new_action (VStr (trans "Install/Uninstall Plugins...")) in
  let errors := new_action (VStr (trans "Plugin Errors...")) in
  let fixed :=
    [ Action {| text := text install;
                triggered := triggered install
                             ++ [VObject _show_plugin_install_dialog];
                shortcut := shortcut install; statusTip := statusTip install;
                menuRole := menuRole install; checkable := checkable install;
                checked := checked install; checked_by := checked_by install;
                action_data := action_data install |};
      Action {| text := text errors;
                triggered := triggered errors
                             ++ [VObject _show_plugin_err_reporter];
                shortcut := shortcut errors;
                statusTip :=
                  VStr (trans "Review stack traces for plugin exceptions and notify developers");
                menuRole := menuRole errors; checkable := checkable errors;
                checked := checked errors; checked_by := checked_by errors;
                action_data := action_data errors |};
      Separator ] in
  (* Add a menu item (QAction) for each available plugin widget *)
  _add_registered_widget self npe2_widgets iter_widgets None true
    {| qt := update_menu (λ m, {| title := title m; parent := parent m;
                                  entries := fixed |}) self (qt st);
       _INSTANCES := _INSTANCES st |}.

End plugins_menu.
End PluginsMenu.

Module PluginsMenuExample.
Import Menus NapariMenus.

(** A plugins menu that shows one action and a separator, a template in
    the way of [napari/plugins/__init__.py], and one object for all the
    closures. *)
Definition a_menu : QMenu :=
  {| title := VStr "&Plugins"; parent := None;
     entries := [Action (new_action (VStr "Plugin Errors...")); Separator] |}.

Definition a_state : State :=
  {| qt := {| menus := {[ 0 := a_menu ]}; next_ref := 1 |};
     _INSTANCES := [0] |}.

Definition template (plugin_name widget_name : string) : string :=
  plugin_name +:+ ": " +:+ widget_name.

Definition closures (key : string * string) (hook_type : string) : nat := 7.

End PluginsMenuExample.

(** ** [napari/_qt/menus/_util.py]: [populate_qmenu_from_manifest] *)

Module Manifest.
Import Menus.

(** The items that [pm.iter_menu] goes through: the items of submenus
    have an attribute [submenu], the others a [command]. *)
Inductive menu_item :=
| SubmenuItem (submenu : string)
| CommandItem (command : string).

Record SubmenuContribution := { label : string; id : string }.
Record CommandContribution := { command_id : string; command_title : string }.

(** The [PluginManager] of npe2, as far as it is asked. *)
Record PluginManager := {
  iter_menu : string → list menu_item;
  get_submenu : string → outcome SubmenuContribution;
  get_command : string → outcome CommandContribution
}.

(** The menus, and the function objects made for them.  Each call of
    [populate_qmenu_from_manifest] has its own local variable [cmd]; the
    functions [lambda *args: cmd.exec(args=args)] that a call makes all
    read the variable of that call, when they are called.  [variables]
    holds what the variable [cmd] of each call is bound to, and [lambdas]
    the call that each function object was made in. *)
Record State := {
  qt : Qt;
  variables : gmap nat CommandContribution;
  next_call : nat;
  lambdas : gmap nat nat;
  next_object : nat
}.

(** The loop of [populate_qmenu_from_manifest] in the call number [call];
    [populate] is the function itself, for the submenus. *)
Fixpoint populate_items
    (populate : nat → string → State → State * result unit)
    (pm : PluginManager) (menu call : nat) (items : list menu_item)
    (st : State) : State * result unit :=
  match items with
  | [] => (st, Ok tt)
  | SubmenuItem submenu :: items =>                 (* hasattr(item, 'submenu') *)
      match get_submenu pm submenu with
      | Raises e => (st, Raise e)
      | Returns subm_contrib =>
          let subm := addMenu_titled menu (VStr (label subm_contrib)) (qt st) in
          match populate subm.1 (id subm_contrib)
                  {| qt := subm.2; variables := variables st;
                     next_call := next_call st; lambdas := lambdas st;
                     next_object := next_object st |} with
          | (st, Ok _) => populate_items populate pm menu call items st
          | stop => stop
          end
      end
  | CommandItem command :: items =>
      match get_command pm command with
      | Raises e => (st, Raise e)
      | Returns cmd =>
          let action := new_action (VStr (command_title cmd)) in
          let function := next_object st in
          populate_items populate pm menu call items
            {| qt :=
                 update_menu
                   (append_entry
                      (Action
                         {| text := text action;
                            triggered := triggered action ++ [VObject function];
                            shortcut := shortcut action;
                            statusTip := statusTip action;
                            menuRole := menuRole action;
                            checkable := checkable action;
                            checked := checked action;
                            checked_by := checked_by action;
                            action_data := action_data action |}))
                   menu (qt st);
               variables := <[call := cmd]> (variables st);
               next_call := next_call st;
               lambdas := <[function := call]> (lambdas st);
               next_object := S function |}
      end
  end.

(** [populate_qmenu_from_manifest]; [npe2] is [None] when npe2 cannot be
    imported, and the fuel bounds the depth of the submenus. *)
Fixpoint populate_qmenu_from_manifest (fuel : nat) (npe2 : option PluginManager)
    (menu : nat) (menu_key : string) (st : State) : State * result unit :=
  match npe2 with
  | None => (st, Ok tt)                              (* except ImportError *)
  | Some pm =>
      match fuel with
      | 0 => (st, OutOfFuel)
      | S fuel =>
          populate_items (populate_qmenu_from_manifest fuel npe2) pm menu
            (next_call st) (iter_menu pm menu_key)
            {| qt := qt st; variables := variables st;
               next_call := S (next_call st); lambdas := lambdas st;
               next_object := next_object st |}
      end
  end.

(** The commands that are executed when the action is triggered: each
    function connected to it executes what the variable [cmd] of its call
    is bound to. *)
Definition triggered_commands (st : State) (action : QAction)
  : list CommandContribution :=
  omap (λ slot, match slot with
                | VObject function =>
                    call ← lambdas st !! function; variables st !! call
                | _ => None
                end) (triggered action).

(** The actions among what a menu shows, in order. *)
Definition actions_of (entries : list entry) : list QAction :=
  omap (λ e, match e with Action a => Some a | _ => None end) entries.

(** From [st] to [st'], nothing that was there has changed but the menu
    [menu] and the variable [cmd] of the call [call]: the other menus,
    the variables of the other calls and the function objects are as
    they were. *)
Definition keeps (menu call : nat) (st st' : State) : Prop :=
  next_ref (qt st) ≤ next_ref (qt st')
  ∧ next_call st ≤ next_call st'
  ∧ next_object st ≤ next_object st'
  ∧ (∀ ref, ref < next_ref (qt st) → ref ≠ menu →
            menus (qt st') !! ref = menus (qt st) !! ref)
  ∧ (∀ c, c < next_call st → c ≠ call →
          variables st' !! c = variables st !! c)
  ∧ (∀ f, f < next_object st → lambdas st' !! f = lambdas st !! f).

(** The commands of the items of a menu, in order. *)
Definition commands_of (items : list menu_item) : list string :=
  omap (λ item, match item with
                | CommandItem command => Some command
                | SubmenuItem _ => None
                end) items.

End Manifest.

Module ManifestExample.
Import Manifest.

(** A menu of the manifest with two commands, and between them a submenu
    with one command. *)
Definition pm : PluginManager :=
  {| iter_menu := λ menu_key,
       if String.eqb menu_key "napari/layers" then
         [CommandItem "svg.export"; SubmenuItem "svg.more";
          CommandItem "svg.import"]
       else if String.eqb menu_key "svg/more" then [CommandItem "svg.about"]
       else [];
     get_submenu := λ submenu,
       if String.eqb submenu "svg.more" then
         Returns {| label := "More"; id := "svg/more" |}
       else Raises (KeyError submenu);
     get_command := λ command,
       if String.eqb command "svg.export" then
         Returns {| command_id := command; command_title := "Export" |}
       else if String.eqb command "svg.import" then
         Returns {| command_id := command; command_title := "Import" |}
       else if String.eqb command "svg.about" then
         Returns {| command_id := command; command_title := "About" |}
       else Raises (KeyError command) |}.

Definition no_function_yet : State :=
  {| qt := MenuExample.empty_menu_bar; variables := ∅; next_call := 0;
     lambdas := ∅; next_object := 0 |}.

Definition populated : State * result unit :=
  populate_qmenu_from_manifest 2 (Some pm) 0 "napari/layers" no_function_yet.

End ManifestExample.

(** ** [napari/_qt/menus/file_menu.py] *)

(** The exception [KeyError] *)
Definition key_error (key : string) : exn := KeyError key.

Module FileMenu.
Import Menus NapariMenus.

(** The function objects and the menu roles that the entries of the menu
    name: methods of the window and of its viewer, methods of the menu,
    and the functions made by [lambda]. *)
Record Objects := {
  _open_files_dialog : nat;
  _open_files_dialog_as_stack_dialog : nat;
  _open_folder_dialog : nat;
  _open_preferences_method : nat;             (* self._open_preferences *)
  save_selected_layers : nat;                 (* lambda: ..(selected=True) *)
  save_all_layers : nat;                      (* lambda: ..(selected=False) *)
  _layer_count_method : nat;                  (* self._layer_count *)
  viewer_screenshot_dialog : nat;      (* window.qt_viewer._screenshot_dialog *)
  _screenshot_dialog_method : nat;            (* self._screenshot_dialog *)
  viewer_clipboard : nat;                     (* window.qt_viewer.clipboard *)
  window_clipboard : nat;                     (* window.clipboard *)
  close_window : nat;
  restart : nat;
  close_and_quit : nat;                       (* lambda: ..close(quit_app=True) *)
  PreferencesRole : nat;
  QuitRole : nat
}.

Section file_menu.
(** [trans._] *)
Variable trans : string → string.
(** [running_as_bundled_app()] *)
Variable running_as_bundled_app : bool.
(** [menu_item_template.format(plugin_name, display_name)] *)
Variable menu_item_template_format : string → string → string.
(** The closure [_add_sample] of a plugin and a sample *)
Variable _add_sample : string → string → nat.
Variable objects : Objects.

(** The list [ACTIONS] of [FileMenu.__init__] *)
Definition ACTIONS (open_sample_menu : nat) : list MenuItem :=
  [ Dict {[ "text" := VStr (trans "Open File(s)...");
            "slot" := VObject (_open_files_dialog objects);
            "shortcut" := VStr "Ctrl+O" ]} None;
    Dict {[ "text" := VStr (trans "Open Files as Stack...");
            "slot" := VObject (_open_files_dialog_as_stack_dialog objects);
            "shortcut" := VStr "Ctrl+Alt+O" ]} None;
    Dict {[ "text" := VStr (trans "Open Folder...");
            "slot" := VObject (_open_folder_dialog objects);
            "shortcut" := VStr "Ctrl+Shift+O" ]} None;
    Dict {[ "menu" := VMenu open_sample_menu ]} None;
    Dict ∅ None;
    Dict {[ "text" := VStr (trans "Preferences");
            "slot" := VObject (_open_preferences_method objects);
            "shortcut" := VStr "Ctrl+Shift+P";
            "statusTip" := VStr (trans "Open preferences dialog");
            "menuRole" := VObject (PreferencesRole objects) ]} None;
    Dict ∅ None;
    Dict {[ "text" := VStr (trans "Save Selected Layer(s)...");
            "slot" := VObject (save_selected_layers objects);
            "shortcut" := VStr "Ctrl+S";
            "enabled" := VObject (_layer_count_method objects) ]} None;
    Dict {[ "text" := VStr (trans "Save All Layers...");
            "slot" := VObject (save_all_layers objects);
            "shortcut" := VStr "Ctrl+Shift+S";
            "enabled" := VObject (_layer_count_method objects) ]} None;
    Dict {[ "text" := VStr (trans "Save Screenshot...");
            "slot" := VObject (viewer_screenshot_dialog objects);
            "shortcut" := VStr "Alt+S";
            "statusTip" :=
              VStr "Save screenshot of current display, default .png" ]} None;
    Dict {[ "text" := VStr (trans "Save Screenshot with Viewer...");
            "slot" := VObject (_screenshot_dialog_method objects);
            "shortcut" := VStr "Alt+Shift+S";
            "statusTip" :=
              VStr "Save screenshot of current display with the viewer, default .png" ]}
         None;
    Dict {[ "text" := VStr (trans "Copy Screenshot to Clipboard");
            "slot" := VObject (viewer_clipboard objects);
            "shortcut" := VStr "Alt+Shift+S";
            "statusTip" :=
              VStr "Copy screenshot of current display to the clipboard" ]} None;
    Dict {[ "text" := VStr (trans "Copy Screenshot with Viewer to Clipboard");
            "slot" := VObject (window_clipboard objects);
            "shortcut" := VStr "Alt+Shift+S";
            "statusTip" :=
              VStr (trans "Copy screenshot of current display with the viewer to the clipboard") ]}
         None;
    Dict ∅ None;
    Dict {[ "text" := VStr (trans "Close Window");
            "slot" := VObject (close_window objects);
            "shortcut" := VStr "Ctrl+W" ]} None;
    Dict {[ "when" := VBool running_as_bundled_app;
            "text" := VStr (trans "Restart");
            "slot" := VObject (restart objects) ]} None;
    (* OS X will rename this to Quit and put it in the app menu. *)
    Dict {[ "text" := VStr (trans "Exit");
            "slot" := VObject (close_and_quit objects);
            "shortcut" := VStr "Ctrl+Q";
            "menuRole" := VObject (QuitRole objects) ]} None ].

(** [plugin_manager._sample_data]: the samples of each plugin, each with
    its name and with what its dict holds under ['display_name'], if
    anything. *)
Definition SampleData : Type := list (string * list (string * option string)).

(** The action that [_rebuild_samples_menu] makes for a sample. *)
Definition sample_action (plugin_name samp_name text : string) : QAction :=
  let action := new_action (VStr text) in
  {| text := Menus.text action;
     triggered := triggered action ++ [VObject (_add_sample plugin_name samp_name)];
     shortcut := shortcut action; statusTip := statusTip action;
     menuRole := menuRole action; checkable := checkable action;
     checked := checked action; checked_by := checked_by action;
     action_data := action_data action |}.

(** The loop over the samples of one plugin. *)
Fixpoint add_samples (menu : nat) (plugin_name : string) (multiprovider : bool)
    (samples : list (string * option string)) (qt : Qt) : Qt * outcome unit :=
  match samples with
  | [] => (qt, Returns tt)
  | (samp_name, samp_dict) :: samples =>
      match samp_dict with
      | None => (qt, Raises (key_error "display_name"))
      | Some display_name =>
          let text :=
            if multiprovider then display_name
            else menu_item_template_format plugin_name display_name in
          add_samples menu plugin_name multiprovider samples
            (update_menu
               (append_entry (Action (sample_action plugin_name samp_name text)))
               menu qt)
      end
  end.

(** The loop over the plugins. *)
Fixpoint add_sample_plugins (open_sample_menu : nat) (sample_data : SampleData)
    (qt : Qt) : Qt * outcome unit :=
  match sample_data with
  | [] => (qt, Returns tt)
  | (plugin_name, samples) :: sample_data =>
      let multiprovider := 1 <? length samples in
      let menu_qt :=
        if multiprovider then
          addMenu_titled open_sample_menu (VStr plugin_name) qt
        else (open_sample_menu, qt) in
      match add_samples menu_qt.1 plugin_name multiprovider samples menu_qt.2 with
      | (qt, Returns _) => add_sample_plugins open_sample_menu sample_data qt
      | stop => stop
      end
  end.

(** The entries that the loop over the samples of a plugin adds: an
    action for each sample, under its display name, or under what the
    template makes of the plugin and the display name. *)
Definition sample_entries (plugin_name : string) (multiprovider : bool)
    (samples : list (string * option string)) : list entry :=
  (λ sample : string * option string,
     let display_name := default EmptyString sample.2 in
     Action (sample_action plugin_name sample.1
               (if multiprovider then display_name
                else menu_item_template_format plugin_name display_name)))
  <$> samples.

(** What the menu of the samples shows for one plugin, in the menus [qt]:
    nothing for a plugin with no sample; for a plugin with one sample,
    the action of the sample; for a plugin with several, one submenu, a
    child of the menu of the samples made after the menus below [made],
    which has the name of the plugin as its title and shows the actions
    of the samples. *)
Definition shows_plugin (qt : Qt) (made : nat) (open_sample_menu : nat)
    (plugin : string * list (string * option string)) (shown : list entry)
  : Prop :=
  match plugin.2 with
  | [] => shown = []
  | [sample] => shown = sample_entries plugin.1 false [sample]
  | samples =>
      ∃ sub, shown = [SubMenu sub]
             ∧ made ≤ sub < next_ref qt
             ∧ menus qt !! sub
               = Some {| title := VStr plugin.1;
                         parent := Some open_sample_menu;
                         entries := sample_entries plugin.1 true samples |}
  end.

(** [FileMenu._rebuild_samples_menu] *)
Definition _rebuild_samples_menu (open_sample_menu : nat)
    (sample_data : SampleData) (qt : Qt) : Qt * outcome unit :=
  add_sample_plugins open_sample_menu sample_data
    (* self.open_sample_menu.clear() *)
    (update_menu (λ m, {| title := title m; parent := parent m; entries := [] |})
                 open_sample_menu qt).

(** The menu object: the menus it holds and its attribute
    [_pref_dialog], [None] or the dialog. *)
Record FileMenu := {
  self : nat;
  open_sample_menu : nat;
  _pref_dialog : option nat
}.

(** [FileMenu._layer_count], for the layers of the viewer *)
Definition _layer_count {A} (layers : list A) : pyval :=
  PyInt (Z.of_nat (length layers)).

Section init.
(** What the call of a function object with one argument does. *)
Variable call_object : nat → value → outcome pyval.

(** [FileMenu.__init__]: the menu, the menus of the application, the
    calls of [setEnabled] of the [update] at its end, and how it ends.
    [sample_data] is [plugin_manager._sample_data] once
    [discover_sample_data()] has run.  (The window is no menu: the menu
    is made with no parent menu.) *)
Definition __init__ (sample_data : SampleData) (st : State)
  : option FileMenu * State * list (nat * bool) * outcome unit :=
  let self_st := NapariMenus.__init__ (VStr (trans "&File")) None st in
  let sample_st :=
    NapariMenus.__init__ (VStr "Open Sample") (Some self_st.1) self_st.2 in
  let st := sample_st.2 in
  let with_qt qt := {| qt := qt; _INSTANCES := _INSTANCES st |} in
  match populate_menu self_st.1 (ACTIONS sample_st.1) (qt st) with
  | (qt, Menus.KeyError key) => (None, with_qt qt, [], Raises (key_error key))
  | (qt, Done) =>
      match _rebuild_samples_menu sample_st.1 sample_data qt with
      | (qt, Raises e) => (None, with_qt qt, [], Raises e)
      | (qt, Returns _) =>
          let updated := update call_object self_st.1 VNone qt in
          (Some {| self := self_st.1; open_sample_menu := sample_st.1;
                   _pref_dialog := None |},
           with_qt qt, updated.1, updated.2)
      end
  end.

End init.

(** What the menu does with dialogs, and the signal that comes back. *)
Inductive dialog_call :=
| PreferencesDialog (dialog : nat)            (* the dialog is made *)
| resize (dialog : nat) (size : nat * nat)
| connect_resized (dialog : nat)
| connect_finished (dialog : nat)
| show (dialog : nat)
| raise_ (dialog : nat)
| finished (dialog : nat).      (* the signal, which calls [_clean_pref_dialog] *)

(** [FileMenu._open_preferences]; [next_dialog] is the dialog that would
    be made, and [preferences_size] the size in the settings, if any. *)
Definition _open_preferences (preferences_size : option (nat * nat))
    (next_dialog : nat) (menu : FileMenu) : list dialog_call * FileMenu :=
  match _pref_dialog menu with
  | None =>
      let win := next_dialog in
      ([PreferencesDialog win]
       ++ match preferences_size with
          | Some size => [resize win size]
          | None => []
          end
       ++ [connect_resized win; connect_finished win; show win],
       {| self := self menu; open_sample_menu := open_sample_menu menu;
          _pref_dialog := Some win |})
  | Some dialog => ([raise_ dialog], menu)
  end.

(** [FileMenu._clean_pref_dialog] *)
Definition _clean_pref_dialog (menu : FileMenu) : FileMenu :=
  {| self := self menu; open_sample_menu := open_sample_menu menu;
     _pref_dialog := None |}.

(** What happens to the menu, one thing after the other: the user asks
    for the preferences, or the dialog that is open finishes, which calls
    [_clean_pref_dialog] through the signal [finished]. *)
Inductive happening :=
| OpenPreferences (preferences_size : option (nat * nat))
| DialogFinished.

(** The dialogs are numbered as they are made; [opened] counts them. *)
Fixpoint run (happenings : list happening) (opened : nat) (menu : FileMenu)
  : list dialog_call * FileMenu :=
  match happenings with
  | [] => ([], menu)
  | OpenPreferences size :: happenings =>
      let step := _open_preferences size opened menu in
      let opened :=
        match _pref_dialog menu with None => S opened | Some _ => opened end in
      let rest := run happenings opened step.2 in
      (step.1 ++ rest.1, rest.2)
  | DialogFinished :: happenings =>
      match _pref_dialog menu with
      | Some dialog =>
          let rest := run happenings opened (_clean_pref_dialog menu) in
          (finished dialog :: rest.1, rest.2)
      | None => run happenings opened menu      (* no dialog, no signal *)
      end
  end.

(** A dialog is made and shown when none is open, raised when it is the
    one that is open, and it is the open one that finishes; [open] is the
    dialog that is open when the calls [t] begin. *)
Fixpoint one_at_a_time (open : option nat) (t : list dialog_call) : Prop :=
  match t with
  | [] => True
  | PreferencesDialog d :: t => open = None ∧ one_at_a_time open t
  | show d :: t => open = None ∧ one_at_a_time (Some d) t
  | raise_ d :: t => open = Some d ∧ one_at_a_time open t
  | finished d :: t => open = Some d ∧ one_at_a_time None t
  | _ :: t => one_at_a_time open t
  end.

(** The number of dialogs made in the calls [t]. *)
Fixpoint dialogs_made (t : list dialog_call) : nat :=
  match t with
  | [] => 0
  | PreferencesDialog _ :: t => S (dialogs_made t)
  | _ :: t => dialogs_made t
  end.

End file_menu.
End FileMenu.

Module FileMenuExample.
Import NapariMenus FileMenu.

(** The objects of a window, numbered; the method [_layer_count] of a
    viewer with the two images of [Examples] as its layers; two plugins
    with samples, one with one sample and one with two; and no menu
    yet. *)
Definition objects : Objects :=
  {| _open_files_dialog := 1; _open_files_dialog_as_stack_dialog := 2;
     _open_folder_dialog := 3; _open_preferences_method := 4;
     save_selected_layers := 5; save_all_layers := 6;
     _layer_count_method := 7; viewer_screenshot_dialog := 8;
     _screenshot_dialog_method := 9; viewer_clipboard := 10;
     window_clipboard := 11; close_window := 12; restart := 13;
     close_and_quit := 14; PreferencesRole := 15; QuitRole := 16 |}.

Definition call_object (f : nat) (event : Menus.value) : outcome pyval :=
  if f =? 7 then Returns (_layer_count Examples.two_images)
  else Raises TypeError.

Definition sample_data : SampleData :=
  [ ("napari", [("cells3d", Some "Cells (3D)")]);
    ("scikit-image", [("astronaut", Some "Astronaut");
                      ("coins", Some "Coins")]) ].

Definition add_sample (plugin_name samp_name : string) : nat := 17.

Definition no_menu : State :=
  {| qt := {| Menus.menus := ∅; Menus.next_ref := 0 |}; _INSTANCES := [] |}.

End FileMenuExample.

(** * Properties *)

(** ** Computations *)

Lemma surjective_M {A} (m : M A) : m = (trace m, value m).
Proof. by destruct m. Qed.

Lemma bind_Ok {A B} (m : M A) (k : A → M B) t a :
  m = (t, Ok a) → bind m k = (t ++ trace (k a), value (k a)).
Proof. intros ->. simpl. by destruct (k a). Qed.

Lemma bind_Raise {A B} (m : M A) (k : A → M B) t e :
  m = (t, Raise e) → bind m k = (t, Raise e).
Proof. by intros ->. Qed.

Lemma bind_OutOfFuel {A B} (m : M A) (k : A → M B) t :
  m = (t, OutOfFuel) → bind m k = (t, OutOfFuel).
Proof. by intros ->. Qed.

Lemma trace_bind {A B} (m : M A) (k : A → M B) :
  trace (bind m k)
  = trace m ++ match value m with Ok a => trace (k a) | _ => [] end.
Proof.
  destruct m as [t [a| |]]; simpl; rewrite ?app_nil_r; try done.
  by destruct (k a).
Qed.

Lemma value_bind {A B} (m : M A) (k : A → M B) :
  value (bind m k)
  = match value m with
    | Ok a => value (k a)
    | Raise e => Raise e
    | OutOfFuel => OutOfFuel
    end.
Proof. destruct m as [t [a| |]]; simpl; try done. by destruct (k a). Qed.

Lemma trace_prefix_bind {A B} (m : M A) (k : A → M B) :
  trace m `prefix_of` trace (bind m k).
Proof. rewrite trace_bind. by eexists. Qed.

(** ** The null layer sentinel *)

Lemma is_null_layer_sentinel_iff v :
  _is_null_layer_sentinel v = true ↔ v = PyList [PyTuple [PyNone]].
Proof.
  split; [|by intros ->].
  destruct v as [| | | | |items| |]; try done.
  destruct items as [|[| | | |t| | |] [|]]; try done.
  destruct t as [|[] [|]]; done.
Qed.

Lemma truthy_sentinel v : _is_null_layer_sentinel v = true → truthy v = true.
Proof. by intros ->%is_null_layer_sentinel_iff. Qed.

Section io_facts.
Context (plugin_manager : PluginManager) (npe2 : option Npe2).
Context (splitext : string → string * string).
Context (abspath_or_url_str : string → string).
Context (abspath_or_url_seq : list string → list string).

Local Abbreviation abspath := (abspath_or_url abspath_or_url_str abspath_or_url_seq).
Local Abbreviation read_npe2 := (_read_with_npe2 npe2).
Local Abbreviation loop_body := (reader_loop_body plugin_manager).
Local Abbreviation read_forced := (read_with_forced_plugin plugin_manager).
Local Abbreviation read_any := (read_with_any_plugin plugin_manager).
Local Abbreviation read_data :=
  (read_data_with_plugins plugin_manager npe2 splitext
     abspath_or_url_str abspath_or_url_seq).
Local Abbreviation reader_hook := (napari_get_reader (hook plugin_manager)).

(** *** [_read_with_npe2] *)

Lemma read_with_npe2_cases p plugin :
  match npe2 with
  | None => read_npe2 p plugin = ([ImportNpe2], Ok None)
  | Some n =>
      let t := [ImportNpe2; Npe2ReadGetReader p plugin] in
      match read_get_reader n p plugin with
      | Returns (layer_data, reader) =>
          read_npe2 p plugin
          = (t, Ok (Some (layer_data, HookImpl (reader_plugin_name reader))))
      | Raises (ValueError m) => read_npe2 p plugin = (t, Ok None)
      | Raises e => read_npe2 p plugin = (t, Raise e)
      end
  end.
Proof.
  unfold _read_with_npe2. destruct npe2 as [n|]; [|done]. simpl.
  destruct (read_get_reader n p plugin) as [[ld reader]|[]]; done.
Qed.

Lemma read_with_npe2_no_first_engine p plugin ev :
  ev ∈ trace (read_npe2 p plugin) → is_first_engine_event ev = false.
Proof.
  revert ev. apply Forall_forall.
  pose proof (read_with_npe2_cases p plugin) as H.
  destruct npe2 as [n|]; [|rewrite H; by repeat constructor].
  simpl in H. destruct (read_get_reader n p plugin) as [[ld r]|e].
  - rewrite H. by repeat constructor.
  - destruct e; rewrite H; by repeat constructor.
Qed.

Lemma read_with_npe2_None p plugin :
  value (read_npe2 p plugin) = Ok None
  ↔ npe2 = None
    ∨ ∃ n m, npe2 = Some n ∧ read_get_reader n p plugin = Raises (ValueError m).
Proof.
  pose proof (read_with_npe2_cases p plugin) as H.
  destruct npe2 as [n|]; [|rewrite H; by split; [left|]].
  simpl in H. destruct (read_get_reader n p plugin) as [[ld r]|e] eqn:E.
  - rewrite H. split; [done|]. intros [|(? & ? & [= <-] & ?)]; congruence.
  - destruct e; rewrite H; simpl;
      (split; [try done|intros [|(? & ? & [= <-] & ?)]; congruence]).
    intros _. right. by eexists _, _.
Qed.


Lemma read_data_npe2_result fuel p plugin t layer_data impl :
  read_npe2 p plugin = (t, Ok (Some (layer_data, impl))) →
  read_data fuel p plugin
  = (t, Ok (if _is_null_layer_sentinel layer_data then PyList [] else layer_data,
            Some impl)).
Proof.
  intros H. unfold read_data_with_plugins.
  rewrite (bind_Ok _ _ _ _ H). simpl. by rewrite app_nil_r.
Qed.

Lemma read_data_npe2_failed fuel p plugin t e :
  read_npe2 p plugin = (t, Raise e) → read_data fuel p plugin = (t, Raise e).
Proof. intros H. unfold read_data_with_plugins. by rewrite H. Qed.

Lemma reader_plugin_to_force_eq p plugin :
  reader_plugin_to_force plugin_manager splitext p plugin
  = (reader_extension_lookup splitext p plugin,
     Ok match p with
        | PathStr s =>
            if str_truthy plugin then plugin
            else get_reader_for_extension plugin_manager (splitext s).2
        | PathSeq _ => plugin
        end).
Proof.
  unfold reader_plugin_to_force, reader_extension_lookup.
  destruct p as [s|l]; [|done]. by destruct (str_truthy plugin).
Qed.

(** [read_data_with_plugins] once npe2 has yielded nothing: the extension
    table is looked up, then the forced plugin or the loop takes over. *)
Lemma read_data_npe2_None fuel p plugin t :
  read_npe2 p plugin = (t, Ok None) →
  let rest :=
    match forced_reader_plugin plugin_manager splitext (abspath p) plugin with
    | Some name => read_forced (abspath p) name
    | None => read_any fuel (abspath p)
    end in
  read_data fuel p plugin
  = (t ++ reader_extension_lookup splitext (abspath p) plugin ++ trace rest,
     value rest).
Proof.
  intros H. unfold read_data_with_plugins.
  rewrite (bind_Ok _ _ _ _ H). simpl.
  by rewrite (bind_Ok _ _ _ _ (reader_plugin_to_force_eq _ _)).
Qed.

Lemma read_with_npe2_value_cases p plugin :
  (∃ layer_data impl, value (read_npe2 p plugin) = Ok (Some (layer_data, impl)))
  ∨ value (read_npe2 p plugin) = Ok None
  ∨ ∃ e, value (read_npe2 p plugin) = Raise e.
Proof.
  pose proof (read_with_npe2_cases p plugin) as H.
  destruct npe2 as [n|]; [|rewrite H; by right; left].
  simpl in H. destruct (read_get_reader n p plugin) as [[ld r]|e].
  - rewrite H. left. by eexists _, _.
  - destruct e; rewrite H; simpl; first [by right; left|right; right; by eexists].
Qed.

(** C1.  [read_data_with_plugins] starts with the npe2 attempt of
    [_read_with_npe2], which touches nothing of the first plugin engine.
    When the attempt yields a result, that result is what is returned
    (layer data and [hookimpl], an empty-file sentinel read as the empty
    list) and nothing more is called.  The first engine - its hook
    [napari_get_reader], its extension table - is used only when the
    attempt yielded [None], and the attempt yields [None] exactly when npe2
    cannot be imported or [read_get_reader] raised [ValueError]. *)
Theorem read_data_npe2_first fuel p plugin :
  trace (read_npe2 p plugin) `prefix_of` trace (read_data fuel p plugin)
  ∧ (∀ ev, ev ∈ trace (read_npe2 p plugin) → is_first_engine_event ev = false)
  ∧ (∀ layer_data impl,
       value (read_npe2 p plugin) = Ok (Some (layer_data, impl)) →
       read_data fuel p plugin
       = (trace (read_npe2 p plugin),
          Ok (if _is_null_layer_sentinel layer_data then PyList []
              else layer_data, Some impl)))
  ∧ (∀ ev, ev ∈ trace (read_data fuel p plugin) →
           is_first_engine_event ev = true →
           value (read_npe2 p plugin) = Ok None)
  ∧ (value (read_npe2 p plugin) = Ok None
     ↔ npe2 = None
       ∨ ∃ n m, npe2 = Some n
                ∧ read_get_reader n p plugin = Raises (ValueError m)).
Proof.
  split_and!.
  - apply trace_prefix_bind.
  - apply read_with_npe2_no_first_engine.
  - intros ld impl H. apply read_data_npe2_result.
    rewrite <- H. apply surjective_M.
  - intros ev Hin Hev.
    destruct (read_with_npe2_value_cases p plugin) as [(ld & impl & H)|[H|[e H]]];
      [exfalso| done |exfalso].
    + rewrite (read_data_npe2_result fuel p plugin _ ld impl) in Hin
        by (rewrite <- H; apply surjective_M).
      apply read_with_npe2_no_first_engine in Hin. congruence.
    + rewrite (read_data_npe2_failed fuel p plugin _ e) in Hin
        by (rewrite <- H; apply surjective_M).
      apply read_with_npe2_no_first_engine in Hin. congruence.
  - apply read_with_npe2_None.
Qed.


(** *** The loop over the reader hooks *)

Local Abbreviation hook_call_event st :=
  (CallWithResultObj napari_get_reader_spec (skip_impls st)).

Lemma loop_body_cases p st :
  match call_with_result_obj reader_hook p (skip_impls st) with
  | Raises e => loop_body p st = ([hook_call_event st], Raise e)
  | Returns NoResult => loop_body p st = ([hook_call_event st], Ok (Break, st))
  | Returns (HookReturned reader impl) =>
      if fun_truthy reader then
        match apply_reader reader p with
        | Returns layer_data =>
            loop_body p st
            = ([hook_call_event st; CallReader impl p (Returns layer_data)],
               Ok (if truthy layer_data then
                     (Break,
                      {| errors := errors st; skip_impls := skip_impls st;
                         last_layer_data := layer_data;
                         hookimpl_found := Some impl |})
                   else
                     (Continue,
                      {| errors := errors st;
                         skip_impls := skip_impls st ++ [impl];
                         last_layer_data := layer_data;
                         hookimpl_found := hookimpl_found st |})))
        | Raises exc =>
            loop_body p st
            = ([hook_call_event st; CallReader impl p (Raises exc);
                Log (PluginError (PluginCallError impl exc))],
               Ok (Continue,
                   {| errors := errors st ++ [PluginCallError impl exc];
                      skip_impls := skip_impls st ++ [impl];
                      last_layer_data := last_layer_data st;
                      hookimpl_found := hookimpl_found st |}))
        end
      else loop_body p st = ([hook_call_event st], Ok (Break, st))
  end.
Proof.
  unfold reader_loop_body.
  destruct (call_with_result_obj _ _ _) as [[|reader impl]|e]; simpl; try done.
  destruct (fun_truthy reader); simpl; [|done].
  destruct (apply_reader reader p) as [ld|exc]; simpl; [|done].
  by destruct (truthy ld).
Qed.


Lemma while_true_S {S} fuel (body : S → M (control * S)) st :
  while_true (Datatypes.S fuel) body st
  = bind (body st) (λ r, match r with
                         | (Break, st') => ret st'
                         | (Continue, st') => while_true fuel body st'
                         end).
Proof. done. Qed.

(** The loop, from any state of its variables: what it calls and what it
    leaves in [errors], [skip_impls], [layer_data] and [hookimpl]. *)
Lemma reader_loop_run fuel p st t r :
  while_true fuel (loop_body p) st = (t, r) →
  follows_hook_caller plugin_manager p (skip_impls st) (attempts t)
  ∧ skips_tried (skip_impls st) t
  ∧ logged_errors t = failed_reads t
  ∧ (∀ st', r = Ok st' →
       errors st' = errors st ++ failed_reads t
       ∧ skip_impls st' = skip_impls st ++ unsuccessful_impls t)
  ∧ ((Forall (λ a, read_ok a.2 = false) (attempts t)
      ∧ ∀ st', r = Ok st' →
          hookimpl_found st' = hookimpl_found st
          ∧ (last_layer_data st' = last_layer_data st
             ∨ truthy (last_layer_data st') = false))
     ∨ (∃ l impl layer_data st',
          attempts t = l ++ [(impl, Returns layer_data)]
          ∧ Forall (λ a, read_ok a.2 = false) l
          ∧ truthy layer_data = true
          ∧ r = Ok st'
          ∧ last_layer_data st' = layer_data
          ∧ hookimpl_found st' = Some impl)).
Proof.
  revert st t r. induction fuel as [|fuel IH]; intros st t r.
  { intros [= <- <-]. refine (conj _ (conj _ (conj _ (conj _ _)))); try done.
    left. split; [constructor|done]. }
  rewrite while_true_S. pose proof (loop_body_cases p st) as Hbody.
  destruct (call_with_result_obj _ _ _) as [[|reader impl]|e] eqn:Hhook.
  - (* the hook has no reader left *)
    rewrite Hbody. intros [= <- <-]. simpl.
    refine (conj _ (conj _ (conj _ (conj _ _)))); try done.
    + intros st' [= <-]. by rewrite !app_nil_r.
    + left. split; [constructor|]. intros st' [= <-]. by split; [|left].
  - destruct (fun_truthy reader) eqn:Hreader; cycle 1.
    { rewrite Hbody. intros [= <- <-]. simpl.
      refine (conj _ (conj _ (conj _ (conj _ _)))); try done.
      + intros st' [= <-]. by rewrite !app_nil_r.
      + left. split; [constructor|]. intros st' [= <-]. by split; [|left]. }
    destruct (apply_reader reader p) as [ld|exc] eqn:Hcall.
    + destruct (truthy ld) eqn:Hld.
      * (* the reader has read the path *)
        rewrite Hbody. intros [= <- <-]. simpl.
        refine (conj _ (conj _ (conj _ (conj _ _)))); try done.
        -- split; [|done]. by exists reader.
        -- intros st' [= <-]. simpl.
           unfold unsuccessful_impls. simpl. rewrite Hld. simpl.
           by rewrite !app_nil_r.
        -- right. exists [], impl, ld. eexists. by split_and!.
      * (* the reader has found nothing *)
        rewrite Hbody. simpl.
        destruct (while_true fuel _ _) as [t' r'] eqn:Hrest.
        intros [= <- <-]. apply IH in Hrest as (H1 & H2 & H3 & H4 & H5).
        simpl in *.
        refine (conj _ (conj _ (conj _ (conj _ _)))); try done.
        -- split; [|done]. by exists reader.
        -- intros st' ->. destruct (H4 _ eq_refl) as [-> ->]. split; [done|].
           unfold unsuccessful_impls. simpl. rewrite Hld. simpl.
           by rewrite <- app_assoc.
        -- destruct H5 as [[Hno Hst]|(l & impl' & ld' & st' & Ha & ?)].
           ++ left. split; [by constructor; [simpl; rewrite Hld|]|].
              intros st' ->. destruct (Hst _ eq_refl) as [-> [->|?]]; auto.
           ++ right. exists ((impl, Returns ld) :: l), impl', ld', st'.
              rewrite Ha. split_and!; try tauto.
              constructor; [by simpl; rewrite Hld|tauto].
    + (* the reader has raised *)
      rewrite Hbody. simpl.
      destruct (while_true fuel _ _) as [t' r'] eqn:Hrest.
      intros [= <- <-]. apply IH in Hrest as (H1 & H2 & H3 & H4 & H5).
      simpl in *.
      refine (conj _ (conj _ (conj _ (conj _ _)))); try done.
      * split; [|done]. by exists reader.
      * by rewrite H3.
      * intros st' ->. destruct (H4 _ eq_refl) as [-> ->].
        unfold unsuccessful_impls. simpl. by rewrite <- !app_assoc.
      * destruct H5 as [[Hno Hst]|(l & impl' & ld' & st' & Ha & ?)].
        -- left. split; [by constructor|done].
        -- right. exists ((impl, Raises exc) :: l), impl', ld', st'.
           rewrite Ha. split_and!; try tauto.
           constructor; [done|tauto].
  - (* an implementation of the hook has raised *)
    rewrite Hbody. intros [= <- <-]. simpl.
    refine (conj _ (conj _ (conj _ (conj _ _)))); try done.
    left. split; [constructor|done].
Qed.


Lemma reader_impls_attempts t : reader_impls t = (attempts t).*1.
Proof.
  induction t as [|ev t IH]; [done|].
  destruct ev; simpl; try done. f_equal. apply IH.
Qed.

Lemma follows_hook_caller_fresh p skip l :
  honours_skip_impls reader_hook →
  follows_hook_caller plugin_manager p skip l →
  NoDup l.*1 ∧ ∀ impl, impl ∈ l.*1 → impl ∉ skip.
Proof.
  intros Hskip. revert skip.
  induction l as [|[impl o] l IH]; intros skip; simpl.
  { intros _. split; [constructor|]. by intros impl ?%elem_of_nil. }
  intros [(reader & Hhook & _ & _) Hl].
  apply Hskip in Hhook as [_ Hfresh].
  apply IH in Hl as [Hnodup Hl]. split.
  - constructor; [|done]. intros Hin%Hl. apply Hin, elem_of_app. right.
    by apply list_elem_of_singleton.
  - intros impl' [->|Hin]%elem_of_cons; [done|].
    apply Hl in Hin. intros ?. apply Hin, elem_of_app. by left.
Qed.

(** With a hook caller that honours [_skip_impls], the loop ends within
    one round per implementation of the hook, and one more. *)
Lemma reader_loop_terminates fuel p st :
  honours_skip_impls reader_hook →
  NoDup (skip_impls st) →
  skip_impls st ⊆ get_hookimpls reader_hook →
  length (get_hookimpls reader_hook) < fuel + length (skip_impls st) →
  value (while_true fuel (loop_body p) st) ≠ OutOfFuel.
Proof.
  intros Hskip. revert st. induction fuel as [|fuel IH]; intros st Hnodup Hsub Hlen.
  { apply NoDup_submseteq in Hsub; [|done].
    apply submseteq_length in Hsub. simpl in Hlen. lia. }
  rewrite while_true_S, value_bind. pose proof (loop_body_cases p st) as Hbody.
  destruct (call_with_result_obj _ _ _) as [[|reader impl]|e] eqn:Hhook;
    [by rewrite Hbody| |by rewrite Hbody].
  destruct (fun_truthy reader); [|by rewrite Hbody].
  apply Hskip in Hhook as [Hin Hfresh].
  assert (∀ st', skip_impls st' = skip_impls st ++ [impl] →
                 value (while_true fuel (loop_body p) st') ≠ OutOfFuel) as Hnext.
  { intros st' Hst'. apply IH; rewrite Hst'.
    - apply NoDup_app. split_and!; [done| |apply NoDup_singleton].
      intros x ? Hx. apply list_elem_of_singleton in Hx as ->. done.
    - intros x [?|Hx]%elem_of_app; [auto|].
      by apply list_elem_of_singleton in Hx as ->.
    - rewrite length_app. simpl. lia. }
  destruct (apply_reader reader p) as [ld|exc]; rewrite Hbody; simpl.
  - destruct (truthy ld); simpl; [done|]. by apply Hnext.
  - by apply Hnext.
Qed.

(** The loop stops at the first reader that hands back truthy data. *)
Lemma reader_loop_first_read fuel p l1 impl o l2 :
  let m := while_true fuel (loop_body p) reader_loop_init in
  attempts (trace m) = l1 ++ (impl, o) :: l2 →
  read_ok o = true →
  l2 = []
  ∧ ∃ layer_data st,
      o = Returns layer_data ∧ value m = Ok st
      ∧ last_layer_data st = layer_data ∧ hookimpl_found st = Some impl.
Proof.
  intros m Ha Hok.
  destruct (reader_loop_run fuel p reader_loop_init (trace m) (value m))
    as (_ & _ & _ & _ & H5); [apply surjective_M|].
  destruct H5 as [[Hno _]|(l & impl' & ld & st & Ha' & Hno & _ & Hst)].
  { rewrite Ha in Hno. apply Forall_app in Hno as [_ Hno].
    apply Forall_cons in Hno as [Hno _]. simpl in Hno. congruence. }
  rewrite Ha in Ha'. destruct l2 as [|a l2] using rev_ind.
  - apply app_inj_tail in Ha' as [-> [= -> ->]]. split; [done|].
    exists ld, st. tauto.
  - clear IHl2. rewrite app_comm_cons, app_assoc in Ha'.
    apply app_inj_tail in Ha' as [<- _].
    apply Forall_app in Hno as [_ Hno].
    apply Forall_cons in Hno as [Hno _]. simpl in Hno. congruence.
Qed.

(** How the loop ends.  When it returns, either its last reader call
    handed back truthy layer data, or no reader call did and the hook,
    told to skip the implementations the loop has come to skip, has no
    reader left to hand out.  When it raises, it is the hook that raised,
    on being asked once more.  And a loop that is cut off by the fuel of
    the model has called a reader in every round. *)
Lemma reader_loop_ends fuel p st :
  let m := while_true fuel (loop_body p) st in
  match value m with
  | Ok st' =>
      (∃ l impl layer_data,
          attempts (trace m) = l ++ [(impl, Returns layer_data)]
          ∧ truthy layer_data = true)
      ∨ (call_with_result_obj reader_hook p (skip_impls st') = Returns NoResult
         ∨ ∃ reader impl,
             call_with_result_obj reader_hook p (skip_impls st')
             = Returns (HookReturned reader impl)
             ∧ fun_truthy reader = false)
  | Raise e =>
      call_with_result_obj reader_hook p
        (skip_impls st ++ unsuccessful_impls (trace m)) = Raises e
  | OutOfFuel => length (attempts (trace m)) = fuel
  end.
Proof.
  revert st. induction fuel as [|fuel IH]; intros st; [done|].
  cbv zeta. rewrite while_true_S. pose proof (loop_body_cases p st) as Hbody.
  destruct (call_with_result_obj _ _ _) as [[|reader impl]|e] eqn:Hhook.
  - rewrite Hbody. simpl. right. by left.
  - destruct (fun_truthy reader) eqn:Hreader; cycle 1.
    { rewrite Hbody. simpl. right. right. by exists reader, impl. }
    specialize (IH
      {| errors := match apply_reader reader p with
                   | Returns _ => errors st
                   | Raises exc => errors st ++ [PluginCallError impl exc]
                   end;
         skip_impls := skip_impls st ++ [impl];
         last_layer_data := match apply_reader reader p with
                            | Returns layer_data => layer_data
                            | Raises _ => last_layer_data st
                            end;
         hookimpl_found := hookimpl_found st |}).
    cbv zeta in IH. simpl in IH.
    destruct (apply_reader reader p) as [ld|exc] eqn:Hcall; rewrite Hbody.
    + destruct (truthy ld) eqn:Hld.
      * simpl. left. by exists [], impl, ld.
      * simpl. destruct (while_true fuel _ _) as [t' [st'| |]]; simpl in *.
        -- destruct IH as [(l & impl' & ld' & -> & ?)|?]; [|by right].
           left. by exists ((impl, Returns ld) :: l), impl', ld'.
        -- unfold unsuccessful_impls in *. simpl. rewrite Hld. simpl.
           by rewrite <- app_assoc in IH.
        -- by rewrite IH.
    + simpl. destruct (while_true fuel _ _) as [t' [st'| |]]; simpl in *.
      * destruct IH as [(l & impl' & ld' & -> & ?)|?]; [|by right].
        left. by exists ((impl, Raises exc) :: l), impl', ld'.
      * unfold unsuccessful_impls in *. simpl.
        by rewrite <- app_assoc in IH.
      * by rewrite IH.
  - rewrite Hbody. simpl. unfold unsuccessful_impls. simpl.
    by rewrite app_nil_r.
Qed.

Lemma follows_hook_caller_known p skip l :
  honours_skip_impls reader_hook →
  follows_hook_caller plugin_manager p skip l →
  l.*1 ⊆ get_hookimpls reader_hook.
Proof.
  intros Hskip. revert skip.
  induction l as [|[impl o] l IH]; intros skip; simpl.
  { intros _. apply list_subseteq_nil. }
  intros [(reader & Hhook & _ & _) Hl].
  apply Hskip in Hhook as [Hin _]. apply IH in Hl.
  intros impl' [->|Hin']%elem_of_cons; [done|]. by apply Hl.
Qed.

(** C2.  The loop of [read_data_with_plugins] over the reader hooks, when
    no plugin is forced.  The readers are tried one after the other, in
    the order in which the hook caller hands them out: each reader called
    is the one [napari_get_reader] gives when told to skip the
    implementations tried before it, and each call of the hook is told to
    skip exactly those.  Every reader call that raises leaves its failure,
    wrapped as a [PluginCallError], logged and appended to [errors], and
    its implementation appended to [skip_impls] (as is that of a reader
    that found nothing); a hook caller that honours [_skip_impls] thus
    never has a reader called twice.  The loop stops at the first reader
    that hands back truthy layer data: that call is the last one, and its
    data and implementation are those the loop leaves.  It stops at
    nothing else but the end of the candidates: a loop that returns
    without a truthy read has asked the hook once more, with all the
    implementations tried to skip, and was given no reader; a loop that
    raises was raised at by the hook, asked in that way; and the loop
    does return or raise, having gone round once for each candidate at
    most and once more, when the hook caller honours [_skip_impls] (the
    fuel of the model is then never what stops it, and when it is, every
    round has called a reader).  (The exceptions are those that
    [except Exception] catches.) *)
Theorem reader_loop_tries_in_order fuel p :
  let m := while_true fuel (loop_body p) reader_loop_init in
  follows_hook_caller plugin_manager p [] (attempts (trace m))
  ∧ skips_tried [] (trace m)
  ∧ logged_errors (trace m) = failed_reads (trace m)
  ∧ (∀ st, value m = Ok st →
       errors st = failed_reads (trace m)
       ∧ skip_impls st = unsuccessful_impls (trace m))
  ∧ (honours_skip_impls reader_hook → NoDup (reader_impls (trace m)))
  ∧ (∀ l1 impl o l2,
       attempts (trace m) = l1 ++ (impl, o) :: l2 →
       read_ok o = true →
       l2 = []
       ∧ ∃ layer_data st,
           o = Returns layer_data ∧ value m = Ok st
           ∧ last_layer_data st = layer_data ∧ hookimpl_found st = Some impl)
  ∧ (∀ st, value m = Ok st →
       (∃ l impl layer_data,
           attempts (trace m) = l ++ [(impl, Returns layer_data)]
           ∧ truthy layer_data = true
           ∧ Forall (λ a, read_ok a.2 = false) l)
       ∨ (Forall (λ a, read_ok a.2 = false) (attempts (trace m))
          ∧ (call_with_result_obj reader_hook p
               (unsuccessful_impls (trace m)) = Returns NoResult
             ∨ ∃ reader impl,
                 call_with_result_obj reader_hook p
                   (unsuccessful_impls (trace m))
                 = Returns (HookReturned reader impl)
                 ∧ fun_truthy reader = false)))
  ∧ (∀ e, value m = Raise e →
          call_with_result_obj reader_hook p (unsuccessful_impls (trace m))
          = Raises e)
  ∧ (value m = OutOfFuel → length (attempts (trace m)) = fuel)
  ∧ (honours_skip_impls reader_hook →
     length (get_hookimpls reader_hook) < fuel →
     value m ≠ OutOfFuel).
Proof.
  intros m.
  destruct (reader_loop_run fuel p reader_loop_init (trace m) (value m))
    as (H1 & H2 & H3 & H4 & H5); [apply surjective_M|].
  pose proof (reader_loop_ends fuel p reader_loop_init) as Hends.
  cbv zeta in Hends. fold m in Hends.
  assert (honours_skip_impls reader_hook → NoDup (reader_impls (trace m)))
    as Hnodup.
  { intros Hskip. rewrite reader_impls_attempts.
    by eapply follows_hook_caller_fresh. }
  simpl in *.
  refine (conj H1 (conj H2 (conj H3 (conj H4 (conj Hnodup (conj _ _)))))).
  { intros l1 impl o l2. apply reader_loop_first_read. }
  split_and!.
  - intros st Hst. rewrite Hst in Hends.
    destruct H5 as [[Hno _]|(l & impl & ld & st' & Ha & Hno & Hld & _)].
    + right. split; [done|].
      destruct (H4 st Hst) as [_ <-].
      destruct Hends as [(l & impl & ld & Ha & Hld)|?]; [|done].
      rewrite Ha in Hno. apply Forall_app in Hno as [_ Hno].
      apply Forall_cons in Hno as [Hno _]. simpl in Hno. congruence.
    + left. by exists l, impl, ld.
  - intros e He. by rewrite He in Hends.
  - intros Hout. by rewrite Hout in Hends.
  - intros Hskip Hlen Hout. rewrite Hout in Hends.
    pose proof (follows_hook_caller_known p [] _ Hskip H1) as Hsub.
    specialize (Hnodup Hskip). rewrite reader_impls_attempts in Hnodup.
    apply NoDup_submseteq in Hsub; [|done].
    apply submseteq_length in Hsub. rewrite length_fmap in Hsub. lia.
Qed.


(** *** After the loop *)

Lemma py_or_truthy v w : truthy v = true → py_or v w = v.
Proof. unfold py_or. by intros ->. Qed.

(** [read_data_with_plugins] after its loop, by cases on how the loop
    ended. *)
Lemma read_with_any_plugin_value fuel p :
  value (read_any fuel p)
  = match value (while_true fuel (loop_body p) reader_loop_init) with
    | Ok st =>
        if truthy (last_layer_data st) then
          Ok (if _is_null_layer_sentinel (last_layer_data st) then PyList []
              else last_layer_data st, hookimpl_found st)
        else
          match p with
          | PathStr _ => Raise (ValueError (NoPluginForPath p))
          | PathSeq (first :: _) => Raise (ValueError (NoPluginForStack first))
          | PathSeq [] => Raise IndexError
          end
    | Raise e => Raise e
    | OutOfFuel => OutOfFuel
    end.
Proof.
  unfold read_with_any_plugin. rewrite value_bind.
  destruct (value (while_true _ _ _)) as [st| |]; try done.
  destruct (truthy (last_layer_data st)) eqn:Hld; simpl.
  - rewrite value_bind, (py_or_truthy _ _ Hld).
    by destruct (negb (length (errors st) =? 0)).
  - by destruct p as [s|[|first l]].
Qed.

Lemma read_with_forced_plugin_read p plugin reader impl layer_data :
  plugin ∈ plugins plugin_manager →
  _call_plugin reader_hook plugin p = Returns (Some (Callable reader)) →
  get_plugin_implementation reader_hook plugin = Returns impl →
  reader p = Returns layer_data →
  read_forced p plugin
  = ([CallPlugin napari_get_reader_spec plugin;
      GetPluginImplementation napari_get_reader_spec plugin;
      CallReader impl p (Returns layer_data)],
     Ok (if _is_null_layer_sentinel layer_data then PyList []
         else py_or layer_data PyNone, Some impl)).
Proof.
  intros Hin Hcall Himpl Hread. unfold read_with_forced_plugin.
  rewrite bool_decide_eq_true_2 by done. simpl.
  rewrite Hcall. simpl. rewrite Himpl. simpl. rewrite Hread. simpl.
  by destruct (_is_null_layer_sentinel layer_data).
Qed.

(** A reader of the loop that hands back truthy data ends
    [read_data_with_plugins]. *)
Lemma read_with_any_plugin_found fuel p impl layer_data :
  (impl, Returns layer_data)
    ∈ attempts (trace (while_true fuel (loop_body p) reader_loop_init)) →
  truthy layer_data = true →
  value (read_any fuel p)
  = Ok (if _is_null_layer_sentinel layer_data then PyList [] else layer_data,
        Some impl).
Proof.
  intros (l1 & l2 & Ha)%list_elem_of_split Hld.
  destruct (reader_loop_first_read fuel p _ _ _ _ Ha Hld)
    as (_ & ld & st & [= <-] & Hst & <- & Himpl).
  by rewrite read_with_any_plugin_value, Hst, Hld, Himpl.
Qed.


Lemma read_with_forced_plugin_not_sentinel p plugin v h :
  value (read_forced p plugin) = Ok (v, h) → _is_null_layer_sentinel v = false.
Proof.
  unfold read_with_forced_plugin.
  destruct (negb _); [done|].
  destruct (_call_plugin _ _ _) as [[[|reader]|]|]; try done. simpl.
  destruct (get_plugin_implementation _ _) as [impl|]; [|done]. simpl.
  destruct (reader p) as [ld|]; [|done]. simpl.
  destruct (_is_null_layer_sentinel ld) eqn:Hld; simpl; [by intros [= <- _]|].
  intros [= <- _]. unfold py_or. by destruct (truthy ld).
Qed.

Lemma read_with_any_plugin_not_sentinel fuel p v h :
  value (read_any fuel p) = Ok (v, h) → _is_null_layer_sentinel v = false.
Proof.
  rewrite read_with_any_plugin_value.
  destruct (value _) as [st| |]; try done.
  destruct (truthy _); [|by destruct p as [|[|]]].
  by destruct (_is_null_layer_sentinel _) eqn:E; intros [= <- _].
Qed.

(** C6.  [_is_null_layer_sentinel] holds of the list whose one element is
    the tuple whose one element is [None], and of nothing else.  On each
    way through [read_data_with_plugins] - a result of npe2, a reader of
    the forced plugin, a reader of the loop - layer data that is the
    sentinel comes out as the empty list, with the implementation that
    read it; the sentinel itself is never returned. *)
Theorem null_layer_sentinel_read_as_empty fuel p plugin :
  (∀ v, _is_null_layer_sentinel v = true ↔ v = PyList [PyTuple [PyNone]])
  ∧ (∀ layer_data impl,
       value (read_npe2 p plugin) = Ok (Some (layer_data, impl)) →
       _is_null_layer_sentinel layer_data = true →
       value (read_data fuel p plugin) = Ok (PyList [], Some impl))
  ∧ (∀ name reader impl layer_data,
       value (read_npe2 p plugin) = Ok None →
       forced_reader_plugin plugin_manager splitext (abspath p) plugin
       = Some name →
       name ∈ plugins plugin_manager →
       _call_plugin reader_hook name (abspath p)
       = Returns (Some (Callable reader)) →
       get_plugin_implementation reader_hook name = Returns impl →
       reader (abspath p) = Returns layer_data →
       _is_null_layer_sentinel layer_data = true →
       value (read_data fuel p plugin) = Ok (PyList [], Some impl))
  ∧ (∀ impl layer_data,
       value (read_npe2 p plugin) = Ok None →
       forced_reader_plugin plugin_manager splitext (abspath p) plugin = None →
       (impl, Returns layer_data)
         ∈ attempts (trace (while_true fuel (loop_body (abspath p))
                                       reader_loop_init)) →
       _is_null_layer_sentinel layer_data = true →
       value (read_data fuel p plugin) = Ok (PyList [], Some impl))
  ∧ (∀ v h, value (read_data fuel p plugin) = Ok (v, h) →
            _is_null_layer_sentinel v = false).
Proof.
  refine (conj is_null_layer_sentinel_iff (conj _ (conj _ (conj _ _)))).
  - intros ld impl H Hld.
    rewrite (read_data_npe2_result fuel p plugin _ ld impl)
      by (rewrite <- H; apply surjective_M).
    by rewrite Hld.
  - intros name reader impl ld H Hforced Hin Hcall Himpl Hread Hld.
    rewrite (read_data_npe2_None fuel p plugin (trace (read_npe2 p plugin)))
      by (rewrite <- H; apply surjective_M).
    simpl. rewrite Hforced.
    rewrite (read_with_forced_plugin_read _ _ _ _ _ Hin Hcall Himpl Hread).
    simpl. by rewrite Hld.
  - intros impl ld H Hforced Hin Hld.
    rewrite (read_data_npe2_None fuel p plugin (trace (read_npe2 p plugin)))
      by (rewrite <- H; apply surjective_M).
    simpl. rewrite Hforced.
    rewrite (read_with_any_plugin_found _ _ _ _ Hin (truthy_sentinel _ Hld)).
    by rewrite Hld.
  - intros v h.
    destruct (read_with_npe2_value_cases p plugin) as [(ld & impl & H)|[H|[e H]]].
    + rewrite (read_data_npe2_result fuel p plugin _ ld impl)
        by (rewrite <- H; apply surjective_M).
      simpl. by destruct (_is_null_layer_sentinel ld) eqn:E; intros [= <- _].
    + rewrite (read_data_npe2_None fuel p plugin (trace (read_npe2 p plugin)))
        by (rewrite <- H; apply surjective_M).
      simpl. destruct (forced_reader_plugin _ _ _ _).
      * apply read_with_forced_plugin_not_sentinel.
      * apply read_with_any_plugin_not_sentinel.
    + by rewrite (read_data_npe2_failed fuel p plugin _ e)
        by (rewrite <- H; apply surjective_M).
Qed.

(** *** When no reader can read the path *)

(** With no result of npe2 and no plugin forced, [read_data_with_plugins]
    never hands back [None] as layer data; when its loop ends without
    truthy layer data it raises [ValueError], with one message for a
    single path and another for a list of paths that has a first
    element. *)
Lemma read_data_unread fuel p plugin :
  value (read_npe2 p plugin) = Ok None →
  forced_reader_plugin plugin_manager splitext (abspath p) plugin = None →
  (∀ v h, value (read_data fuel p plugin) = Ok (v, h) → v ≠ PyNone)
  ∧ (∀ st,
       value (while_true fuel (loop_body (abspath p)) reader_loop_init) = Ok st →
       truthy (last_layer_data st) = false →
       value (read_data fuel p plugin)
       = match abspath p with
         | PathStr s => Raise (ValueError (NoPluginForPath (PathStr s)))
         | PathSeq (first :: _) => Raise (ValueError (NoPluginForStack first))
         | PathSeq [] => Raise IndexError
         end).
Proof.
  intros H Hforced.
  rewrite (read_data_npe2_None fuel p plugin (trace (read_npe2 p plugin)))
    by (rewrite <- H; apply surjective_M).
  simpl. rewrite Hforced, read_with_any_plugin_value. split.
  - intros v h. destruct (value (while_true _ _ _)) as [st| |]; try done.
    destruct (truthy (last_layer_data st)) eqn:Hld;
      [|by destruct (abspath p) as [|[|]]].
    destruct (_is_null_layer_sentinel _) eqn:E; intros [= <- _]; [done|].
    by intros Hnone; rewrite Hnone in Hld.
  - intros st -> ->. by destruct (abspath p) as [|[|]].
Qed.


(** *** Writing: npe2 first *)

Local Abbreviation write_npe2 := (_write_layers_with_npe2 npe2).
Local Abbreviation write_multiple :=
  (_write_multiple_layers_with_plugins plugin_manager npe2 splitext
     abspath_or_url_str abspath_or_url_seq).
Local Abbreviation write_single :=
  (_write_single_layer_with_plugins plugin_manager npe2 splitext
     abspath_or_url_str abspath_or_url_seq).
Local Abbreviation multiple_with_hook :=
  (write_multiple_with_hook plugin_manager abspath_or_url_str abspath_or_url_seq).
Local Abbreviation single_with_hook :=
  (write_single_with_hook plugin_manager abspath_or_url_str abspath_or_url_seq).

Lemma write_layers_with_npe2_no_first_engine p layers plugin_name writer :
  Forall (λ ev, is_first_engine_event ev = false)
         (trace (write_npe2 p layers plugin_name writer)).
Proof.
  unfold _write_layers_with_npe2.
  destruct npe2 as [n|]; [|by repeat constructor].
  destruct writer as [writer|]; simpl.
  - destruct (_ <=? _)%Z; simpl.
    + destruct (_ !! 0) as [[[d m] ty]|]; simpl; [|by repeat constructor].
      destruct (exec writer (ArgsOne p d m)); by repeat constructor.
    + destruct (exec writer (ArgsMany p _)); by repeat constructor.
  - by repeat constructor.
Qed.

Lemma write_layers_with_npe2_missing p layers plugin_name writer :
  npe2 = None → write_npe2 p layers plugin_name writer = ([ImportNpe2], Ok []).
Proof. unfold _write_layers_with_npe2. by intros ->. Qed.

Lemma writer_plugin_to_force_eq p plugin_name :
  writer_plugin_to_force plugin_manager splitext p plugin_name
  = (writer_extension_lookup splitext p plugin_name,
     Ok (forced_writer_plugin plugin_manager splitext p plugin_name)).
Proof.
  unfold writer_plugin_to_force, writer_extension_lookup, forced_writer_plugin.
  destruct p as [s|l]; [|done]. by destruct (str_truthy plugin_name).
Qed.

(** [_write_multiple_layers_with_plugins] by cases on the npe2 attempt. *)
Lemma write_multiple_cases p layers plugin_name writer :
  let attempt := write_npe2 p layers plugin_name writer in
  let rest :=
    multiple_with_hook p layers
      (forced_writer_plugin plugin_manager splitext p plugin_name) in
  write_multiple p layers plugin_name writer
  = match value attempt with
    | Ok [] =>
        (trace attempt
           ++ Log FallingBack
              :: writer_extension_lookup splitext p plugin_name ++ trace rest,
         value rest)
    | other => (trace attempt, other)
    end.
Proof.
  intros attempt rest. unfold _write_multiple_layers_with_plugins.
  fold attempt. destruct attempt as [t [[|first l]| |]]; simpl; try done.
  - by rewrite (bind_Ok _ _ _ _ (writer_plugin_to_force_eq _ _)).
  - by rewrite app_nil_r.
Qed.

(** [_write_single_layer_with_plugins] by cases on the npe2 attempt. *)
Lemma write_single_cases p layer plugin_name writer :
  let attempt := write_npe2 p [layer] plugin_name writer in
  let rest :=
    single_with_hook p layer
      (forced_writer_plugin plugin_manager splitext p plugin_name) in
  write_single p layer plugin_name writer
  = match value attempt with
    | Ok [] =>
        (trace attempt
           ++ Log FallingBack
              :: writer_extension_lookup splitext p plugin_name ++ trace rest,
         value rest)
    | Ok (first :: _) => (trace attempt, Ok (Some first))
    | Raise e => (trace attempt, Raise e)
    | OutOfFuel => (trace attempt, OutOfFuel)
    end.
Proof.
  intros attempt rest. unfold _write_single_layer_with_plugins.
  fold attempt. destruct attempt as [t [[|first l]| |]]; simpl; try done.
  - by rewrite (bind_Ok _ _ _ _ (writer_plugin_to_force_eq _ _)).
  - by rewrite app_nil_r.
Qed.

Lemma elem_of_Forall_false {A} (P : A → bool) (l : list A) x :
  Forall (λ y, P y = false) l → x ∈ l → P x = true → False.
Proof.
  intros Hl Hx HP. rewrite Forall_forall in Hl. apply Hl in Hx. congruence.
Qed.

(** C3.  Both writing functions start with the npe2 attempt of
    [_write_layers_with_npe2], which touches nothing of the first plugin
    engine.  When the attempt hands back a list of written paths that is
    not empty, [_write_multiple_layers_with_plugins] returns that list and
    [_write_single_layer_with_plugins] the path at its head, and nothing
    more is called.  The first engine is used only when the attempt wrote
    nothing, and that is what the attempt does when npe2 cannot be
    imported. *)
Theorem write_npe2_first p layers layer plugin_name writer :
  let attempt := write_npe2 p layers plugin_name writer in
  let attempt1 := write_npe2 p [layer] plugin_name writer in
  let multiple := write_multiple p layers plugin_name writer in
  let single := write_single p layer plugin_name writer in
  (trace attempt `prefix_of` trace multiple
   ∧ trace attempt1 `prefix_of` trace single)
  ∧ (Forall (λ ev, is_first_engine_event ev = false) (trace attempt)
     ∧ Forall (λ ev, is_first_engine_event ev = false) (trace attempt1))
  ∧ (∀ written_paths,
       value attempt = Ok written_paths → written_paths ≠ [] →
       multiple = (trace attempt, Ok written_paths))
  ∧ (∀ first rest,
       value attempt1 = Ok (first :: rest) →
       single = (trace attempt1, Ok (Some first)))
  ∧ (∀ ev, ev ∈ trace multiple → is_first_engine_event ev = true →
           value attempt = Ok [])
  ∧ (∀ ev, ev ∈ trace single → is_first_engine_event ev = true →
           value attempt1 = Ok [])
  ∧ (npe2 = None → attempt = ([ImportNpe2], Ok []))
  ∧ (npe2 = None → attempt1 = ([ImportNpe2], Ok [])).
Proof.
  intros attempt attempt1 multiple single.
  pose proof (write_layers_with_npe2_no_first_engine p layers plugin_name writer)
    as Hno.
  pose proof (write_layers_with_npe2_no_first_engine p [layer] plugin_name writer)
    as Hno1.
  pose proof (write_multiple_cases p layers plugin_name writer) as Hm.
  pose proof (write_single_cases p layer plugin_name writer) as Hs.
  simpl in Hm, Hs. fold attempt in Hm, Hno. fold attempt1 in Hs, Hno1.
  fold multiple in Hm. fold single in Hs.
  split_and!; try done.
  - apply trace_prefix_bind.
  - apply trace_prefix_bind.
  - intros l Hl Hne. rewrite Hm, Hl. by destruct l.
  - intros first rest Hl. by rewrite Hs, Hl.
  - intros ev. rewrite Hm.
    destruct (value attempt) as [[|first l]|e|]; try done; simpl;
      intros Hin Hev; by destruct (elem_of_Forall_false _ _ _ Hno Hin Hev).
  - intros ev. rewrite Hs.
    destruct (value attempt1) as [[|first l]|e|]; try done; simpl;
      intros Hin Hev; by destruct (elem_of_Forall_false _ _ _ Hno1 Hin Hev).
  - apply write_layers_with_npe2_missing.
  - apply write_layers_with_npe2_missing.
Qed.


(** *** The plugin assigned to the extension of the path *)

Lemma not_first_engine_not_hook ev :
  is_first_engine_event ev = false → is_hook_event ev = false.
Proof. by destruct ev. Qed.

Lemma precedes_hooks_none x t :
  Forall (λ ev, is_hook_event ev = false) t → precedes_hooks x t.
Proof.
  intros Hno t1 ev t2 -> Hev. apply Forall_app in Hno as [_ Hno].
  apply Forall_cons in Hno as [Hno _]. congruence.
Qed.

Lemma precedes_hooks_after x pre rest :
  is_hook_event x = false →
  Forall (λ ev, is_hook_event ev = false) pre →
  precedes_hooks x (pre ++ x :: rest).
Proof.
  intros Hx Hno t1 ev t2 Heq Hev. revert t1 Heq.
  induction Hno as [|y pre Hy Hno IH]; intros t1 Heq; simpl in *.
  - destruct t1 as [|y t1]; simplify_eq/=; [congruence|].
    apply elem_of_cons; by left.
  - destruct t1 as [|z t1]; simplify_eq/=; [congruence|].
    apply elem_of_cons. right. by apply IH.
Qed.

Lemma str_truthy_false_lookup s plugin :
  str_truthy plugin = false →
  reader_extension_lookup splitext (PathStr s) plugin
  = [GetReaderForExtension (splitext s).2]
  ∧ writer_extension_lookup splitext (PathStr s) plugin
    = [GetWriterForExtension (splitext s).2]
  ∧ forced_reader_plugin plugin_manager splitext (PathStr s) plugin
    = truthy_str (get_reader_for_extension plugin_manager (splitext s).2)
  ∧ forced_writer_plugin plugin_manager splitext (PathStr s) plugin
    = get_writer_for_extension plugin_manager (splitext s).2.
Proof.
  unfold reader_extension_lookup, writer_extension_lookup,
    forced_reader_plugin, forced_writer_plugin.
  by intros ->.
Qed.

(** C4.  When no plugin name is given and the path is a single path, the
    plugin to force is the one that the plugin manager assigns to the
    extension of the path, [os.path.splitext(path)[-1]]:
    [get_reader_for_extension] is asked for a read (of the path as
    [abspath_or_url] hands it back, the value of [path] at that line),
    [get_writer_for_extension] for a write, and in each of the three
    functions every call on a hook of the first engine comes after that
    lookup.  Once the npe2 attempt has yielded nothing, the function goes
    on with the plugin so assigned. *)
Theorem plugin_forced_by_extension fuel s plugin layers layer writer :
  str_truthy plugin = false →
  let read_ext := (splitext (abspath_or_url_str s)).2 in
  let write_ext := (splitext s).2 in
  let assigned := get_writer_for_extension plugin_manager write_ext in
  (precedes_hooks (GetReaderForExtension read_ext)
                  (trace (read_data fuel (PathStr s) plugin))
   ∧ (value (read_npe2 (PathStr s) plugin) = Ok None →
      let rest :=
        match truthy_str (get_reader_for_extension plugin_manager read_ext) with
        | Some name => read_forced (abspath (PathStr s)) name
        | None => read_any fuel (abspath (PathStr s))
        end in
      read_data fuel (PathStr s) plugin
      = (trace (read_npe2 (PathStr s) plugin)
           ++ GetReaderForExtension read_ext :: trace rest,
         value rest)))
  ∧ (precedes_hooks (GetWriterForExtension write_ext)
                    (trace (write_multiple (PathStr s) layers plugin writer))
     ∧ (value (write_npe2 (PathStr s) layers plugin writer) = Ok [] →
        write_multiple (PathStr s) layers plugin writer
        = (trace (write_npe2 (PathStr s) layers plugin writer)
             ++ Log FallingBack :: GetWriterForExtension write_ext
                :: trace (multiple_with_hook (PathStr s) layers assigned),
           value (multiple_with_hook (PathStr s) layers assigned))))
  ∧ (precedes_hooks (GetWriterForExtension write_ext)
                    (trace (write_single (PathStr s) layer plugin writer))
     ∧ (value (write_npe2 (PathStr s) [layer] plugin writer) = Ok [] →
        write_single (PathStr s) layer plugin writer
        = (trace (write_npe2 (PathStr s) [layer] plugin writer)
             ++ Log FallingBack :: GetWriterForExtension write_ext
                :: trace (single_with_hook (PathStr s) layer assigned),
           value (single_with_hook (PathStr s) layer assigned)))).
Proof.
  intros Hplugin read_ext write_ext assigned.
  subst read_ext write_ext assigned.
  destruct (str_truthy_false_lookup s plugin Hplugin) as (_ & Hw & _ & Hfw).
  destruct (str_truthy_false_lookup (abspath_or_url_str s) plugin Hplugin)
    as (Hr & _ & Hfr & _).
  split_and!.
  - (* reading: every hook call comes after the lookup *)
    pose proof (read_with_npe2_no_first_engine (PathStr s) plugin) as Hno.
    apply Forall_forall in Hno.
    pose proof (Forall_impl _ _ _ Hno not_first_engine_not_hook) as Hnohook.
    destruct (read_with_npe2_value_cases (PathStr s) plugin)
      as [(ld & impl & H)|[H|[e H]]].
    + rewrite (read_data_npe2_result fuel (PathStr s) plugin _ ld impl)
        by (rewrite <- H; apply surjective_M).
      by apply precedes_hooks_none.
    + rewrite (read_data_npe2_None fuel (PathStr s) plugin
                 (trace (read_npe2 (PathStr s) plugin)))
        by (rewrite <- H; apply surjective_M).
      unfold trace at 1. unfold fst.
      change (abspath (PathStr s)) with (PathStr (abspath_or_url_str s)).
      rewrite Hr. by apply precedes_hooks_after.
    + rewrite (read_data_npe2_failed fuel (PathStr s) plugin _ e)
        by (rewrite <- H; apply surjective_M).
      by apply precedes_hooks_none.
  - (* reading: the plugin that is forced *)
    intros H.
    rewrite (read_data_npe2_None fuel (PathStr s) plugin
               (trace (read_npe2 (PathStr s) plugin)))
      by (rewrite <- H; apply surjective_M).
    change (abspath (PathStr s)) with (PathStr (abspath_or_url_str s)).
    by rewrite Hr, Hfr.
  - (* writing several layers *)
    pose proof (write_layers_with_npe2_no_first_engine
                  (PathStr s) layers plugin writer)
      as Hno.
    pose proof (Forall_impl _ _ _ Hno not_first_engine_not_hook) as Hnohook.
    rewrite write_multiple_cases. cbv zeta. rewrite Hw.
    destruct (value (write_npe2 (PathStr s) layers plugin writer))
      as [[|first l]|e|];
      try by apply precedes_hooks_none.
    unfold trace at 1. unfold fst. rewrite cons_middle, app_assoc.
    apply precedes_hooks_after; [done|].
    apply Forall_app. split; [done|by repeat constructor].
  - intros H. rewrite write_multiple_cases. cbv zeta. by rewrite H, Hw, Hfw.
  - (* writing one layer *)
    pose proof (write_layers_with_npe2_no_first_engine
                  (PathStr s) [layer] plugin writer)
      as Hno.
    pose proof (Forall_impl _ _ _ Hno not_first_engine_not_hook) as Hnohook.
    rewrite write_single_cases. cbv zeta. rewrite Hw.
    destruct (value (write_npe2 (PathStr s) [layer] plugin writer))
      as [[|first l]|e|];
      try by apply precedes_hooks_none.
    unfold trace at 1. unfold fst. rewrite cons_middle, app_assoc.
    apply precedes_hooks_after; [done|].
    apply Forall_app. split; [done|by repeat constructor].
  - intros H. rewrite write_single_cases. cbv zeta. by rewrite H, Hw, Hfw.
Qed.


(** *** [save_layers] *)

Local Abbreviation save :=
  (save_layers plugin_manager npe2 splitext abspath_or_url_str
     abspath_or_url_seq).

Lemma Forall_trace_bind {A B} (P : event → Prop) (m : M A) (k : A → M B) :
  Forall P (trace m) → (∀ a, Forall P (trace (k a))) →
  Forall P (trace (bind m k)).
Proof.
  intros Hm Hk. rewrite trace_bind. apply Forall_app_2; [done|].
  destruct (value m); [apply Hk|constructor..].
Qed.

Lemma Forall_trace_try_except {A} (P : event → Prop) (m : M A) h :
  Forall P (trace m) → (∀ e hm, h e = Some hm → Forall P (trace hm)) →
  Forall P (trace (try_except m h)).
Proof.
  intros Hm Hh. destruct m as [t [a|e|]]; try done. simpl.
  destruct (h e) as [[t' r]|] eqn:He; [|done]. simpl.
  apply Forall_app_2; [done|]. apply (Hh _ _ He).
Qed.

Local Ltac no_warning :=
  cbv zeta;
  repeat first
    [ apply Forall_trace_bind; [|intros ?]
    | apply Forall_trace_try_except; [|intros ? ? [= <-]]
    | match goal with
      | |- Forall _ (trace (match ?x with _ => _ end)) => destruct x
      end
    | by repeat constructor ].

Lemma write_layers_with_npe2_no_warning p layers plugin_name writer :
  Forall (λ ev, is_warning ev = false)
         (trace (write_npe2 p layers plugin_name writer)).
Proof. unfold _write_layers_with_npe2. no_warning. Qed.

Lemma write_multiple_with_hook_no_warning p layers plugin_name :
  Forall (λ ev, is_warning ev = false)
         (trace (multiple_with_hook p layers plugin_name)).
Proof. unfold write_multiple_with_hook. no_warning. Qed.

Lemma write_single_with_hook_no_warning p layer plugin_name :
  Forall (λ ev, is_warning ev = false)
         (trace (single_with_hook p layer plugin_name)).
Proof. unfold write_single_with_hook. no_warning. Qed.

Lemma writer_extension_lookup_no_warning p plugin_name :
  Forall (λ ev, is_warning ev = false)
         (writer_extension_lookup splitext p plugin_name).
Proof.
  unfold writer_extension_lookup. destruct p; [|done].
  destruct (str_truthy _); by repeat constructor.
Qed.

Lemma write_multiple_no_warning p layers plugin_name writer :
  Forall (λ ev, is_warning ev = false)
         (trace (write_multiple p layers plugin_name writer)).
Proof.
  rewrite write_multiple_cases. cbv zeta.
  pose proof (write_layers_with_npe2_no_warning p layers plugin_name writer).
  destruct (value _) as [[|]| |]; try done. simpl.
  apply Forall_app_2; [done|]. apply Forall_cons_2; [done|].
  apply Forall_app_2.
  - apply writer_extension_lookup_no_warning.
  - apply write_multiple_with_hook_no_warning.
Qed.

Lemma write_single_no_warning p layer plugin_name writer :
  Forall (λ ev, is_warning ev = false)
         (trace (write_single p layer plugin_name writer)).
Proof.
  rewrite write_single_cases. cbv zeta.
  pose proof (write_layers_with_npe2_no_warning p [layer] plugin_name writer).
  destruct (value _) as [[|]| |]; try done. simpl.
  apply Forall_app_2; [done|]. apply Forall_cons_2; [done|].
  apply Forall_app_2.
  - apply writer_extension_lookup_no_warning.
  - apply write_single_with_hook_no_warning.
Qed.

(** The calls that [save_layers] makes before it looks at [written], and
    the value of [written]. *)
Lemma save_layers_written p layers plugin writer :
  ∃ (t : list event) (written : result (list string)),
    Forall (λ ev, is_warning ev = false) t
    ∧ (layers = [] → t = [] ∧ written = Ok [])
    ∧ save p layers plugin writer
      = match written with
        | Ok [] => (t ++ [Warn (NoDataWritten (length layers) p)], Ok [])
        | other => (t, other)
        end.
Proof.
  unfold save_layers. destruct layers as [|layer [|layer' layers]].
  - exists [], (Ok []). by split_and!.
  - pose proof (write_single_no_warning p layer plugin writer) as Hno.
    destruct (write_single p layer plugin writer) as [t [written| |]].
    + exists t, (Ok match truthy_str written with
                    | Some written => [written]
                    | None => []
                    end).
      split_and!; [done..|]. simpl.
      destruct (truthy_str written); simpl; by rewrite ?app_nil_r.
    + by exists t, (Raise e).
    + by exists t, OutOfFuel.
  - pose proof (write_multiple_no_warning p (layer :: layer' :: layers)
                  plugin writer) as Hno.
    destruct (write_multiple p _ plugin writer) as [t [written| |]].
    + exists t, (Ok written). split_and!; [done..|]. simpl.
      destruct written; simpl; by rewrite ?app_nil_r.
    + by exists t, (Raise e).
    + by exists t, OutOfFuel.
Qed.

(** [save_layers] in terms of what the function that writes hands back. *)
Lemma save_layers_of_writers p layers plugin writer :
  (∀ layer, layers = [layer] →
     let w := write_single p layer plugin writer in
     save p layers plugin writer
     = match value w with
       | Ok written =>
           match truthy_str written with
           | Some s => (trace w, Ok [s])
           | None => (trace w ++ [Warn (NoDataWritten 1 p)], Ok [])
           end
       | Raise e => (trace w, Raise e)
       | OutOfFuel => (trace w, OutOfFuel)
       end)
  ∧ (∀ layer layer' rest, layers = layer :: layer' :: rest →
       let w := write_multiple p layers plugin writer in
       save p layers plugin writer
       = match value w with
         | Ok [] =>
             (trace w ++ [Warn (NoDataWritten (length layers) p)], Ok [])
         | other => (trace w, other)
         end).
Proof.
  split.
  - intros layer -> w. subst w. unfold save_layers.
    destruct (write_single p layer plugin writer) as [t [written| |]];
      simpl; try done.
    destruct (truthy_str written); simpl; by rewrite ?app_nil_r.
  - intros layer layer' rest -> w. subst w. unfold save_layers.
    destruct (write_multiple p _ plugin writer) as [t [[|s written]| |]];
      simpl; by rewrite ?app_nil_r.
Qed.

(** C10.  [save_layers] with no layer calls no plugin at all: it warns
    that no data was written and returns the empty list.  With any layers,
    the warning is given exactly when [save_layers] returns the empty list
    of written paths, and no other warning is given.  What it returns is
    what was written: for one layer the path that
    [_write_single_layer_with_plugins] hands back, if it is not empty, and
    for several layers the paths that
    [_write_multiple_layers_with_plugins] hands back; it makes no other
    call, and it warns, after that call, exactly when the call has
    returned and handed back no path. *)
Theorem save_layers_warns_iff_nothing_written p layers plugin writer :
  save p [] plugin writer = ([Warn (NoDataWritten 0 p)], Ok [])
  ∧ (∀ m, Warn m ∈ trace (save p layers plugin writer)
          ↔ m = NoDataWritten (length layers) p
            ∧ value (save p layers plugin writer) = Ok [])
  ∧ (∀ layer, layers = [layer] →
       let w := write_single p layer plugin writer in
       save p layers plugin writer
       = match value w with
         | Ok written =>
             match truthy_str written with
             | Some s => (trace w, Ok [s])
             | None => (trace w ++ [Warn (NoDataWritten 1 p)], Ok [])
             end
         | Raise e => (trace w, Raise e)
         | OutOfFuel => (trace w, OutOfFuel)
         end)
  ∧ (∀ layer layer' rest, layers = layer :: layer' :: rest →
       let w := write_multiple p layers plugin writer in
       save p layers plugin writer
       = match value w with
         | Ok [] =>
             (trace w ++ [Warn (NoDataWritten (length layers) p)], Ok [])
         | other => (trace w, other)
         end).
Proof.
  split; [done|]. split; [|apply save_layers_of_writers]. intros m.
  destruct (save_layers_written p layers plugin writer)
    as (t & written & Hno & _ & ->).
  assert (Warn m ∉ t) as Hnot.
  { intros Hin. by destruct (elem_of_Forall_false _ _ _ Hno Hin). }
  destruct written as [[|first l]|e|]; simpl.
  - rewrite elem_of_app, list_elem_of_singleton. split.
    + by intros [?|[= ->]].
    + intros [-> _]. by right.
  - split; [done|by intros [_ ?]].
  - split; [done|by intros [_ ?]].
  - split; [done|by intros [_ ?]].
Qed.

End io_facts.

(** ** The functions of [io.py] on concrete plugins *)

Lemma first_result_from {K R}
    (impls : list (HookImplementation * Examples.hook_function K R))
    kwargs res impl :
  Examples.first_result impls kwargs = Returns (HookReturned res impl) →
  impl ∈ impls.*1.
Proof.
  induction impls as [|[i f] impls IH]; [done|]. simpl.
  destruct (f kwargs) as [[r|]|]; [|by right; apply IH|done].
  intros [= _ ->]. by left.
Qed.

Lemma hook_caller_of_honours_skip_impls {K R}
    (impls : list (HookImplementation * Examples.hook_function K R)) :
  honours_skip_impls (Examples.hook_caller_of impls).
Proof.
  intros kwargs skip res impl Hres. simpl in Hres.
  apply first_result_from, list_elem_of_fmap in Hres as ([i f] & -> & Hin).
  apply list_elem_of_filter in Hin as [Hskip Hin]. split; [|done].
  apply list_elem_of_fmap. by exists (i, f).
Qed.

(** C5.  With npe2 absent, no plugin asked for, none assigned, and two
    reader plugins of which one raises and the other finds nothing, reading
    the empty list of paths ends in the [IndexError] of [path[0]], raised
    while the message of the [ValueError] is being built; a single path or
    a list with a first element ends in the [ValueError]. *)
Theorem read_data_empty_path_list :
  value (Examples.read_unreadable (PathSeq [])) = Raise IndexError
  ∧ value (Examples.read_unreadable (PathSeq ["a.tif"; "b.tif"]))
    = Raise (ValueError (NoPluginForStack "a.tif"))
  ∧ value (Examples.read_unreadable (PathStr "a.tif"))
    = Raise (ValueError (NoPluginForPath (PathStr "a.tif"))).
Proof. by vm_compute. Qed.

Lemma read_data_unread_witness :
  value (Examples.read_unreadable (PathStr "a.tif"))
  = Raise (ValueError (NoPluginForPath (PathStr "a.tif")))
  ∧ value (Examples.read_unreadable (PathSeq ["a.tif"; "b.tif"]))
    = Raise (ValueError (NoPluginForStack "a.tif")).
Proof.
  split.
  - destruct (read_data_unread Examples.unreadable_plugin_manager None
                Examples.splitext id id 3 (PathStr "a.tif") None
                eq_refl eq_refl) as [_ H].
    eapply H; [by vm_compute|reflexivity].
  - destruct (read_data_unread Examples.unreadable_plugin_manager None
                Examples.splitext id id 3 (PathSeq ["a.tif"; "b.tif"]) None
                eq_refl eq_refl) as [_ H].
    eapply H; [by vm_compute|reflexivity].
Defined.

Lemma reader_loop_terminates_witness :
  value (Examples.reader_loop (PathStr "a.tif")) ≠ OutOfFuel.
Proof.
  apply (reader_loop_terminates Examples.plugin_manager 4 (PathStr "a.tif")
           reader_loop_init).
  - apply hook_caller_of_honours_skip_impls.
  - constructor.
  - apply list_subseteq_nil.
  - simpl. lia.
Defined.

Lemma read_data_npe2_first_witness :
  Examples.read 4 (PathStr "cells.npy") None
  = ([ImportNpe2; Npe2ReadGetReader (PathStr "cells.npy") None],
     Ok (Examples.image, Some (HookImpl "npy")))
  ∧ value (_read_with_npe2 (Some Examples.npe2) (PathStr "a.tif") None)
    = Ok None.
Proof.
  split.
  - destruct (read_data_npe2_first Examples.plugin_manager (Some Examples.npe2)
                Examples.splitext id id 4 (PathStr "cells.npy") None)
      as (_ & _ & H & _).
    exact (H Examples.image (HookImpl "npy") eq_refl).
  - destruct (read_data_npe2_first Examples.plugin_manager (Some Examples.npe2)
                Examples.splitext id id 4 (PathStr "a.tif") None)
      as (_ & _ & _ & H & _).
    apply (H (GetReaderForExtension ".tif")); [|reflexivity].
    apply (list_elem_of_lookup_2 _ 2). by vm_compute.
Defined.

Lemma reader_loop_tries_in_order_witness :
  NoDup (reader_impls (trace (Examples.reader_loop (PathStr "a.tif"))))
  ∧ value (Examples.reader_loop (PathStr "a.tif")) ≠ OutOfFuel
  ∧ ∃ st,
      value (Examples.reader_loop (PathStr "a.tif")) = Ok st
      ∧ errors st
        = [PluginCallError (HookImpl "broken") (OtherException "OSError")]
      ∧ skip_impls st = [HookImpl "broken"; HookImpl "blind"]
      ∧ last_layer_data st = Examples.image
      ∧ hookimpl_found st = Some (HookImpl "good").
Proof.
  destruct (reader_loop_tries_in_order Examples.plugin_manager 4
              (PathStr "a.tif"))
    as (_ & _ & _ & Herrors & Hnodup & Hstop & _ & _ & _ & Hfuel).
  split_and!.
  - apply Hnodup, hook_caller_of_honours_skip_impls.
  - apply Hfuel; [apply hook_caller_of_honours_skip_impls|simpl; lia].
  - destruct (Hstop [(HookImpl "broken", Raises (OtherException "OSError"));
                     (HookImpl "blind", Returns (PyList []))]
                    (HookImpl "good") (Returns Examples.image) []
                    eq_refl eq_refl)
      as (_ & layer_data & st & [= <-] & Hst & Hdata & Himpl).
    destruct (Herrors st Hst) as [Herr Hskip].
    exists st. by split_and!.
Defined.

Lemma write_npe2_first_witness :
  Examples.write_multiple (PathStr "out.zarr") Examples.two_images
  = (trace (_write_layers_with_npe2 (Some Examples.npe2) (PathStr "out.zarr")
              Examples.two_images None None),
     Ok ["out.zarr"])
  ∧ Examples.write_single (PathStr "out.zarr") Examples.some_points
    = (trace (_write_layers_with_npe2 (Some Examples.npe2) (PathStr "out.zarr")
                [Examples.some_points] None None),
       Ok (Some "out.zarr"))
  ∧ value (_write_layers_with_npe2 (Some Examples.npe2) (PathStr "out")
             Examples.two_images None None) = Ok []
  ∧ value (_write_layers_with_npe2 (Some Examples.npe2) (PathStr "out.csv")
             [Examples.some_points] None None) = Ok []
  ∧ _write_layers_with_npe2 None (PathStr "out.zarr") Examples.two_images
      None None = ([ImportNpe2], Ok []).
Proof.
  destruct (write_npe2_first Examples.plugin_manager (Some Examples.npe2)
              Examples.splitext id id (PathStr "out.zarr")
              Examples.two_images Examples.some_points None None)
    as (_ & _ & Hmultiple & Hsingle & _).
  destruct (write_npe2_first Examples.plugin_manager (Some Examples.npe2)
              Examples.splitext id id (PathStr "out")
              Examples.two_images Examples.some_points None None)
    as (_ & _ & _ & _ & Hfallback & _).
  destruct (write_npe2_first Examples.plugin_manager (Some Examples.npe2)
              Examples.splitext id id (PathStr "out.csv")
              Examples.two_images Examples.some_points None None)
    as (_ & _ & _ & _ & _ & Hfallback1 & _).
  destruct (write_npe2_first Examples.plugin_manager None
              Examples.splitext id id (PathStr "out.zarr")
              Examples.two_images Examples.some_points None None)
    as (_ & _ & _ & _ & _ & _ & Hmissing & _).
  split_and!.
  - by apply Hmultiple.
  - by apply (Hsingle "out.zarr" []).
  - apply (Hfallback (CallWithResultObj napari_get_writer_spec []));
      [|reflexivity].
    apply (list_elem_of_lookup_2 _ 5). by vm_compute.
  - apply (Hfallback1 (HookCall (napari_write_spec "points") (Some "csv")));
      [|reflexivity].
    apply (list_elem_of_lookup_2 _ 5). by vm_compute.
  - by apply Hmissing.
Defined.

Lemma plugin_forced_by_extension_witness :
  str_truthy None = false
  ∧ precedes_hooks (GetReaderForExtension ".good")
                   (trace (Examples.read 4 (PathStr "a.good") None))
  ∧ value (Examples.read 4 (PathStr "a.good") None)
    = Ok (Examples.image, Some (HookImpl "good"))
  ∧ precedes_hooks (GetWriterForExtension ".csv")
      (trace (Examples.write_single (PathStr "out.csv") Examples.some_points))
  ∧ value (Examples.write_single (PathStr "out.csv") Examples.some_points)
    = Ok (Some "points.csv").
Proof.
  destruct (plugin_forced_by_extension Examples.plugin_manager
              (Some Examples.npe2) Examples.splitext id id 4 "a.good" None
              Examples.two_images Examples.some_points None eq_refl)
    as ([Hread Hreader] & _ & _).
  destruct (plugin_forced_by_extension Examples.plugin_manager
              (Some Examples.npe2) Examples.splitext id id 4 "out.csv" None
              Examples.two_images Examples.some_points None eq_refl)
    as (_ & _ & [Hwrite Hwriter]).
  split_and!.
  - reflexivity.
  - exact Hread.
  - unfold Examples.read. rewrite (Hreader eq_refl). by vm_compute.
  - exact Hwrite.
  - unfold Examples.write_single. rewrite (Hwriter eq_refl). by vm_compute.
Defined.

Lemma null_layer_sentinel_read_as_empty_witness :
  _is_null_layer_sentinel Examples.sentinel = true
  ∧ value (Examples.read 4 (PathStr "empty.npy") None)
    = Ok (PyList [], Some (HookImpl "npy"))
  ∧ value (Examples.read 4 (PathStr "empty.tif") (Some "good"))
    = Ok (PyList [], Some (HookImpl "good"))
  ∧ value (Examples.read 4 (PathStr "empty.tif") None)
    = Ok (PyList [], Some (HookImpl "good"))
  ∧ _is_null_layer_sentinel Examples.image = false.
Proof.
  destruct (null_layer_sentinel_read_as_empty Examples.plugin_manager
              (Some Examples.npe2) Examples.splitext id id 4
              (PathStr "empty.npy") None) as (Hiff & Hnpe2 & _).
  destruct (null_layer_sentinel_read_as_empty Examples.plugin_manager
              (Some Examples.npe2) Examples.splitext id id 4
              (PathStr "empty.tif") (Some "good")) as (_ & _ & Hforced & _).
  destruct (null_layer_sentinel_read_as_empty Examples.plugin_manager
              (Some Examples.npe2) Examples.splitext id id 4
              (PathStr "empty.tif") None) as (_ & _ & _ & Hloop & _).
  destruct (null_layer_sentinel_read_as_empty Examples.plugin_manager
              (Some Examples.npe2) Examples.splitext id id 4
              (PathStr "cells.npy") None) as (_ & _ & _ & _ & Hnever).
  split_and!.
  - by apply Hiff.
  - by apply (Hnpe2 Examples.sentinel).
  - apply (Hforced "good" Examples.good_reader (HookImpl "good")
                   Examples.sentinel);
      first [reflexivity | apply bool_decide_eq_true_1; by vm_compute].
  - apply (Hloop (HookImpl "good") Examples.sentinel); try reflexivity.
    apply (list_elem_of_lookup_2 _ 2). by vm_compute.
  - by apply (Hnever Examples.image (Some (HookImpl "npy"))).
Defined.

(** ** [populate_menu] *)

Section menus.
Import Menus.

Lemma populate_item_eq menu ax qt :
  populate_item menu ax qt
  = if negb (item_truthy ax) then (addSeparator menu qt, Done)
    else if negb (truthy (get ax "when" (VBool true))) then (qt, Done)
    else
      match keys ax !! "menu" with
      | Some sub =>
          let sub_qt :=
            match sub with
            | VMenu sub => (sub, setParent sub menu (addMenu menu sub qt))
            | _ => addMenu_titled menu sub qt
            end in
          populate_menu sub_qt.1 (default [] (items ax)) sub_qt.2
      | None =>
          match keys ax !! "text" with
          | Some t =>
              (update_menu (append_entry (Action (configure_action ax t)))
                           menu qt, Done)
          | None => (qt, KeyError "text")
          end
      end.
Proof.
  destruct ax as [ks nested]. simpl.
  destruct (negb _); [done|]. destruct (negb _); [done|].
  destruct (ks !! "menu") as [sub|]; [|done].
  set (sub_qt := match sub with VMenu _ => _ | _ => _ end).
  generalize (sub_qt.2). generalize (sub_qt.1). intros ref qt'.
  assert (∀ l qt,
    (fix populate (l : list MenuItem) (qt : Qt) {struct l} : Qt * ending :=
       match l with
       | [] => (qt, Done)
       | ax :: l =>
           match populate_item ref ax qt with
           | (qt, Done) => populate l qt
           | stop => stop
           end
       end) l qt = populate_menu ref l qt) as Hpopulate.
  { induction l as [|ax l IH]; intros qt0; [done|]. simpl.
    destruct (populate_item ref ax qt0) as [qt1 []]; [apply IH|done]. }
  destruct nested as [l|]; simpl; [apply Hpopulate|done].
Qed.

Lemma populate_menu_app menu l1 l2 qt :
  populate_menu menu (l1 ++ l2) qt
  = match populate_menu menu l1 qt with
    | (qt, Done) => populate_menu menu l2 qt
    | stop => stop
    end.
Proof.
  revert qt. induction l1 as [|ax l1 IH]; intros qt; [done|]. simpl.
  destruct (populate_item menu ax qt) as [qt' []]; [apply IH|done].
Qed.

(** C7.  [populate_menu] goes through its list of entries one by one, in
    order (and stops at an entry that lacks a key it needs).  An entry
    that is falsy adds a separator.  An entry whose key ['when'] is there
    with a falsy value adds nothing.  Otherwise an entry with a key
    ['menu'] attaches a submenu - the [QMenu] under that key, which gets
    the menu as its parent, or a new one made with the value as title -
    and populates it from the entries under ['items'], or from the empty
    list when that key is missing.  Any other entry with a key ['text']
    adds one action of that text, with the optional keys ['slot'],
    ['shortcut'], ['statusTip'], ['menuRole'], ['checkable'], ['checked']
    and ['check_on'] applied, and the entry as its data. *)
Theorem populate_menu_elementwise menu ax actions qt :
  populate_menu menu [] qt = (qt, Done)
  ∧ populate_menu menu (ax :: actions) qt
    = match populate_item menu ax qt with
      | (qt, Done) => populate_menu menu actions qt
      | stop => stop
      end
  ∧ (∀ more, populate_menu menu (actions ++ more) qt
             = match populate_menu menu actions qt with
               | (qt, Done) => populate_menu menu more qt
               | stop => stop
               end)
  ∧ (item_truthy ax = false →
     populate_item menu ax qt = (addSeparator menu qt, Done)
     ∧ ∀ m, menus qt !! menu = Some m →
            entries <$> menus (addSeparator menu qt) !! menu
            = Some (entries m ++ [Separator]))
  ∧ (∀ v, item_truthy ax = true →
          keys ax !! "when" = Some v → truthy v = false →
          populate_item menu ax qt = (qt, Done))
  ∧ (∀ sub, item_truthy ax = true →
            truthy (get ax "when" (VBool true)) = true →
            keys ax !! "menu" = Some sub →
            populate_item menu ax qt
            = match sub with
              | VMenu ref =>
                  populate_menu ref (default [] (items ax))
                    (setParent ref menu (addMenu menu ref qt))
              | title =>
                  populate_menu (next_ref qt) (default [] (items ax))
                    (addMenu_titled menu title qt).2
              end)
  ∧ (∀ t, item_truthy ax = true →
          truthy (get ax "when" (VBool true)) = true →
          keys ax !! "menu" = None →
          keys ax !! "text" = Some t →
          let action := configure_action ax t in
          populate_item menu ax qt
          = (update_menu (append_entry (Action action)) menu qt, Done)
          ∧ (∀ m, menus qt !! menu = Some m →
                  entries <$> menus (update_menu (append_entry (Action action))
                                                 menu qt) !! menu
                  = Some (entries m ++ [Action action]))
          ∧ text action = t
          ∧ triggered action = option_list (keys ax !! "slot")
          ∧ shortcut action = get ax "shortcut" (VStr "")
          ∧ statusTip action = get ax "statusTip" (VStr "")
          ∧ menuRole action = keys ax !! "menuRole"
          ∧ checkable action = truthy (get ax "checkable" VNone)
          ∧ checked action
            = (truthy (get ax "checkable" VNone)
               && truthy (get ax "checked" (VBool false)))
          ∧ checked_by action
            = (if truthy (get ax "checkable" VNone)
               then option_list (keys ax !! "check_on") else [])
          ∧ action_data action = Some ax).
Proof.
  refine (conj eq_refl (conj eq_refl (conj _ (conj _ (conj _ (conj _ _)))))).
  - intros more. apply populate_menu_app.
  - intros Hax. rewrite populate_item_eq, Hax. split; [done|].
    intros m Hm. simpl. by rewrite lookup_alter_eq, Hm.
  - intros v Hax Hwhen Hv. rewrite populate_item_eq, Hax. simpl.
    unfold get. rewrite Hwhen. simpl. by rewrite Hv.
  - intros sub Hax Hwhen Hmenu. rewrite populate_item_eq, Hax, Hwhen, Hmenu.
    by destruct sub.
  - intros t Hax Hwhen Hmenu Htext action.
    rewrite populate_item_eq, Hax, Hwhen, Hmenu, Htext.
    split; [done|]. split.
    { intros m Hm. simpl. by rewrite lookup_alter_eq, Hm. }
    subst action. simpl.
    destruct (keys ax !! "slot"), (keys ax !! "menuRole"),
      (truthy (get ax "checkable" VNone)), (keys ax !! "check_on"); done.
Qed.

End menus.

Lemma populate_menu_elementwise_witness :
  let restart :=
    Menus.Dict {[ "text" := Menus.VStr "Restart";
                  "when" := Menus.VBool false ]} None in
  let populated :=
    (Menus.populate_menu 0 MenuExample.ACTIONS MenuExample.empty_menu_bar).1 in
  Menus.populate_item 0 (Menus.Dict ∅ None) MenuExample.empty_menu_bar
  = (Menus.addSeparator 0 MenuExample.empty_menu_bar, Menus.Done)
  ∧ Menus.populate_item 0 restart MenuExample.empty_menu_bar
    = (MenuExample.empty_menu_bar, Menus.Done)
  ∧ Menus.entries <$> Menus.menus populated !! 0
    = Some [ Menus.Action
               (Menus.configure_action MenuExample.open_action
                  (Menus.VStr "Open File(s)..."));
             Menus.Separator;
             Menus.SubMenu 1 ]
  ∧ Menus.entries <$> Menus.menus populated !! 1
    = Some [ Menus.Action
               (Menus.configure_action MenuExample.toggle_action
                  (Menus.VStr "Toggle")) ].
Proof.
  intros restart populated.
  destruct (populate_menu_elementwise 0 (Menus.Dict ∅ None) []
              MenuExample.empty_menu_bar) as (_ & _ & _ & Hseparator & _).
  destruct (populate_menu_elementwise 0 restart [] MenuExample.empty_menu_bar)
    as (_ & _ & _ & _ & Hwhen & _).
  split_and!.
  - by apply Hseparator.
  - by apply (Hwhen (Menus.VBool false)).
  - by vm_compute.
  - by vm_compute.
Defined.

(** ** [VispyPointsLayer._on_data_change] *)

Section points_visual.
Import Vispy.
Context {scalar : Type} (zero one : scalar).

Lemma reverse_replicate {A} n (x : A) : reverse (replicate n x) = replicate n x.
Proof.
  induction n as [|n IH]; [done|]. simpl. rewrite reverse_cons, IH.
  clear IH. induction n as [|n IH]; [done|]. simpl. by rewrite IH.
Qed.

(** C8.  When the layer has no point in view, [_on_data_change] hands the
    visual one coordinate of [_ndisplay] zeros, the size [[0]], the edge
    colour [[0, 0, 0, 1]] and the face colour [[1, 1, 1, 1]]; otherwise it
    hands over [_view_data] with the columns of every row reversed, with
    [_view_size], [_view_edge_color] and [_view_face_color].  Either way
    the edge width and the symbol are the layer's, scaling is on, and the
    visual is reset afterwards. *)
Theorem on_data_change_spec (layer : @PointsLayer scalar) :
  (length (_indices_view layer) = 0 →
   _on_data_change zero one layer
   = [ set_data {| pos := [replicate (_ndisplay layer) zero];
                   size := [zero];
                   arg_edge_width := edge_width layer;
                   arg_symbol := symbol layer;
                   edge_color := [[zero; zero; zero; one]];
                   face_color := [[one; one; one; one]];
                   scaling := true |};
       reset ])
  ∧ (length (_indices_view layer) ≠ 0 →
     _on_data_change zero one layer
     = [ set_data {| pos := reverse <$> _view_data layer;
                     size := _view_size layer;
                     arg_edge_width := edge_width layer;
                     arg_symbol := symbol layer;
                     edge_color := _view_edge_color layer;
                     face_color := _view_face_color layer;
                     scaling := true |};
         reset ]).
Proof.
  unfold _on_data_change. split; intros Hview.
  - rewrite Hview. simpl. unfold reverse_columns, np_zeros. simpl.
    by rewrite reverse_replicate.
  - destruct (length (_indices_view layer)); done.
Qed.

End points_visual.

Lemma on_data_change_spec_witness :
  Vispy._on_data_change 0%Z 1%Z PointsExample.no_points
  = [ Vispy.set_data
        {| Vispy.pos := [[0; 0; 0]%Z]; Vispy.size := [0%Z];
           Vispy.arg_edge_width := 1%Z; Vispy.arg_symbol := "o";
           Vispy.edge_color := [[0; 0; 0; 1]%Z];
           Vispy.face_color := [[1; 1; 1; 1]%Z];
           Vispy.scaling := true |};
      Vispy.reset ]
  ∧ Vispy._on_data_change 0%Z 1%Z PointsExample.two_points
    = [ Vispy.set_data
          {| Vispy.pos := [[3; 1]; [4; 8]]%Z; Vispy.size := [1; 1]%Z;
             Vispy.arg_edge_width := 1%Z; Vispy.arg_symbol := "o";
             Vispy.edge_color := [[0; 0; 0; 1]; [0; 0; 0; 1]]%Z;
             Vispy.face_color := [[1; 0; 0; 1]; [0; 1; 0; 1]]%Z;
             Vispy.scaling := true |};
        Vispy.reset ].
Proof.
  split.
  - by apply (on_data_change_spec 0%Z 1%Z PointsExample.no_points).
  - by apply (on_data_change_spec 0%Z 1%Z PointsExample.two_points).
Defined.

(** ** The mouse bindings of the points layer *)

(** The tests [test_add_point], [test_select_point],
    [test_add_select_point] and [test_remove_select_point], on the layer
    of their fixture. *)
Example test_add_point :
  let layer := PointsMouse.set_mode PointsMouse.ADD
                 PointsMouse.known_points_layer_2d in
  let pressed :=
    PointsMouse.mouse_press_callbacks layer
      (PointsMouse.Event_at PointsMouse.mouse_press [20; 30]%Z) in
  let released :=
    PointsMouse.mouse_release_callbacks pressed
      (PointsMouse.Event_at PointsMouse.mouse_release [20; 30]%Z) in
  length (PointsMouse.data released) = 5
  ∧ last (PointsMouse.data released) = Some [20; 30]%Z.
Proof. done. Qed.

Example test_select_point :
  let layer := PointsMouse.set_mode PointsMouse.SELECT
                 PointsMouse.known_points_layer_2d in
  let pressed :=
    PointsMouse.mouse_press_callbacks layer
      (PointsMouse.Event_at PointsMouse.mouse_press [1; 3]%Z) in
  let released :=
    PointsMouse.mouse_release_callbacks pressed
      (PointsMouse.Event_at PointsMouse.mouse_release [1; 3]%Z) in
  PointsMouse.selected_data released = {[0]}.
Proof. by vm_compute. Qed.

(** C9.  A points layer in ['pan_zoom'] mode that is sent a press and then
    a release of the mouse, wherever and with whatever modifiers, keeps
    its points and its selection as they were: no point is added, none is
    selected. *)
Theorem pan_zoom_click_changes_nothing layer press release :
  PointsMouse.mode layer = PointsMouse.PAN_ZOOM →
  let clicked :=
    PointsMouse.mouse_release_callbacks
      (PointsMouse.mouse_press_callbacks layer press) release in
  PointsMouse.data clicked = PointsMouse.data layer
  ∧ PointsMouse.selected_data clicked = PointsMouse.selected_data layer
  ∧ length (PointsMouse.data clicked) = length (PointsMouse.data layer)
  ∧ size (PointsMouse.selected_data clicked)
    = size (PointsMouse.selected_data layer).
Proof.
  intros Hmode clicked. subst clicked.
  unfold PointsMouse.mouse_press_callbacks. by rewrite Hmode.
Qed.

Lemma pan_zoom_click_changes_nothing_witness :
  let clicked :=
    PointsMouse.mouse_release_callbacks
      (PointsMouse.mouse_press_callbacks PointsMouse.known_points_layer_2d
         (PointsMouse.Event_at PointsMouse.mouse_press [1; 3]%Z))
      (PointsMouse.Event_at PointsMouse.mouse_release [1; 3]%Z) in
  length (PointsMouse.data clicked) = 4
  ∧ size (PointsMouse.selected_data clicked) = 0.
Proof.
  destruct (pan_zoom_click_changes_nothing PointsMouse.known_points_layer_2d
              (PointsMouse.Event_at PointsMouse.mouse_press [1; 3]%Z)
              (PointsMouse.Event_at PointsMouse.mouse_release [1; 3]%Z)
              eq_refl) as (_ & _ & Hdata & Hselected).
  split; [exact Hdata|exact Hselected].
Defined.

(** * More of the code *)

(** ** Reading: what a successful read hands back, and forced plugins *)

Section io_more.
Context (plugin_manager : PluginManager) (npe2 : option Npe2).
Context (splitext : string → string * string).
Context (abspath_or_url_str : string → string).
Context (abspath_or_url_seq : list string → list string).

Local Abbreviation abspath :=
  (abspath_or_url abspath_or_url_str abspath_or_url_seq).
Local Abbreviation read_npe2 := (_read_with_npe2 npe2).
Local Abbreviation loop_body := (reader_loop_body plugin_manager).
Local Abbreviation read_forced := (read_with_forced_plugin plugin_manager).
Local Abbreviation read_any := (read_with_any_plugin plugin_manager).
Local Abbreviation read_data :=
  (read_data_with_plugins plugin_manager npe2 splitext
     abspath_or_url_str abspath_or_url_seq).
Local Abbreviation reader_hook := (napari_get_reader (hook plugin_manager)).
Local Abbreviation forced_reader :=
  (forced_reader_plugin plugin_manager splitext).

Lemma reader_loop_found_implementation fuel p st :
  value (while_true fuel (loop_body p) reader_loop_init) = Ok st →
  truthy (last_layer_data st) = true →
  ∃ l impl,
    attempts (trace (while_true fuel (loop_body p) reader_loop_init))
    = l ++ [(impl, Returns (last_layer_data st))]
    ∧ hookimpl_found st = Some impl.
Proof.
  intros Hst Hld.
  destruct (reader_loop_run plugin_manager fuel p reader_loop_init _ _
              (surjective_M _)) as (_ & _ & _ & _ & H).
  destruct H as [[_ H]|(l & impl & ld & st' & Ha & _ & _ & Hst' & <- & Himpl)].
  - destruct (H st Hst) as [_ [Hnone|Hfalsy]]; [|congruence].
    rewrite Hnone in Hld. done.
  - rewrite Hst in Hst'. injection Hst' as <-. by exists l, impl.
Qed.

(** Whenever [read_data_with_plugins] returns, the second component of
    the pair is an implementation, never [None]; and when the loop over
    the reader hooks did the reading, it is the implementation of the
    last reader called, whose data is what is returned (the sentinel as
    the empty list). *)
Theorem read_data_names_implementation fuel p plugin v h :
  value (read_data fuel p plugin) = Ok (v, h) →
  (∃ impl, h = Some impl)
  ∧ (value (read_npe2 p plugin) = Ok None →
     forced_reader (abspath p) plugin = None →
     ∃ l impl layer_data,
       attempts (trace (while_true fuel (loop_body (abspath p)) reader_loop_init))
       = l ++ [(impl, Returns layer_data)]
       ∧ truthy layer_data = true
       ∧ h = Some impl
       ∧ v = if _is_null_layer_sentinel layer_data then PyList []
             else layer_data).
Proof.
  intros Hv.
  assert (∀ v h, value (read_any fuel (abspath p)) = Ok (v, h) →
    ∃ l impl layer_data,
      attempts (trace (while_true fuel (loop_body (abspath p)) reader_loop_init))
      = l ++ [(impl, Returns layer_data)]
      ∧ truthy layer_data = true
      ∧ h = Some impl
      ∧ v = if _is_null_layer_sentinel layer_data then PyList []
            else layer_data) as Hany.
  { clear. intros v h. rewrite read_with_any_plugin_value.
    destruct (value (while_true _ _ _)) as [st| |] eqn:Hst; try done.
    destruct (truthy (last_layer_data st)) eqn:Hld;
      [|by destruct (abspath p) as [|[|]]].
    intros [= <- <-].
    destruct (reader_loop_found_implementation _ _ _ Hst Hld)
      as (l & impl & Ha & Himpl).
    by exists l, impl, (last_layer_data st). }
  destruct (read_with_npe2_value_cases npe2 p plugin)
    as [(ld & impl & H)|[H|[e H]]].
  - rewrite (read_data_npe2_result plugin_manager npe2 splitext
               abspath_or_url_str abspath_or_url_seq fuel p plugin _ ld impl)
      in Hv by (rewrite <- H; apply surjective_M).
    injection Hv as <- <-. split; [by eexists|]. congruence.
  - rewrite (read_data_npe2_None plugin_manager npe2 splitext
               abspath_or_url_str abspath_or_url_seq fuel p plugin
               (trace (read_npe2 p plugin)))
      in Hv by (rewrite <- H; apply surjective_M).
    simpl in Hv. destruct (forced_reader (abspath p) plugin) as [name|] eqn:Hf.
    + split; [|done]. revert Hv. unfold read_with_forced_plugin.
      destruct (negb _); [done|].
      destruct (_call_plugin _ _ _) as [[[|reader]|]|]; try done. simpl.
      destruct (get_plugin_implementation _ _) as [impl|]; [|done]. simpl.
      destruct (reader (abspath p)) as [ld|]; [|done]. simpl.
      destruct (_is_null_layer_sentinel ld); intros [= _ <-]; by eexists.
    + destruct (Hany _ _ Hv) as (l & impl & ld & ? & ? & -> & ->).
      split; [by eexists|]. intros _ _. by exists l, impl, ld.
  - by rewrite (read_data_npe2_failed plugin_manager npe2 splitext
               abspath_or_url_str abspath_or_url_seq fuel p plugin _ e)
      in Hv by (rewrite <- H; apply surjective_M).
Qed.


(** [read_data_with_plugins] with a forced plugin, by cases on what the
    plugin manager and the plugin do. *)
Lemma read_with_forced_plugin_cases p name :
  let spec := napari_get_reader_spec in
  if bool_decide (name ∈ plugins plugin_manager) then
    match _call_plugin reader_hook name p with
    | Raises e => read_forced p name = ([CallPlugin spec name], Raise e)
    | Returns (Some (Callable reader)) =>
        match get_plugin_implementation reader_hook name with
        | Raises e =>
            read_forced p name
            = ([CallPlugin spec name; GetPluginImplementation spec name],
               Raise e)
        | Returns impl =>
            read_forced p name
            = ([CallPlugin spec name; GetPluginImplementation spec name;
                CallReader impl p (reader p)],
               match reader p with
               | Returns layer_data =>
                   Ok (if _is_null_layer_sentinel layer_data then PyList []
                       else py_or layer_data PyNone, Some impl)
               | Raises e => Raise e
               end)
        end
    | Returns _ =>
        read_forced p name
        = ([CallPlugin spec name],
           Raise (ValueError (PluginDoesNotSupportFile name p)))
    end
  else
    read_forced p name
    = ([GetHookimpls spec],
       Raise (ValueError
                (NoRegisteredPlugin spec name
                   (list_to_set
                      (hookimpl_plugin_name <$> get_hookimpls reader_hook))))).
Proof.
  unfold read_with_forced_plugin. simpl.
  destruct (bool_decide _); simpl; [|done].
  destruct (_call_plugin _ _ _) as [[[|reader]|]|]; try done. simpl.
  destruct (get_plugin_implementation _ _) as [impl|]; [|done]. simpl.
  destruct (reader p) as [ld|]; [|done]. simpl.
  by destruct (_is_null_layer_sentinel ld).
Qed.

Lemma attempts_no_hook t :
  Forall (λ ev, is_hook_event ev = false) t → attempts t = [].
Proof.
  induction 1 as [|ev t Hev _ IH]; [done|]. by destruct ev.
Qed.

Lemma reader_extension_lookup_no_hook p plugin :
  Forall (λ ev, is_hook_event ev = false)
         (reader_extension_lookup splitext p plugin).
Proof.
  unfold reader_extension_lookup. destruct p; [|done].
  destruct (str_truthy _); by repeat constructor.
Qed.

Local Ltac not_in_list :=
  let Hin := fresh "Hin" in
  intros Hin;
  repeat (apply elem_of_cons in Hin as [Hin|Hin]; [discriminate Hin|]);
  by apply elem_of_nil in Hin.

Lemma read_with_forced_plugin_facts p name :
  let m := read_forced p name in
  (∀ h skip, CallWithResultObj h skip ∉ trace m)
  ∧ length (attempts (trace m)) ≤ 1
  ∧ (∀ impl o, (impl, o) ∈ attempts (trace m) →
       get_plugin_implementation reader_hook name = Returns impl
       ∧ value m
         = match o with
           | Returns layer_data =>
               Ok (if _is_null_layer_sentinel layer_data then PyList []
                   else py_or layer_data PyNone, Some impl)
           | Raises exc => Raise exc
           end)
  ∧ (name ∉ plugins plugin_manager →
     attempts (trace m) = []
     ∧ ∃ names,
         value m
         = Raise (ValueError (NoRegisteredPlugin napari_get_reader_spec
                                name names))).
Proof.
  intros m. subst m.
  pose proof (read_with_forced_plugin_cases p name) as Hcases.
  cbv zeta in Hcases.
  destruct (bool_decide (name ∈ plugins plugin_manager)) eqn:Hreg.
  - apply bool_decide_eq_true_1 in Hreg.
    destruct (_call_plugin _ _ _) as [[[b|reader]|]|e].
    + rewrite Hcases. simpl. split_and!; [intros h skip; not_in_list|lia| |done].
      by intros impl o ?%elem_of_nil.
    + destruct (get_plugin_implementation _ _) as [impl|e].
      * rewrite Hcases. simpl.
        split_and!; [intros h skip; not_in_list|lia| |done].
        intros impl' o Hin. apply list_elem_of_singleton in Hin.
        injection Hin as -> ->. split; [done|]. by destruct (reader p).
      * rewrite Hcases. simpl.
        split_and!; [intros h skip; not_in_list|lia| |done].
        by intros impl o ?%elem_of_nil.
    + rewrite Hcases. simpl. split_and!; [intros h skip; not_in_list|lia| |done].
      by intros impl o ?%elem_of_nil.
    + rewrite Hcases. simpl. split_and!; [intros h skip; not_in_list|lia| |done].
      by intros impl o ?%elem_of_nil.
  - rewrite Hcases. simpl. split_and!; [intros h skip; not_in_list|lia| |].
    + by intros impl o ?%elem_of_nil.
    + intros _. split; [done|]. by eexists.
Qed.

(** A forced plugin is the only one asked.  When npe2 has yielded nothing
    and a plugin is forced (by name or by the extension of the path), the
    hook is never asked for candidates, one reader at most is called, and
    it is the reader of the forced plugin; what that reader returns is
    returned (the sentinel as the empty list, any other falsy data as
    [None]) and what it raises is raised as it is, not wrapped.  A forced
    plugin that is not registered gives a [ValueError] and no reader is
    called. *)
Theorem forced_plugin_is_the_only_one_asked fuel p plugin name :
  value (read_npe2 p plugin) = Ok None →
  forced_reader (abspath p) plugin = Some name →
  let m := read_data fuel p plugin in
  (∀ h skip, CallWithResultObj h skip ∉ trace m)
  ∧ length (attempts (trace m)) ≤ 1
  ∧ (∀ impl o, (impl, o) ∈ attempts (trace m) →
       get_plugin_implementation reader_hook name = Returns impl
       ∧ value m
         = match o with
           | Returns layer_data =>
               Ok (if _is_null_layer_sentinel layer_data then PyList []
                   else py_or layer_data PyNone, Some impl)
           | Raises exc => Raise exc
           end)
  ∧ (name ∉ plugins plugin_manager →
     attempts (trace m) = []
     ∧ ∃ names,
         value m
         = Raise (ValueError (NoRegisteredPlugin napari_get_reader_spec
                                name names))).
Proof.
  intros Hnpe2 Hforced m.
  assert (trace m = trace (read_npe2 p plugin)
                    ++ reader_extension_lookup splitext (abspath p) plugin
                    ++ trace (read_forced (abspath p) name)
          ∧ value m = value (read_forced (abspath p) name)) as [-> ->].
  { subst m.
    rewrite (read_data_npe2_None plugin_manager npe2 splitext
               abspath_or_url_str abspath_or_url_seq fuel p plugin
               (trace (read_npe2 p plugin)))
      by (rewrite <- Hnpe2; apply surjective_M).
    cbv zeta. by rewrite Hforced. }
  clear m.
  pose proof (read_with_npe2_no_first_engine npe2 p plugin) as Hno.
  apply Forall_forall in Hno.
  pose proof (Forall_impl _ _ _ Hno not_first_engine_not_hook) as Hnohook.
  pose proof (reader_extension_lookup_no_hook (abspath p) plugin) as Hnolookup.
  assert (attempts (trace (read_npe2 p plugin)
                    ++ reader_extension_lookup splitext (abspath p) plugin
                    ++ trace (read_forced (abspath p) name))
          = attempts (trace (read_forced (abspath p) name))) as ->.
  { unfold attempts. rewrite !omap_app.
    fold (attempts (trace (read_npe2 p plugin))).
    fold (attempts (reader_extension_lookup splitext (abspath p) plugin)).
    by rewrite (attempts_no_hook _ Hnohook), (attempts_no_hook _ Hnolookup). }
  destruct (read_with_forced_plugin_facts (abspath p) name)
    as (Hcall & Hlen & Hone & Hunreg).
  split_and!; try done.
  intros h skip [Hin|[Hin|Hin]%elem_of_app]%elem_of_app.
  - by destruct (elem_of_Forall_false _ _ _ Hnohook Hin).
  - by destruct (elem_of_Forall_false _ _ _ Hnolookup Hin).
  - by apply Hcall in Hin.
Qed.


(** ** Writing: errors, and what [save_layers] hands back *)

Local Abbreviation write_npe2 := (_write_layers_with_npe2 npe2).
Local Abbreviation write_multiple :=
  (_write_multiple_layers_with_plugins plugin_manager npe2 splitext
     abspath_or_url_str abspath_or_url_seq).
Local Abbreviation write_single :=
  (_write_single_layer_with_plugins plugin_manager npe2 splitext
     abspath_or_url_str abspath_or_url_seq).
Local Abbreviation multiple_with_hook :=
  (write_multiple_with_hook plugin_manager abspath_or_url_str abspath_or_url_seq).
Local Abbreviation single_with_hook :=
  (write_single_with_hook plugin_manager abspath_or_url_str abspath_or_url_seq).
Local Abbreviation save :=
  (save_layers plugin_manager npe2 splitext abspath_or_url_str
     abspath_or_url_seq).
Local Abbreviation forced_writer :=
  (forced_writer_plugin plugin_manager splitext).

Lemma write_multiple_with_hook_writer p layers plugin_name impl p' o :
  CallWriter impl p' o ∈ trace (multiple_with_hook p layers plugin_name) →
  p' = abspath (abspath p)
  ∧ value (multiple_with_hook p layers plugin_name)
    = match o with
      | Returns written => Ok written
      | Raises exc => Raise (PluginCallError impl exc)
      end.
Proof.
  unfold write_multiple_with_hook. simpl.
  destruct (truthy_str plugin_name) as [name|].
  - destruct (negb _); simpl; [not_in_list|].
    destruct (get_plugin_implementation _ _) as [i|]; simpl; [|not_in_list].
    destruct (hook_call _ _ _) as [[[b|w]|]|]; simpl; try not_in_list.
    destruct (w _ _) as [written|exc] eqn:Hw; simpl.
    + intros Hin. repeat (apply elem_of_cons in Hin as [Hin|Hin];
                          [try discriminate Hin|]);
        [|by apply elem_of_nil in Hin].
      by injection Hin as -> -> ->.
    + intros Hin. repeat (apply elem_of_cons in Hin as [Hin|Hin];
                          [try discriminate Hin|]);
        [|by apply elem_of_nil in Hin].
      by injection Hin as -> -> ->.
  - destruct (call_with_result_obj _ _ _) as [[|[b|w] i]|]; simpl;
      try not_in_list.
    destruct (w _ _) as [written|exc] eqn:Hw; simpl.
    + intros Hin. repeat (apply elem_of_cons in Hin as [Hin|Hin];
                          [try discriminate Hin|]);
        [|by apply elem_of_nil in Hin].
      by injection Hin as -> -> ->.
    + intros Hin. repeat (apply elem_of_cons in Hin as [Hin|Hin];
                          [try discriminate Hin|]);
        [|by apply elem_of_nil in Hin].
      by injection Hin as -> -> ->.
Qed.

Lemma writer_extension_lookup_no_hook p plugin_name :
  Forall (λ ev, is_hook_event ev = false)
         (writer_extension_lookup splitext p plugin_name).
Proof.
  unfold writer_extension_lookup. destruct p; [|done].
  destruct (str_truthy _); by repeat constructor.
Qed.

(** A writer function of the first engine that raises never lets its
    exception out as it is: whenever [_write_multiple_layers_with_plugins]
    has called a writer function, on the path normalised twice, it returns
    what the function returned, or raises a [PluginCallError] that names
    the implementation and holds what the function raised. *)
Theorem writer_errors_are_wrapped p layers plugin_name writer impl p' o :
  CallWriter impl p' o ∈ trace (write_multiple p layers plugin_name writer) →
  p' = abspath (abspath p)
  ∧ value (write_multiple p layers plugin_name writer)
    = match o with
      | Returns written => Ok written
      | Raises exc => Raise (PluginCallError impl exc)
      end.
Proof.
  rewrite write_multiple_cases. cbv zeta.
  pose proof (write_layers_with_npe2_no_first_engine npe2 p layers
                plugin_name writer) as Hno.
  pose proof (Forall_impl _ _ _ Hno not_first_engine_not_hook) as Hnohook.
  destruct (value (write_npe2 p layers plugin_name writer))
    as [[|first l]|e|]; simpl;
    try (intros Hin; by destruct (elem_of_Forall_false _ _ _ Hnohook Hin)).
  intros [Hin|Hin]%elem_of_app;
    [by destruct (elem_of_Forall_false _ _ _ Hnohook Hin)|].
  apply elem_of_cons in Hin as [Hin|Hin]; [done|].
  apply elem_of_app in Hin as [Hin|Hin].
  - by destruct (elem_of_Forall_false _ _ _
                   (writer_extension_lookup_no_hook p plugin_name) Hin).
  - by apply write_multiple_with_hook_writer.
Qed.

(** [save_layers] with one layer hands back one path at most, and never
    the empty string: of what npe2 wrote only the first path is kept, and
    a falsy answer of the hook counts as nothing written. *)
Theorem save_one_layer_one_path p layer plugin writer written :
  value (save p [layer] plugin writer) = Ok written →
  written = []
  ∨ ∃ s, written = [s] ∧ s ≠ ""
         ∧ value (write_single p layer plugin writer) = Ok (Some s).
Proof.
  unfold save_layers. rewrite !value_bind.
  destruct (value (write_single p layer plugin writer)) as [w| |]; try done.
  simpl. destruct w as [s|]; simpl.
  - destruct (String.eqb s "") eqn:Hs; simpl.
    + intros [= <-]. by left.
    + intros [= <-]. right. exists s. split_and!; [done| |done].
      intros ->. done.
  - intros [= <-]. by left.
Qed.


Lemma write_with_hook_unregistered p layers layer plugin_name name :
  truthy_str plugin_name = Some name →
  name ∉ plugins plugin_manager →
  (∃ names,
     multiple_with_hook p layers plugin_name
     = ([Log (WritingTo (abspath p) napari_get_writer_spec);
         GetHookimpls napari_get_writer_spec],
        Raise (ValueError (NoRegisteredPlugin napari_get_writer_spec
                             name names))))
  ∧ (∃ names,
       single_with_hook p layer plugin_name
       = ([Log (WritingTo p (napari_write_spec (_type_string layer)));
           GetHookimpls (napari_write_spec (_type_string layer))],
          Raise (ValueError
                   (NoRegisteredPlugin (napari_write_spec (_type_string layer))
                      name names)))).
Proof.
  intros Hname Hreg.
  apply (bool_decide_eq_false_2 (name ∈ plugins plugin_manager)) in Hreg.
  unfold write_multiple_with_hook, write_single_with_hook.
  rewrite Hname, Hreg. simpl. split; by eexists.
Qed.

(** Only [get_hookimpls] is asked of the hooks, and nothing is warned. *)
Local Abbreviation quiet ev :=
  (is_warning ev = false
   ∧ (is_hook_event ev = true → ∃ h, ev = GetHookimpls h)).

Lemma quiet_no_hook t :
  Forall (λ ev, is_warning ev = false) t →
  Forall (λ ev, is_hook_event ev = false) t →
  Forall (λ ev, quiet ev) t.
Proof.
  rewrite !Forall_forall. intros Hw Hh ev Hin. split; [by apply Hw|].
  rewrite (Hh _ Hin). done.
Qed.

(** Saving with a plugin that is not registered.  When npe2 wrote nothing
    and the plugin to write with (asked for, or assigned to the extension)
    is not registered, [save_layers] on any layers raises a [ValueError]
    that names the plugin; no writer and no writing hook has been called,
    and no warning is given. *)
Theorem save_with_unregistered_plugin p layers plugin writer name :
  layers ≠ [] →
  value (write_npe2 p layers plugin writer) = Ok [] →
  truthy_str (forced_writer p plugin) = Some name →
  name ∉ plugins plugin_manager →
  (∃ spec names,
     value (save p layers plugin writer)
     = Raise (ValueError (NoRegisteredPlugin spec name names)))
  ∧ ∀ ev, ev ∈ trace (save p layers plugin writer) →
          is_warning ev = false
          ∧ (is_hook_event ev = true → ∃ h, ev = GetHookimpls h).
Proof.
  intros Hlayers Hnpe2 Hname Hreg.
  pose proof (write_layers_with_npe2_no_first_engine npe2 p layers
                plugin writer) as Hno.
  pose proof (Forall_impl _ _ _ Hno not_first_engine_not_hook) as Hnohook.
  pose proof (write_layers_with_npe2_no_warning npe2 p layers plugin writer)
    as Hnowarn.
  pose proof (quiet_no_hook _ Hnowarn Hnohook) as Hattempt.
  pose proof (quiet_no_hook _
                (writer_extension_lookup_no_warning splitext p plugin)
                (writer_extension_lookup_no_hook p plugin)) as Hlookup.
  rewrite <- Forall_forall.
  destruct layers as [|layer [|layer' layers]]; [done| |].
  - destruct (write_with_hook_unregistered p [layer] layer _ _ Hname Hreg)
      as [_ [names Hhook]].
    unfold save_layers.
    rewrite write_single_cases. cbv zeta. rewrite Hnpe2, Hhook. simpl. split.
    + by eexists _, _.
    + apply Forall_app_2; [done|].
      apply Forall_cons_2; [done|]. apply Forall_app_2; [done|].
      repeat constructor; try done. by eexists.
  - destruct (write_with_hook_unregistered p (layer :: layer' :: layers) layer
                _ _ Hname Hreg) as [[names Hhook] _].
    unfold save_layers.
    rewrite write_multiple_cases. cbv zeta. rewrite Hnpe2, Hhook. simpl. split.
    + by eexists _, _.
    + apply Forall_app_2; [done|].
      apply Forall_cons_2; [done|]. apply Forall_app_2; [done|].
      repeat constructor; try done. by eexists.
Qed.

(** A writer of npe2 for one layer, given several.  When the layer type
    constraints of the writer add up to one layer at most,
    [_write_layers_with_npe2] hands it the data and the meta of the first
    layer alone: the layers after the first change nothing, and with no
    layer at all the call ends in the [IndexError] of [layer_data[0]].
    Through [save_layers], several layers saved with such a writer that
    answers with a path give that one path, with no warning. *)
Theorem single_layer_writer_takes_first_layer
    n p layer layer' layers plugin w :
  npe2 = Some n →
  (foldr Z.add 0 (layer_type_constraints_max w) ≤ 1)%Z →
  write_npe2 p (layer :: layers) plugin (Some w)
  = write_npe2 p [layer] plugin (Some w)
  ∧ write_npe2 p [] plugin (Some w) = ([ImportNpe2], Raise IndexError)
  ∧ ∀ s, exec w (ArgsOne p (as_layer_data_tuple layer).1.1
                          (as_layer_data_tuple layer).1.2)
         = Returns (ExecStr s) →
         save p (layer :: layer' :: layers) plugin (Some w)
         = ([ImportNpe2;
             WriterExec (ArgsOne p (as_layer_data_tuple layer).1.1
                                   (as_layer_data_tuple layer).1.2)],
            Ok [s]).
Proof.
  intros -> Hn. apply Z.leb_le in Hn.
  unfold save_layers, _write_multiple_layers_with_plugins,
    _write_layers_with_npe2.
  rewrite Hn. simpl. destruct (as_layer_data_tuple layer) as [[d m] ty]. simpl.
  split_and!; try done. by intros s ->.
Qed.


(** ** Reading: the summary of the errors *)

Lemma reader_loop_no_summary fuel p st :
  error_summaries (trace (while_true fuel (loop_body p) st)) = [].
Proof.
  revert st. induction fuel as [|fuel IH]; intros st; [done|].
  rewrite while_true_S, trace_bind.
  pose proof (loop_body_cases plugin_manager p st) as Hbody.
  unfold error_summaries in *. rewrite omap_app.
  destruct (call_with_result_obj _ _ _) as [[|reader impl]|e].
  - by rewrite Hbody.
  - destruct (fun_truthy reader); [|by rewrite Hbody].
    destruct (apply_reader reader p) as [ld|exc]; rewrite Hbody; simpl.
    + destruct (truthy ld); [done|]. apply IH.
    + apply IH.
  - by rewrite Hbody.
Qed.

(** The summary of the errors.  Reading with no forced plugin logs a
    summary of the errors at most once, and only when the read succeeds
    after a reader call has failed: it then counts the failed reader calls
    and names their plugins.  A read that fails logs no summary, whatever
    the readers did. *)
Theorem errors_are_summed_up_on_success fuel p :
  let m := read_any fuel p in
  failed_reads (trace m)
  = failed_reads (trace (while_true fuel (loop_body p) reader_loop_init))
  ∧ error_summaries (trace m)
    = match value m, failed_reads (trace m) with
      | Ok _, _ :: _ =>
          [(length (failed_reads (trace m)),
            error_plugin_names (failed_reads (trace m)))]
      | _, _ => []
      end.
Proof.
  intros m.
  pose proof (read_with_any_plugin_value plugin_manager fuel p) as Hvalue.
  fold m in Hvalue.
  destruct (reader_loop_run plugin_manager fuel p reader_loop_init _ _
              (surjective_M _)) as (_ & _ & _ & Herrors & _).
  pose proof (reader_loop_no_summary fuel p reader_loop_init) as Hnone.
  assert (trace m
          = trace (while_true fuel (loop_body p) reader_loop_init)
            ++ match value (while_true fuel (loop_body p) reader_loop_init)
               with
               | Ok st =>
                   if truthy (last_layer_data st) then
                     if negb (length (errors st) =? 0) then
                       [Log (ErrorsOccurred (length (errors st))
                               (error_plugin_names (errors st)))]
                     else []
                   else []
               | _ => []
               end) as Htrace.
  { unfold m, read_with_any_plugin. rewrite trace_bind.
    destruct (value (while_true _ _ _)) as [st| |]; try done.
    destruct (truthy (last_layer_data st)); simpl.
    - rewrite trace_bind. destruct (negb _); simpl; by rewrite ?app_nil_r.
    - by destruct p as [s|[|first l]]. }
  assert (failed_reads (trace m)
          = failed_reads
              (trace (while_true fuel (loop_body p) reader_loop_init)))
    as Hfailed.
  { rewrite Htrace. unfold failed_reads. rewrite omap_app.
    destruct (value (while_true _ _ _)) as [st| |];
      rewrite ?app_nil_r; try done.
    destruct (truthy _); [|by rewrite app_nil_r].
    destruct (negb _); by rewrite app_nil_r. }
  split; [exact Hfailed|].
  rewrite Hfailed, Hvalue, Htrace. unfold error_summaries in *.
  rewrite omap_app, Hnone. simpl.
  destruct (value (while_true _ _ _)) as [st| |]; try done.
  destruct (Herrors st eq_refl) as [Herrs _]. simpl in Herrs.
  rewrite <- Herrs.
  destruct (truthy (last_layer_data st)); simpl.
  - by destruct (errors st).
  - by destruct p as [s|[|first l]].
Qed.

End io_more.

(** ** The theorems above, on the examples *)

Lemma read_data_names_implementation_witness :
  value (Examples.read 4 (PathStr "a.tif") None)
  = Ok (Examples.image, Some (HookImpl "good"))
  ∧ ∃ l impl layer_data,
      attempts (trace (Examples.reader_loop (PathStr "a.tif")))
      = l ++ [(impl, Returns layer_data)]
      ∧ truthy layer_data = true
      ∧ Some (HookImpl "good") = Some impl
      ∧ Examples.image
        = if _is_null_layer_sentinel layer_data then PyList []
          else layer_data.
Proof.
  assert (value (Examples.read 4 (PathStr "a.tif") None)
          = Ok (Examples.image, Some (HookImpl "good"))) as Hread
    by (by vm_compute).
  split; [exact Hread|].
  destruct (read_data_names_implementation Examples.plugin_manager
              (Some Examples.npe2) Examples.splitext id id 4
              (PathStr "a.tif") None _ _ Hread) as [_ H].
  apply H; by vm_compute.
Defined.

Lemma forced_plugin_is_the_only_one_asked_witness :
  length (attempts (trace (Examples.read 4 (PathStr "a.good") None))) ≤ 1
  ∧ ∀ h skip,
      CallWithResultObj h skip ∉ trace (Examples.read 4 (PathStr "a.good") None).
Proof.
  destruct (forced_plugin_is_the_only_one_asked Examples.plugin_manager
              (Some Examples.npe2) Examples.splitext id id 4
              (PathStr "a.good") None "good") as (Hnone & Hone & _).
  - by vm_compute.
  - by vm_compute.
  - split; [exact Hone|exact Hnone].
Defined.

Lemma writer_errors_are_wrapped_witness :
  value (Examples.write_multiple (PathStr "out") Examples.two_images)
  = Ok ["image"; "image"].
Proof.
  destruct (writer_errors_are_wrapped Examples.plugin_manager
              (Some Examples.npe2) Examples.splitext id id
              (PathStr "out") Examples.two_images None None
              (HookImpl "folder") (PathStr "out")
              (Returns ["image"; "image"])) as [_ H].
  - unfold Examples.write_multiple.
    vm_compute.
    repeat first [apply list_elem_of_here | apply list_elem_of_further].
  - exact H.
Defined.

Lemma save_one_layer_one_path_witness :
  value (MoreExamples.save (PathStr "out.csv") [Examples.some_points]
           None None) = Ok ["points.csv"]
  ∧ (["points.csv"] = []
     ∨ ∃ s, ["points.csv"] = [s] ∧ s ≠ ""
            ∧ value (Examples.write_single (PathStr "out.csv")
                       Examples.some_points) = Ok (Some s)).
Proof.
  assert (value (MoreExamples.save (PathStr "out.csv") [Examples.some_points]
                   None None) = Ok ["points.csv"]) as Hsave
    by (by vm_compute).
  split; [exact Hsave|].
  exact (save_one_layer_one_path Examples.plugin_manager (Some Examples.npe2)
           Examples.splitext id id (PathStr "out.csv") Examples.some_points
           None None _ Hsave).
Defined.

Lemma save_with_unregistered_plugin_witness :
  ∃ spec names,
    value (MoreExamples.save (PathStr "out.tif") Examples.two_images
             (Some "tiff") None)
    = Raise (ValueError (NoRegisteredPlugin spec "tiff" names)).
Proof.
  destruct (save_with_unregistered_plugin Examples.plugin_manager
              (Some Examples.npe2) Examples.splitext id id
              (PathStr "out.tif") Examples.two_images (Some "tiff") None
              "tiff") as [H _].
  - done.
  - by vm_compute.
  - by vm_compute.
  - intros Hin. apply (bool_decide_eq_true_2 _) in Hin.
    vm_compute in Hin. discriminate Hin.
  - exact H.
Defined.

Lemma single_layer_writer_takes_first_layer_witness :
  MoreExamples.save (PathStr "out.tif") Examples.two_images None
    (Some MoreExamples.single_image_writer)
  = ([ImportNpe2;
      WriterExec (ArgsOne (PathStr "out.tif") (PyObject 1)
                    (PyDict {[ "name" := PyStr "nuclei" ]}))],
     Ok ["out.tif"]).
Proof.
  destruct (single_layer_writer_takes_first_layer Examples.plugin_manager
              (Some Examples.npe2) Examples.splitext id id Examples.npe2
              (PathStr "out.tif") (Examples.a_layer "nuclei" "image")
              (Examples.a_layer "membrane" "image") [] None
              MoreExamples.single_image_writer eq_refl) as (_ & _ & H).
  - by vm_compute.
  - exact (H "out.tif" eq_refl).
Defined.

(** ** The points visual: highlight, text and blending *)

Section points_layer_visual.
Import VispyPointsLayer.
Context {scalar gl_state : Type}.
Context (zero one six_tenths highlight_thickness : scalar).
Context (transparent : list (list scalar)).
Context (BLENDING_MODES : gmap string gl_state).

Local Abbreviation Layer := (@Layer scalar).
Local Abbreviation call := (@call scalar gl_state).
Local Abbreviation on_highlight_change :=
  (@_on_highlight_change scalar zero one six_tenths highlight_thickness
     transparent gl_state).
Local Abbreviation update_text_of :=
  (@_update_text scalar zero gl_state).
Local Abbreviation on_blending_change :=
  (@_on_blending_change scalar gl_state BLENDING_MODES).
Local Abbreviation on_text_change :=
  (@_on_text_change scalar zero gl_state).
Local Abbreviation take := (@np_take scalar gl_state).

Lemma np_row_in_range n i :
  (in_range n i ∧ ∃ k, np_row n i = Some k ∧ k < n)
  ∨ (¬ in_range n i ∧ np_row n i = None).
Proof.
  unfold np_row, in_range.
  destruct (decide (0 ≤ i < Z.of_nat n)%Z) as [Hi|Hi].
  { rewrite (bool_decide_eq_true_2 _ Hi). left. split; [lia|].
    eexists. split; [done|]. lia. }
  rewrite (bool_decide_eq_false_2 _ Hi).
  destruct (decide (- Z.of_nat n ≤ i < 0)%Z) as [Hi'|Hi'].
  { rewrite (bool_decide_eq_true_2 _ Hi'). left. split; [lia|].
    eexists. split; [done|]. lia. }
  rewrite (bool_decide_eq_false_2 _ Hi'). right. split; [lia|done].
Qed.

Lemma np_take_spec {A} (a : list A) index :
  (Forall (in_range (length a)) index
   ∧ ∃ rows, take a index = ([], Returns rows)
             ∧ length rows = length index)
  ∨ (Exists (λ i, ¬ in_range (length a) i) index
     ∧ take a index = ([], Raises IndexError)).
Proof.
  unfold np_take.
  destruct (mapM _ index) as [rows|] eqn:Hrows.
  - left. pose proof (length_mapM _ _ _ Hrows) as Hlen.
    apply mapM_Some in Hrows. split; [|by exists rows].
    clear Hlen. induction Hrows as [|i row index rows Hi _ IH]; [done|].
    constructor; [|done].
    destruct (np_row_in_range (length a) i) as [[Hin _]|[_ Hnone]]; [done|].
    by rewrite Hnone in Hi.
  - right. split; [|done]. apply mapM_None in Hrows.
    eapply Exists_impl; [exact Hrows|]. intros i Hi. simpl in Hi.
    destruct (np_row_in_range (length a) i) as [[_ (k & Hk & Hlt)]|[Hout _]];
      [|done].
    rewrite Hk in Hi. simpl in Hi.
    apply lookup_lt_is_Some_2 in Hlt as [row Hrow]. by rewrite Hrow in Hi.
Qed.


Local Abbreviation view_data layer := (Vispy._view_data (points layer)).
Local Abbreviation view_size layer := (Vispy._view_size (points layer)).

Lemma on_highlight_change_cases (layer : Layer) :
  (Forall (in_range (length (view_data layer))) (_highlight_index layer)
   ∧ Forall (in_range (length (view_size layer))) (_highlight_index layer)
   ∧ ∃ pos size box color width,
       on_highlight_change layer
       = ([highlight_set_data pos size highlight_thickness
             (Vispy.symbol (points layer)) [zero; six_tenths; one]
             transparent true;
           box_set_data box color width;
           node_update], Returns tt)
       ∧ length pos = max 1 (length (_highlight_index layer))
       ∧ box ≠ []
       ∧ (_ndisplay layer ≠ 2 →
          color = None ∧ width = zero
          ∧ box = [replicate (_ndisplay layer) zero]))
  ∨ ((Exists (λ i, ¬ in_range (length (view_data layer)) i)
        (_highlight_index layer)
      ∨ Exists (λ i, ¬ in_range (length (view_size layer)) i)
          (_highlight_index layer))
     ∧ on_highlight_change layer = ([], Raises IndexError)).
Proof.
  unfold _on_highlight_change.
  destruct (_highlight_index layer) as [|i index] eqn:Hindex.
  { left. split; [done|]. split; [done|]. simpl.
    destruct (_ndisplay layer =? 2) eqn:Hnd;
      [apply Nat.eqb_eq in Hnd;
       destruct (_highlight_box layer) as [[|row b]|];
       [| simpl; destruct (length row =? 0) |] |];
      simpl; eexists _, _, _, _, _; (split; [reflexivity|]);
      repeat split; try done; try (by rewrite Nat.eqb_neq in Hnd). }
  change (0 <? length (i :: index)) with true. cbv iota.
  destruct (np_take_spec (view_data layer) (i :: index))
    as [[Hdata (rows & -> & Hrows)]|[Hdata ->]]; cycle 1.
  { right. split; [by left|done]. }
  destruct (np_take_spec (view_size layer) (i :: index))
    as [[Hsize (sizes & Hsizes & _)]|[Hsize Hsizes]]; cycle 1.
  { right. split; [by right|]. simpl. by rewrite Hsizes. }
  left. split; [done|]. split; [done|]. simpl. rewrite Hsizes. simpl.
  assert (length (Vispy.reverse_columns rows) = S (length index)) as Hpos.
  { unfold Vispy.reverse_columns. by rewrite length_fmap, Hrows. }
  destruct (_ndisplay layer =? 2) eqn:Hnd;
    [apply Nat.eqb_eq in Hnd;
     destruct (_highlight_box layer) as [[|row b]|];
     [| simpl; destruct (length row =? 0) |] |];
    simpl; eexists _, _, _, _, _; (split; [reflexivity|]);
    repeat split; try done; try (by rewrite Nat.eqb_neq in Hnd).
Qed.

Lemma np_take_rows {A} (a : list A) index rows :
  take a index = ([], Returns rows) →
  Forall2 (λ i row, ∃ k, np_row (length a) i = Some k ∧ a !! k = Some row)
          index rows.
Proof.
  unfold np_take. destruct (mapM _ index) as [rows'|] eqn:Hrows; [|done].
  intros [= <-]. apply mapM_Some in Hrows.
  eapply Forall2_impl; [exact Hrows|]. simpl. intros i row Hi.
  by apply bind_Some in Hi.
Qed.

(** Changing the highlight, with indices in range.  When every index of
    [_highlight_index] names a row of [_view_data] and of [_view_size]
    (none at all will do), [_on_highlight_change] sets the data of the
    highlight markers, then the data of the box, then updates the node,
    and returns.  The markers get, for each index in turn, the row of
    [_view_data] that it names, with its columns reversed, and the sizes
    that the indices name in [_view_size]; with no index they get the
    single zero point and the size [0].  In two dimensions the box gets
    [_highlight_box] with its columns reversed, in the highlight colour
    and thickness, or, when there is no box or a dimension of it is zero,
    the zero point with width [0]; otherwise it gets the zero point, the
    width [0] and no colour.  So no empty array reaches the visual. *)
Theorem highlight_change_draws_something (layer : Layer) :
  (∀ i, i ∈ _highlight_index layer →
        in_range (length (view_data layer)) i
        ∧ in_range (length (view_size layer)) i) →
  ∃ rows sizes,
    Forall2 (λ i row, ∃ k, np_row (length (view_data layer)) i = Some k
                           ∧ view_data layer !! k = Some row)
            (_highlight_index layer) rows
    ∧ Forall2 (λ i size, ∃ k, np_row (length (view_size layer)) i = Some k
                              ∧ view_size layer !! k = Some size)
              (_highlight_index layer) sizes
    ∧ on_highlight_change layer
      = ([ match _highlight_index layer with
           | [] =>
               highlight_set_data [replicate (_ndisplay layer) zero]
                 (SizeNumber zero)
           | _ => highlight_set_data (reverse <$> rows) (SizeArray sizes)
           end highlight_thickness (Vispy.symbol (points layer))
             [zero; six_tenths; one] transparent true;
           if _ndisplay layer =? 2 then
             match _highlight_box layer with
             | Some box =>
                 if zero_in_shape box then
                   box_set_data [replicate (_ndisplay layer) zero]
                     (Some [zero; six_tenths; one]) zero
                 else
                   box_set_data (reverse <$> box)
                     (Some [zero; six_tenths; one]) highlight_thickness
             | None =>
                 box_set_data [replicate (_ndisplay layer) zero]
                   (Some [zero; six_tenths; one]) zero
             end
           else box_set_data [replicate (_ndisplay layer) zero] None zero;
           node_update ], Returns tt)
    ∧ (_highlight_index layer ≠ [] → rows ≠ [])
    ∧ (∀ box, _highlight_box layer = Some box →
              zero_in_shape box = false → box ≠ []).
Proof.
  intros Hin.
  assert (∀ box : list (list scalar), zero_in_shape box = false → box ≠ [])
    as Hbox by (by intros [|row box]).
  unfold _on_highlight_change.
  destruct (_highlight_index layer) as [|i index] eqn:Hindex.
  { exists [], []. split_and!; try done; [|by intros box _; apply Hbox].
    simpl. unfold Vispy.reverse_columns, Vispy.np_zeros. simpl.
    rewrite reverse_replicate.
    destruct (_ndisplay layer =? 2); [|done].
    destruct (_highlight_box layer) as [box|]; simpl;
      [|by rewrite reverse_replicate].
    destruct (zero_in_shape box); [|done]. simpl.
    by rewrite reverse_replicate. }
  change (0 <? length (i :: index)) with true. cbv iota.
  destruct (np_take_spec (view_data layer) (i :: index))
    as [[_ (rows & Hrows & Hlen)]|[Hout _]]; cycle 1.
  { apply Exists_exists in Hout as (j & Hj & Hout). by destruct (Hin j Hj). }
  destruct (np_take_spec (view_size layer) (i :: index))
    as [[_ (sizes & Hsizes & _)]|[Hout _]]; cycle 1.
  { apply Exists_exists in Hout as (j & Hj & Hout). by destruct (Hin j Hj). }
  exists rows, sizes.
  split; [by apply np_take_rows|]. split; [by apply np_take_rows|].
  split_and!; [|by intros _ ->|by intros box _; apply Hbox].
  rewrite Hrows. simpl. rewrite Hsizes. simpl.
  unfold Vispy.reverse_columns, Vispy.np_zeros. simpl.
  destruct (_ndisplay layer =? 2); [|done].
  destruct (_highlight_box layer) as [box|]; simpl;
    [|by rewrite reverse_replicate].
  destruct (zero_in_shape box); [|done]. simpl.
  by rewrite reverse_replicate.
Qed.

(** A highlight index out of range.  [_on_highlight_change] ends in an
    [IndexError] exactly when an index of [_highlight_index] names no row
    of [_view_data] or of [_view_size]; the visual has then not been
    touched.  It ends in no other way than this one and the return. *)
Theorem highlight_index_out_of_range (layer : Layer) :
  ((∃ i, i ∈ _highlight_index layer
         ∧ ¬ (in_range (length (view_data layer)) i
              ∧ in_range (length (view_size layer)) i))
   ↔ on_highlight_change layer = ([], Raises IndexError))
  ∧ (outcome_of (on_highlight_change layer) = Returns tt
     ∨ on_highlight_change layer = ([], Raises IndexError)).
Proof.
  destruct (on_highlight_change_cases layer)
    as [(Hdata & Hsize & pos & size & box & color & width & Heq & _)
       |[Hout Heq]].
  - rewrite Heq. split; [|by left]. split; [|done].
    intros (i & Hi & Hout). destruct Hout.
    rewrite Forall_forall in Hdata, Hsize. by split; [apply Hdata|apply Hsize].
  - rewrite Heq. split; [|by right]. split; [done|]. intros _.
    destruct Hout as [(i & Hi & Hout)%Exists_exists
                     |(i & Hi & Hout)%Exists_exists];
      exists i; (split; [done|]); tauto.
Qed.


(** Updating the text.  [_update_text] makes one call of [update_text],
    then updates the node if it is asked to, and returns.  The coordinates
    it hands over are never empty.  With no point in view, or with the
    text hidden, it hands over no text, the zero point, and the anchor at
    the centre; otherwise the text and the anchor of the layer, with the
    coordinates of the layer if there are any. *)
Theorem update_text_coords_never_empty (layer : Layer) update_node :
  ∃ text_values coords anchor,
    update_text_of layer update_node
    = (update_text text_values coords anchor (rotation (_text layer))
         (color (_text layer)) (text_size (_text layer)) (_ndisplay layer)
       :: (if update_node then [node_update] else []),
       Returns tt)
    ∧ coords ≠ []
    ∧ (if (length (_indices_view layer) =? 0) || negb (visible (text layer))
       then text_values = [] ∧ anchor = ("center", "center")%string
            ∧ coords = [replicate (_ndisplay layer) zero]
       else text_values = _view_text layer
            ∧ anchor = ((_view_text_coords layer).1.2,
                        (_view_text_coords layer).2)
            ∧ ((_view_text_coords layer).1.1 ≠ [] →
               coords = (_view_text_coords layer).1.1)).
Proof.
  unfold _update_text.
  destruct ((length (_indices_view layer) =? 0) || negb (visible (text layer))).
  { eexists _, _, _. split; [by destruct update_node|]. done. }
  destruct (_view_text_coords layer) as [[[|row coords] anchor_x] anchor_y];
    simpl; eexists _, _, _; (split; [by destruct update_node|]); done.
Qed.

Lemma update_text_one_call (layer : Layer) :
  ∃ text_call, update_text_of layer false = ([text_call], Returns tt).
Proof.
  unfold _update_text.
  destruct (_ || _); [|destruct (_view_text_coords layer) as [[? ?] ?]];
    by eexists.
Qed.

Lemma update_text_no_gl_state (layer : Layer) update_node (c : call) :
  c ∈ calls (update_text_of layer update_node) →
  (∀ kwargs, c ≠ node_set_gl_state kwargs)
  ∧ (∀ kwargs, c ≠ text_node_set_gl_state kwargs).
Proof.
  unfold _update_text, calls.
  destruct (_ || _); [|destruct (_view_text_coords layer) as [[? ?] ?]];
    destruct update_node; simpl;
    intros Hin;
    repeat (apply elem_of_cons in Hin as [->|Hin]; [done|]);
    by apply elem_of_nil in Hin.
Qed.


(** A change of the text.  [_on_text_change] never sets the GL state of
    a node.  For an event of type ['blending'] it ends in the [TypeError]
    of the call of [_on_blending_change], which takes no event, and the
    visual is not touched; for every other event, and for none, it does
    what [_update_text] does, and updates the node. *)
Theorem text_change_never_sets_gl_state (layer : Layer) event :
  (∀ c, c ∈ calls (on_text_change layer event) →
        (∀ kwargs, c ≠ node_set_gl_state kwargs)
        ∧ (∀ kwargs, c ≠ text_node_set_gl_state kwargs))
  ∧ on_text_change layer event
    = if bool_decide (event = Some "blending"%string)
      then ([], Raises TypeError)
      else update_text_of layer true.
Proof.
  unfold _on_text_change.
  destruct event as [type|]; cycle 1.
  { split; [|done]. intros c. apply update_text_no_gl_state. }
  destruct (String.eqb type "blending") eqn:Htype.
  - apply String.eqb_eq in Htype as ->. split; [|done].
    intros c Hin. by apply elem_of_nil in Hin.
  - apply String.eqb_neq in Htype.
    rewrite bool_decide_eq_false_2 by congruence.
    split; [|done]. intros c. apply update_text_no_gl_state.
Qed.

Lemma on_blending_change_cases (layer : Layer) :
  on_blending_change layer
  = match BLENDING_MODES !! blending layer with
    | None => ([], Raises (KeyError (blending layer)))
    | Some kwargs =>
        match BLENDING_MODES !! text_blending (text layer) with
        | None => ([node_set_gl_state kwargs],
                   Raises (KeyError (text_blending (text layer))))
        | Some text_kwargs =>
            ([node_set_gl_state kwargs; text_node_set_gl_state text_kwargs;
              node_update], Returns tt)
        end
    end.
Proof.
  unfold _on_blending_change, blending_mode.
  destruct (BLENDING_MODES !! blending layer); [|done]. simpl.
  by destruct (BLENDING_MODES !! text_blending (text layer)).
Qed.

Section reset.
Context (super_reset _on_matrix_change : list call * outcome unit).

Local Abbreviation reset_of :=
  (@reset scalar zero one six_tenths highlight_thickness transparent
     gl_state BLENDING_MODES super_reset _on_matrix_change).

(** Resetting the visual.  [reset] returns exactly when [super().reset()]
    returns, the blending modes of the layer and of its text are both
    known to [BLENDING_MODES], every highlight index is in range and
    [_on_matrix_change] returns.  What it does to the node is, in this
    order: what [super().reset()] does; if that returned, the update of
    the text, without an update of the node; the GL state of the node
    and, if the blending mode of the text is known too, of the text node,
    and an update of the node; the data of the highlight and of the box
    and a second update of the node; and last what [_on_matrix_change]
    does.  It stops where the first of these raises, with the exception
    raised there: that of [super().reset()], the [KeyError] of the
    blending mode of the layer or of the text, the [IndexError] of a
    highlight index, or that of [_on_matrix_change]. *)
Theorem reset_completes_iff (layer : Layer) :
  let m := reset_of layer in
  (outcome_of m = Returns tt
   ↔ outcome_of super_reset = Returns tt
     ∧ is_Some (BLENDING_MODES !! blending layer)
     ∧ is_Some (BLENDING_MODES !! text_blending (text layer))
     ∧ (∀ i, i ∈ _highlight_index layer →
             in_range (length (view_data layer)) i
             ∧ in_range (length (view_size layer)) i)
     ∧ outcome_of _on_matrix_change = Returns tt)
  ∧ (∀ e, outcome_of super_reset = Raises e →
          m = (calls super_reset, Raises e))
  ∧ (outcome_of super_reset = Returns tt →
     ∃ text_call,
       calls (update_text_of layer false) = [text_call]
       ∧ match BLENDING_MODES !! blending layer,
               BLENDING_MODES !! text_blending (text layer) with
         | None, _ =>
             m = (calls super_reset ++ [text_call],
                  Raises (KeyError (blending layer)))
         | Some kwargs, None =>
             m = (calls super_reset
                  ++ [text_call; node_set_gl_state kwargs],
                  Raises (KeyError (text_blending (text layer))))
         | Some kwargs, Some text_kwargs =>
             ((∀ i, i ∈ _highlight_index layer →
                    in_range (length (view_data layer)) i
                    ∧ in_range (length (view_size layer)) i) →
              ∃ highlight box,
                on_highlight_change layer
                = ([highlight; box; node_update], Returns tt)
                ∧ m = (calls super_reset
                       ++ [text_call; node_set_gl_state kwargs;
                           text_node_set_gl_state text_kwargs; node_update;
                           highlight; box; node_update]
                       ++ calls _on_matrix_change,
                       outcome_of _on_matrix_change))
             ∧ (¬ (∀ i, i ∈ _highlight_index layer →
                        in_range (length (view_data layer)) i
                        ∧ in_range (length (view_size layer)) i) →
                m = (calls super_reset
                     ++ [text_call; node_set_gl_state kwargs;
                         text_node_set_gl_state text_kwargs; node_update],
                     Raises IndexError))
         end).
Proof.
  intros m. unfold m, reset, calls, outcome_of.
  destruct super_reset as [before [[]|e]]; cycle 1.
  { simpl. split; [|split]; [|by intros ? [= <-]|done].
    split; [done|]. by intros [? _]. }
  destruct (update_text_one_call layer) as (text_call & Hupdate).
  rewrite Hupdate, on_blending_change_cases.
  assert ((∀ i, i ∈ _highlight_index layer →
                in_range (length (view_data layer)) i
                ∧ in_range (length (view_size layer)) i)
          ↔ ∃ highlight box,
              on_highlight_change layer
              = ([highlight; box; node_update], Returns tt)) as Hrange.
  { destruct (on_highlight_change_cases layer)
      as [(Hdata & Hsize & pos & size & box & color & width & Heq & _)
         |[Hout Heq]].
    - split; [by eauto|]. intros _ i Hi.
      rewrite Forall_forall in Hdata, Hsize.
      by split; [apply Hdata|apply Hsize].
    - split; [|by intros (? & ? & Heq'); rewrite Heq in Heq'].
      intros Hin.
      destruct Hout as [(i & Hi & Hout)%Exists_exists
                       |(i & Hi & Hout)%Exists_exists];
        destruct (Hin i Hi); done. }
  assert (¬ (∀ i, i ∈ _highlight_index layer →
                  in_range (length (view_data layer)) i
                  ∧ in_range (length (view_size layer)) i)
          → on_highlight_change layer = ([], Raises IndexError)) as Hout.
  { intros Hnot.
    destruct (on_highlight_change_cases layer)
      as [(Hdata & Hsize & _)|[_ Heq]]; [|done].
    destruct Hnot. intros i Hi. rewrite Forall_forall in Hdata, Hsize.
    by split; [apply Hdata|apply Hsize]. }
  destruct (BLENDING_MODES !! blending layer) as [kwargs|] eqn:Hb; cycle 1.
  { simpl. split; [|split]; [|done|by intros _; exists text_call].
    split; [done|]. by intros (_ & [? [=]] & _). }
  destruct (BLENDING_MODES !! text_blending (text layer))
    as [text_kwargs|] eqn:Ht; cycle 1.
  { simpl. split; [|split]; [|done|by intros _; exists text_call].
    split; [done|]. by intros (_ & _ & [? [=]] & _). }
  split; [|split]; [|done|].
  - split.
    + intros Hm. split; [done|]. split; [done|]. split; [done|].
      destruct (on_highlight_change layer) as [t [[]|e]] eqn:Hh;
        simpl in Hm; [|done].
      destruct (on_highlight_change_cases layer)
        as [(Hdata & Hsize & _)|[_ Heq]]; [|by rewrite Heq in Hh].
      split; [|by destruct _on_matrix_change as [? [[]|?]]].
      intros i Hi. rewrite Forall_forall in Hdata, Hsize.
      by split; [apply Hdata|apply Hsize].
    + intros (_ & _ & _ & Hin & Hmatrix).
      apply Hrange in Hin as (highlight & box & ->). simpl.
      by destruct _on_matrix_change as [? [[]|?]].
  - intros _. exists text_call. split; [done|]. split.
    + intros Hin. apply Hrange in Hin as (highlight & box & Heq).
      exists highlight, box. split; [done|]. by rewrite Heq.
    + intros Hnot. by rewrite (Hout Hnot).
Qed.

End reset.

End points_layer_visual.

Lemma highlight_change_draws_something_witness :
  HighlightExample.on_highlight_change HighlightExample.highlighted
  = ([VispyPointsLayer.highlight_set_data [[4; 8]; [3; 1]]%Z
        (VispyPointsLayer.SizeArray [1; 1]%Z) 10%Z "o" [0; 6; 10]%Z
        [[0; 0; 0; 0]]%Z true;
      VispyPointsLayer.box_set_data [[0; 0]]%Z (Some [0; 6; 10]%Z) 0%Z;
      VispyPointsLayer.node_update], Returns tt).
Proof.
  destruct (@highlight_change_draws_something Z unit 0%Z 10%Z 6%Z 10%Z
              [[0; 0; 0; 0]]%Z HighlightExample.highlighted)
    as (rows & sizes & Hrows & Hsizes & Heq & _).
  - intros i Hi. unfold VispyPointsLayer.in_range. simpl in *.
    repeat (apply elem_of_cons in Hi as [->|Hi]; [lia|]).
    by apply elem_of_nil in Hi.
  - unfold HighlightExample.on_highlight_change. rewrite Heq. simpl in *.
    apply Forall2_cons_inv_l in Hrows as (row1 & rows' & (k1 & Hk1 & Hrow1) & Hrows & ->).
    apply Forall2_cons_inv_l in Hrows as (row2 & rows'' & (k2 & Hk2 & Hrow2) & Hrows & ->).
    apply Forall2_nil_inv_l in Hrows as ->.
    apply Forall2_cons_inv_l in Hsizes as (s1 & sizes' & (j1 & Hj1 & Hs1) & Hsizes & ->).
    apply Forall2_cons_inv_l in Hsizes as (s2 & sizes'' & (j2 & Hj2 & Hs2) & Hsizes & ->).
    apply Forall2_nil_inv_l in Hsizes as ->.
    vm_compute in Hk1, Hk2, Hj1, Hj2.
    injection Hk1 as <-. injection Hk2 as <-.
    injection Hj1 as <-. injection Hj2 as <-.
    vm_compute in Hrow1, Hrow2, Hs1, Hs2.
    injection Hrow1 as <-. injection Hrow2 as <-.
    injection Hs1 as <-. injection Hs2 as <-. reflexivity.
Defined.

(** ** Menus: what [populate_menu] keeps, and [NapariMenu] *)

Section napari_menus.
Import Menus NapariMenus.

Lemma MenuItem_nested_ind (P : MenuItem → Prop) :
  (∀ ks, P (Dict ks None)) →
  (∀ ks l, Forall P l → P (Dict ks (Some l))) →
  ∀ ax, P ax.
Proof.
  intros Hflat Hnested. fix IH 1. intros [ks [l|]]; [|apply Hflat].
  apply Hnested. induction l as [|ax l IHl]; constructor; [apply IH|exact IHl].
Qed.

(** A property of the store of menus that each step of [populate_menu]
    keeps is kept by [populate_menu]. *)
Lemma populate_menu_preserves (P : Qt → Prop) :
  (∀ menu qt, P qt → P (addSeparator menu qt)) →
  (∀ menu sub qt, P qt → P (setParent sub menu (addMenu menu sub qt))) →
  (∀ menu t qt, P qt → P (addMenu_titled menu t qt).2) →
  (∀ menu ax t qt,
     P qt → item_truthy ax = true → keys ax !! "text" = Some t →
     P (update_menu (append_entry (Action (configure_action ax t))) menu qt)) →
  ∀ actions menu qt, P qt → P (populate_menu menu actions qt).1.
Proof.
  intros Hsep Hmenu Htitled Haction.
  assert (∀ l, Forall (λ ax, ∀ menu qt, P qt → P (populate_item menu ax qt).1) l →
               ∀ menu qt, P qt → P (populate_menu menu l qt).1) as Hlist.
  { induction 1 as [|ax l Hax _ IH]; intros menu qt HP; [done|]. simpl.
    specialize (Hax menu qt HP).
    destruct (populate_item menu ax qt) as [qt' []]; [by apply IH|done]. }
  assert (∀ ax menu qt, P qt → P (populate_item menu ax qt).1) as Hitem.
  { induction ax as [ks|ks l IH] using MenuItem_nested_ind; intros menu qt HP;
      rewrite populate_item_eq.
    - destruct (negb (item_truthy _)) eqn:Hax; [by apply Hsep|].
      destruct (negb (truthy _)); [done|].
      destruct (keys _ !! "menu") as [sub|].
      + cbv zeta. destruct sub; apply Hlist; try (by constructor);
          first [by apply Htitled | by apply Hmenu].
      + destruct (keys _ !! "text") as [t|] eqn:Ht; [|done].
        apply Haction; [done| |done]. by apply negb_false_iff in Hax.
    - destruct (negb (item_truthy _)) eqn:Hax; [by apply Hsep|].
      destruct (negb (truthy _)); [done|].
      destruct (keys _ !! "menu") as [sub|].
      + cbv zeta. destruct sub; apply Hlist; try exact IH;
          first [by apply Htitled | by apply Hmenu].
      + destruct (keys _ !! "text") as [t|] eqn:Ht; [|done].
        apply Haction; [done| |done]. by apply negb_false_iff in Hax. }
  intros actions. apply Hlist, Forall_forall. intros ax _. apply Hitem.
Qed.

Lemma grows_refl qt : grows qt qt.
Proof. split; [done|]. intros ref m Hm. by exists m. Qed.

Lemma grows_trans qt1 qt2 qt3 : grows qt1 qt2 → grows qt2 qt3 → grows qt1 qt3.
Proof.
  intros [Hn12 H12] [Hn23 H23]. split; [lia|]. intros ref m Hm.
  destruct (H12 ref m Hm) as (m2 & Hm2 & Ht2 & He2).
  destruct (H23 ref m2 Hm2) as (m3 & Hm3 & Ht3 & He3).
  exists m3. split; [done|]. split; [congruence|]. by etrans.
Qed.

Lemma grows_update_menu f ref qt :
  (∀ m, title (f m) = title m ∧ entries m `prefix_of` entries (f m)) →
  grows qt (update_menu f ref qt).
Proof.
  intros Hf. split; [done|]. intros ref' m Hm. simpl.
  destruct (decide (ref' = ref)) as [->|Hne].
  - exists (f m). rewrite lookup_alter_eq, Hm. split; [done|]. apply Hf.
  - exists m. by rewrite lookup_alter_ne.
Qed.

Lemma well_formed_update_menu f ref qt :
  well_formed qt → well_formed (update_menu f ref qt).
Proof.
  intros Hwf ref' Hsome. simpl in *. apply Hwf.
  destruct (decide (ref' = ref)) as [->|Hne].
  - rewrite lookup_alter_eq in Hsome. by apply fmap_is_Some in Hsome.
  - by rewrite lookup_alter_ne in Hsome.
Qed.

Lemma grows_append e ref qt : grows qt (update_menu (append_entry e) ref qt).
Proof.
  apply grows_update_menu. intros m. split; [done|]. by apply prefix_app_r.
Qed.

Lemma grows_setParent sub menu qt : grows qt (setParent sub menu qt).
Proof. apply grows_update_menu. by intros m. Qed.

Lemma addMenu_titled_grows menu t qt :
  well_formed qt →
  well_formed (addMenu_titled menu t qt).2
  ∧ grows qt (addMenu_titled menu t qt).2.
Proof.
  intros Hwf. unfold addMenu_titled, addMenu. simpl.
  set (qt' := {| menus := _; next_ref := _ |}).
  assert (well_formed qt') as Hwf'.
  { intros ref Hsome. simpl in *.
    destruct (decide (ref = next_ref qt)) as [->|Hne]; [lia|].
    rewrite lookup_insert_ne in Hsome by done. apply Hwf in Hsome. lia. }
  assert (grows qt qt') as Hgrows.
  { split; [simpl; lia|]. intros ref m Hm. exists m. simpl.
    rewrite lookup_insert_ne; [done|]. intros <-.
    assert (next_ref qt < next_ref qt) by (by apply Hwf; exists m). lia. }
  split; [by apply well_formed_update_menu|].
  eapply grows_trans; [exact Hgrows|apply grows_append].
Qed.

(** As [populate_menu_preserves], for entries that hand over no [QMenu]:
    the step that adds a [QMenu] already made is not taken. *)
Lemma populate_menu_preserves_titled (P : Qt → Prop) :
  (∀ menu qt, P qt → P (addSeparator menu qt)) →
  (∀ menu t qt, P qt → P (addMenu_titled menu t qt).2) →
  (∀ menu ax t qt,
     P qt → item_truthy ax = true → keys ax !! "text" = Some t →
     P (update_menu (append_entry (Action (configure_action ax t))) menu qt)) →
  ∀ actions menu qt,
    forallb makes_its_menus actions = true →
    P qt → P (populate_menu menu actions qt).1.
Proof.
  intros Hsep Htitled Haction.
  assert (∀ l, Forall (λ ax, makes_its_menus ax = true →
                             ∀ menu qt, P qt → P (populate_item menu ax qt).1) l →
               forallb makes_its_menus l = true →
               ∀ menu qt, P qt → P (populate_menu menu l qt).1) as Hlist.
  { induction 1 as [|ax l Hax _ IH]; intros Hl menu qt HP; [done|]. simpl.
    simpl in Hl. apply andb_true_iff in Hl as [Hmakes Hl].
    specialize (Hax Hmakes menu qt HP).
    destruct (populate_item menu ax qt) as [qt' []]; [by apply IH|done]. }
  assert (∀ ax, makes_its_menus ax = true →
                ∀ menu qt, P qt → P (populate_item menu ax qt).1) as Hitem.
  { induction ax as [ks|ks l IH] using MenuItem_nested_ind;
      intros Hmakes menu qt HP; rewrite populate_item_eq;
      simpl in Hmakes; apply andb_true_iff in Hmakes as [Hmenu Hl].
    - destruct (negb (item_truthy _)) eqn:Hax; [by apply Hsep|].
      destruct (negb (truthy _)); [done|]. cbn [keys].
      destruct (ks !! "menu") as [sub|].
      + cbv zeta. destruct sub; try done;
          apply Hlist; try (by constructor); by apply Htitled.
      + destruct (ks !! "text") as [t|] eqn:Ht; [|done].
        apply Haction; [done| |done]. by apply negb_false_iff in Hax.
    - destruct (negb (item_truthy _)) eqn:Hax; [by apply Hsep|].
      destruct (negb (truthy _)); [done|]. cbn [keys].
      destruct (ks !! "menu") as [sub|].
      + cbv zeta. destruct sub; try done;
          apply Hlist; try exact IH; try exact Hl; by apply Htitled.
      + destruct (ks !! "text") as [t|] eqn:Ht; [|done].
        apply Haction; [done| |done]. by apply negb_false_iff in Hax. }
  intros actions menu qt Hactions. apply Hlist; [|done].
  apply Forall_forall. intros ax _. apply Hitem.
Qed.

(** [populate_menu] only appends, when it makes its submenus itself.  On
    a store of menus in which a new menu gets a fresh reference, for
    entries of which none, at any depth, has a [QMenu] under ['menu'] (a
    submenu is then named by its title and made by [menu.addMenu(title)]),
    and however [populate_menu] ends, every menu that was there is still
    there under its title, and shows what it showed before, in the same
    order, ahead of what has been added; no entry is removed or moved.
    (An entry that hands over a [QMenu] which the menu shows already is
    another matter: Qt takes the menu out of its place before it adds it
    at the end.) *)
Theorem populate_menu_only_appends menu actions qt :
  well_formed qt →
  forallb makes_its_menus actions = true →
  well_formed (populate_menu menu actions qt).1
  ∧ grows qt (populate_menu menu actions qt).1.
Proof.
  intros Hwf Hactions.
  apply (populate_menu_preserves_titled
           (λ qt', well_formed qt' ∧ grows qt qt')); [| | |done|].
  - intros menu' qt' [Hwf' Hg]. split; [by apply well_formed_update_menu|].
    eapply grows_trans; [exact Hg|apply grows_append].
  - intros menu' t qt' [Hwf' Hg].
    destruct (addMenu_titled_grows menu' t qt' Hwf') as [Hwf'' Hg'].
    split; [done|]. by eapply grows_trans.
  - intros menu' ax t qt' [Hwf' Hg] _ _.
    split; [by apply well_formed_update_menu|].
    eapply grows_trans; [exact Hg|apply grows_append].
  - split; [done|apply grows_refl].
Qed.


Section update.
Context (call_object : nat → value → outcome pyval).

Local Abbreviation update_from := (NapariMenus.update_from call_object).
Local Abbreviation update := (NapariMenus.update call_object).
Local Abbreviation enabled := (NapariMenus.enabled call_object).

Lemma actions_have_data_update_menu f ref qt :
  actions_have_data qt →
  (∀ m a, Action a ∈ entries (f m) →
          Action a ∈ entries m
          ∨ ∃ ax, action_data a = Some ax ∧ item_truthy ax = true) →
  actions_have_data (update_menu f ref qt).
Proof.
  intros Hqt Hf ref' m a Hm Hin. simpl in Hm.
  destruct (decide (ref' = ref)) as [->|Hne].
  - rewrite lookup_alter_eq in Hm.
    destruct (menus qt !! ref) as [m0|] eqn:Hm0; [|done].
    injection Hm as <-. destruct (Hf m0 a Hin) as [Hold|Hnew]; [|done].
    by apply (Hqt ref m0).
  - rewrite lookup_alter_ne in Hm by done. by apply (Hqt ref' m).
Qed.

Lemma actions_have_data_append e ref qt :
  actions_have_data qt →
  (∀ a, e = Action a → ∃ ax, action_data a = Some ax ∧ item_truthy ax = true) →
  actions_have_data (update_menu (append_entry e) ref qt).
Proof.
  intros Hqt He. apply actions_have_data_update_menu; [done|].
  intros m a [Hin|Hin%list_elem_of_singleton]%elem_of_app; [by left|].
  right. by apply He.
Qed.

Lemma populate_menu_actions_have_data menu actions qt :
  actions_have_data qt →
  actions_have_data (populate_menu menu actions qt).1.
Proof.
  apply (populate_menu_preserves actions_have_data).
  - intros menu' qt' Hqt. by apply actions_have_data_append.
  - intros menu' sub qt' Hqt.
    apply actions_have_data_update_menu; [|by left].
    by apply actions_have_data_append.
  - intros menu' t qt' Hqt. apply actions_have_data_append; [|done].
    intros ref m a Hm Hin. simpl in Hm.
    destruct (decide (ref = next_ref qt')) as [->|Hne].
    + rewrite lookup_insert_eq in Hm. injection Hm as <-.
      by apply elem_of_nil in Hin.
    + rewrite lookup_insert_ne in Hm by done. by apply (Hqt ref m).
  - intros menu' ax t qt' Hqt Hax _. apply actions_have_data_append; [done|].
    intros a [= <-]. by exists ax.
Qed.

Lemma update_from_returns index es event t :
  Forall (λ e, ∀ a, e = Action a →
                    ∃ ax, action_data a = Some ax ∧ item_truthy ax = true) es →
  update_from index es event = (t, Returns tt) →
  (∀ i a, es !! i = Some (Action a) →
          ∃ ax b, action_data a = Some ax ∧ enabled ax event = Returns b
                  ∧ (index + i, b) ∈ t)
  ∧ (∀ j b, (j, b) ∈ t →
            ∃ i a, j = index + i ∧ es !! i = Some (Action a))
  ∧ (∀ j k c1 c2, t !! j = Some c1 → t !! k = Some c2 → j < k → c1.1 < c2.1).
Proof.
  intros Hes. revert index t.
  induction Hes as [|e es He _ IH]; intros index t.
  { intros [= <-]. split_and!; [done| |done].
    intros j b Hin. by apply elem_of_nil in Hin. }
  simpl. destruct e as [|a|sub].
  - intros Hrest. destruct (IH _ _ Hrest) as (Hall & Honly & Hsorted).
    split_and!; [| |done].
    + intros [|i] a Ha; [done|]. simpl in Ha.
      destruct (Hall i a Ha) as (ax & b & ? & ? & Hin).
      exists ax, b. by replace (index + S i) with (S index + i) by lia.
    + intros j b Hin. destruct (Honly j b Hin) as (i & a & -> & Ha).
      exists (S i), a. split; [lia|done].
  - destruct (He a eq_refl) as (ax & Hdata & Hax). rewrite Hdata, Hax.
    destruct (enabled ax event) as [b|exc] eqn:Hb; [|done].
    destruct (update_from (S index) es event) as [t' r] eqn:Hrest.
    simpl. intros [= <- ->].
    destruct (IH _ _ Hrest) as (Hall & Honly & Hsorted). split_and!.
    + intros [|i] a' Ha'.
      * injection Ha' as <-. exists ax, b. rewrite Nat.add_0_r.
        split; [done|]. split; [done|]. by left.
      * simpl in Ha'. destruct (Hall i a' Ha') as (ax' & b' & ? & ? & Hin).
        exists ax', b'. replace (index + S i) with (S index + i) by lia.
        split; [done|]. split; [done|]. by right.
    + intros j b' [[= -> ->]|Hin]%elem_of_cons.
      * exists 0, a. split; [lia|done].
      * destruct (Honly j b' Hin) as (i & a' & -> & Ha').
        exists (S i), a'. split; [lia|done].
    + intros [|j] [|k] c1 c2 H1 H2 Hlt; try lia; simpl in H1, H2.
      * injection H1 as <-. destruct c2 as [j' b'].
        apply list_elem_of_lookup_2 in H2.
        destruct (Honly j' b' H2) as (i & a' & -> & _). simpl. lia.
      * apply (Hsorted j k); [done|done|lia].
  - intros Hrest. destruct (IH _ _ Hrest) as (Hall & Honly & Hsorted).
    split_and!; [| |done].
    + intros [|i] a Ha; [done|]. simpl in Ha.
      destruct (Hall i a Ha) as (ax & b & ? & ? & Hin).
      exists ax, b. by replace (index + S i) with (S index + i) by lia.
    + intros j b Hin. destruct (Honly j b Hin) as (i & a & -> & Ha).
      exists (S i), a. split; [lia|done].
Qed.

(** [update] after [populate_menu].  In menus whose actions all have
    truthy data - as those of menus that have no action yet - and that
    [populate_menu] has then filled, an [update] that returns has called
    [setEnabled] on every action the menu shows, once each and in the
    order of the menu, and on nothing else: separators and submenus are
    passed over.  What it sets is the truth value of what the function
    under the key ['enabled'] of the action's data returns for the event;
    an action whose data has no such key is enabled. *)
Theorem update_reaches_every_action menu actions qt ref m event t :
  actions_have_data qt →
  menus (populate_menu menu actions qt).1 !! ref = Some m →
  update ref event (populate_menu menu actions qt).1 = (t, Returns tt) →
  (∀ i a, entries m !! i = Some (Action a) →
          ∃ ax b, action_data a = Some ax ∧ enabled ax event = Returns b
                  ∧ (i, b) ∈ t
                  ∧ (keys ax !! "enabled" = None → b = true))
  ∧ (∀ i b, (i, b) ∈ t → ∃ a, entries m !! i = Some (Action a))
  ∧ (∀ j k c1 c2, t !! j = Some c1 → t !! k = Some c2 → j < k → c1.1 < c2.1).
Proof.
  intros Hqt Hm. unfold NapariMenus.update. rewrite Hm. intros Hupdate.
  pose proof (populate_menu_actions_have_data menu actions qt Hqt) as Hdata.
  destruct (update_from_returns 0 (entries m) event t) as (Hall & Honly & Hs);
    [|done|].
  { apply Forall_forall. intros e Hin a ->. by apply (Hdata ref m). }
  split_and!; [| |done].
  - intros i a Ha. destruct (Hall i a Ha) as (ax & b & Hax & Hb & Hin).
    exists ax, b. split_and!; try done.
    intros Hnone. unfold NapariMenus.enabled in Hb. rewrite Hnone in Hb.
    by injection Hb as <-.
  - intros i b Hin. destruct (Honly i b Hin) as (i' & a & -> & Ha).
    by exists a.
Qed.

Lemma update_from_no_data index es event :
  update_from index (clear_data <$> es) event = ([], Returns tt).
Proof.
  revert index. induction es as [|[|a|sub] es IH]; intros index; simpl; auto.
Qed.

Lemma list_remove_NoDup x l :
  NoDup l → x ∈ l →
  (x ∉ list_remove x l)
  ∧ (∀ y, y ≠ x → y ∈ list_remove x l ↔ y ∈ l).
Proof.
  induction 1 as [|y l Hy Hl IH]; [by intros ?%elem_of_nil|].
  simpl. intros Hin. destruct (decide (y = x)) as [->|Hne].
  - rewrite bool_decide_eq_true_2 by done. split; [done|].
    intros z Hz. rewrite elem_of_cons. split; [by right|].
    by intros [->|?].
  - rewrite bool_decide_eq_false_2 by done.
    apply elem_of_cons in Hin as [->|Hin]; [done|].
    destruct (IH Hin) as [Hout Hsame]. split.
    + intros [->|?]%elem_of_cons; done.
    + intros z Hz. rewrite !elem_of_cons, (Hsame z Hz). done.
Qed.

Lemma list_remove_last x l : x ∉ l → list_remove x (l ++ [x]) = l.
Proof.
  induction l as [|y l IH]; simpl; intros Hx.
  - by rewrite bool_decide_eq_true_2.
  - apply not_elem_of_cons in Hx as [Hne Hx].
    rewrite bool_decide_eq_false_2 by done. by rewrite IH.
Qed.

(** A destroyed menu.  After [_destroy], whatever the menu shows, an
    [update] calls [setEnabled] on nothing, and returns.  When no menu is
    twice in [_INSTANCES], the menu is no longer in it and the others are
    as before; and a menu that is made and then destroyed leaves
    [_INSTANCES] as it was. *)
Theorem destroyed_menu_is_inert self st event :
  update self event (qt (_destroy self st)) = ([], Returns tt)
  ∧ (NoDup (_INSTANCES st) →
     (self ∉ _INSTANCES (_destroy self st))
     ∧ ∀ other, other ≠ self →
                other ∈ _INSTANCES (_destroy self st)
                ↔ other ∈ _INSTANCES st)
  ∧ (∀ t parent,
       next_ref (qt st) ∉ _INSTANCES st →
       _INSTANCES (_destroy (__init__ t parent st).1 (__init__ t parent st).2)
       = _INSTANCES st).
Proof.
  split_and!.
  - unfold NapariMenus.update, _destroy. simpl.
    rewrite lookup_alter_eq.
    destruct (menus (qt st) !! self) as [m|]; [|done]. simpl.
    apply update_from_no_data.
  - intros Hnodup. unfold _destroy. simpl.
    destruct (decide (self ∈ _INSTANCES st)) as [Hin|Hout].
    + rewrite bool_decide_eq_true_2 by done. by apply list_remove_NoDup.
    + rewrite bool_decide_eq_false_2 by done. done.
  - intros t parent Hfresh. unfold _destroy, __init__. simpl.
    rewrite bool_decide_eq_true_2
      by (apply elem_of_app; right; by apply list_elem_of_singleton).
    by apply list_remove_last.
Qed.

End update.

End napari_menus.

Lemma populate_menu_only_appends_witness :
  let populated :=
    (Menus.populate_menu 0 MenuExample.ACTIONS MenuExample.empty_menu_bar).1 in
  NapariMenus.well_formed populated
  ∧ NapariMenus.grows MenuExample.empty_menu_bar populated.
Proof.
  apply (populate_menu_only_appends 0 MenuExample.ACTIONS
           MenuExample.empty_menu_bar); [|by vm_compute].
  intros ref [m Hm]. simpl in Hm.
  apply lookup_singleton_Some in Hm as [<- _]. simpl. lia.
Defined.

Lemma update_reaches_every_action_witness :
  let always := λ (_ : nat) (_ : Menus.value), Returns (PyBool true) in
  let populated :=
    (Menus.populate_menu 0 MenuExample.ACTIONS MenuExample.empty_menu_bar).1 in
  NapariMenus.update always 0 Menus.VNone populated = ([(0, true)], Returns tt)
  ∧ ∃ a, [ Menus.Action
             (Menus.configure_action MenuExample.open_action
                (Menus.VStr "Open File(s)..."));
           Menus.Separator;
           Menus.SubMenu 1 ] !! 0 = Some (Menus.Action a).
Proof.
  intros always populated.
  assert (NapariMenus.update always 0 Menus.VNone populated
          = ([(0, true)], Returns tt)) as Hupdate by (by vm_compute).
  split; [exact Hupdate|].
  destruct (update_reaches_every_action always 0 MenuExample.ACTIONS
              MenuExample.empty_menu_bar 0
              {| Menus.title := Menus.VStr "File"; Menus.parent := None;
                 Menus.entries :=
                   [ Menus.Action
                       (Menus.configure_action MenuExample.open_action
                          (Menus.VStr "Open File(s)..."));
                     Menus.Separator;
                     Menus.SubMenu 1 ] |}
              Menus.VNone [(0, true)]) as (_ & Honly & _).
  - intros ref m a Hm Hin. simpl in Hm.
    apply lookup_singleton_Some in Hm as [_ <-]. simpl in Hin.
    inversion Hin.
  - by vm_compute.
  - exact Hupdate.
  - apply (Honly 0 true). apply list_elem_of_here.
Defined.

(** ** The plugins menu *)

Lemma prefix_refl s : String.prefix s s = true.
Proof.
  induction s as [|c s IH]; [done|]. simpl.
  by destruct (ascii_dec c c).
Qed.

Lemma is_substring_refl s : is_substring s s = true.
Proof.
  assert (is_substring s s
          = String.prefix s s
            || match s with
               | EmptyString => false
               | String _ s' => is_substring s s'
               end) as -> by (by destruct s).
  by rewrite prefix_refl.
Qed.

Section plugins_menu.
Import Menus NapariMenus PluginsMenu.
Context (menu_item_template_format : string → string → string).
Context (_add_toggle_widget : string * string → string → nat).

Local Abbreviation widget_action :=
  (PluginsMenu.widget_action menu_item_template_format _add_toggle_widget).
Local Abbreviation add_widget_actions :=
  (PluginsMenu.add_widget_actions menu_item_template_format _add_toggle_widget).
Local Abbreviation add_plugin_actions :=
  (PluginsMenu._add_plugin_actions menu_item_template_format
     _add_toggle_widget).

Lemma update_menu_missing f ref qt :
  menus qt !! ref = None → update_menu f ref qt = qt.
Proof.
  intros Hnone. destruct qt as [ms n]. unfold update_menu. simpl in *. f_equal.
  apply map_eq. intros ref'. destruct (decide (ref' = ref)) as [->|Hne].
  - by rewrite lookup_alter_eq, Hnone.
  - by rewrite lookup_alter_ne.
Qed.

(** The loop of [_add_plugin_actions] touches the entries of [menu] and
    nothing else. *)
Lemma add_widget_actions_menus menu hook_type plugin_name multi widgets qt :
  next_ref (add_widget_actions menu hook_type plugin_name multi widgets qt)
  = next_ref qt
  ∧ (∀ ref, ref ≠ menu →
            menus (add_widget_actions menu hook_type plugin_name multi
                     widgets qt) !! ref
            = menus qt !! ref)
  ∧ (∀ m, menus qt !! menu = Some m →
          ∃ m', menus (add_widget_actions menu hook_type plugin_name multi
                         widgets qt) !! menu = Some m'
                ∧ title m' = title m).
Proof.
  revert qt. induction widgets as [|w widgets IH]; intros qt; simpl.
  { split_and!; try done. intros m Hm. by exists m. }
  set (qt' := if bool_decide _ then qt else _).
  assert (next_ref qt' = next_ref qt
          ∧ (∀ ref, ref ≠ menu → menus qt' !! ref = menus qt !! ref)
          ∧ (∀ m, menus qt !! menu = Some m →
                  ∃ m', menus qt' !! menu = Some m' ∧ title m' = title m))
    as (Hn & Hother & Hmenu).
  { subst qt'. destruct (bool_decide _).
    - split_and!; try done. intros m Hm. by exists m.
    - split_and!; [done| |].
      + intros ref Hne. simpl. by rewrite lookup_alter_ne.
      + intros m Hm. simpl. rewrite lookup_alter_eq, Hm. by eexists. }
  destruct (IH qt') as (Hn' & Hother' & Hmenu'). split_and!.
  - congruence.
  - intros ref Hne. by rewrite Hother', Hother.
  - intros m Hm. destruct (Hmenu m Hm) as (m1 & Hm1 & Ht1).
    destruct (Hmenu' m1 Hm1) as (m2 & Hm2 & Ht2).
    exists m2. split; [done|congruence].
Qed.


Lemma filter_all {A} (P : A → Prop) `{!∀ x, Decision (P x)} (l : list A) :
  Forall P l → filter P l = l.
Proof.
  induction 1 as [|x l Hx _ IH]; [done|].
  by rewrite filter_cons_True, IH.
Qed.

Lemma filter_none {A} (P : A → Prop) `{!∀ x, Decision (P x)} (l : list A) :
  Forall (λ x, ¬ P x) l → filter P l = [].
Proof.
  induction 1 as [|x l Hx _ IH]; [done|].
  by rewrite filter_cons_False.
Qed.

Lemma add_plugin_actions_single self hook_type plugin_name w st :
  add_plugin_actions self hook_type plugin_name [w] st
  = {| qt :=
         if bool_decide (menu_item_template_format plugin_name w
                           ∈ action_texts self (qt st))
         then qt st
         else update_menu
                (append_entry
                   (Action (widget_action hook_type plugin_name w false)))
                self (qt st);
       _INSTANCES := _INSTANCES st |}.
Proof. done. Qed.

(** Adding the widgets of a plugin that has several: a new menu, under
    the name of the plugin, goes to the end of the plugins menu and into
    [_INSTANCES]. *)
Lemma add_plugin_actions_multi self hook_type plugin_name widgets st m :
  1 < length widgets →
  well_formed (qt st) →
  menus (qt st) !! self = Some m →
  let st' := add_plugin_actions self hook_type plugin_name widgets st in
  let r := next_ref (qt st) in
  next_ref (qt st') = S r
  ∧ well_formed (qt st')
  ∧ menus (qt st') !! self = Some (append_entry (SubMenu r) m)
  ∧ (∃ sub, menus (qt st') !! r = Some sub ∧ title sub = VStr plugin_name)
  ∧ (∀ ref, ref ≠ self → ref ≠ r →
            menus (qt st') !! ref = menus (qt st) !! ref)
  ∧ _INSTANCES st' = _INSTANCES st ++ [r].
Proof.
  intros Hmulti Hwf Hself st' r.
  subst st' r. unfold _add_plugin_actions.
  apply Nat.ltb_lt in Hmulti. rewrite Hmulti. cbv zeta. simpl.
  set (r := next_ref (qt st)) in *.
  assert (self < r) as Hlt by (apply Hwf; by exists m).
  set (qt_b := addMenu self _ _).
  destruct (add_widget_actions_menus r hook_type plugin_name true widgets qt_b)
    as (Hn & Hother & Hmenu).
  assert (menus qt_b !! self = Some (append_entry (SubMenu r) m)) as Hself_b.
  { subst qt_b. simpl. rewrite lookup_alter_eq, lookup_insert_ne by lia.
    by rewrite Hself. }
  assert (menus qt_b !! r
          = Some {| title := VStr plugin_name; parent := Some self;
                    entries := [] |}) as Hr_b.
  { subst qt_b. simpl. rewrite lookup_alter_ne by lia.
    by rewrite lookup_insert_eq. }
  assert (∀ ref, ref ≠ self → ref ≠ r →
                 menus qt_b !! ref = menus (qt st) !! ref) as Hother_b.
  { intros ref Hne1 Hne2. subst qt_b. simpl.
    rewrite lookup_alter_ne by done. by rewrite lookup_insert_ne. }
  split_and!.
  - by rewrite Hn.
  - intros ref Hsome. rewrite Hn. simpl.
    destruct (decide (ref = r)) as [->|Hne]; [lia|].
    rewrite Hother in Hsome by done.
    destruct (decide (ref = self)) as [->|Hne']; [lia|].
    rewrite Hother_b in Hsome by done. apply Hwf in Hsome. lia.
  - rewrite Hother by lia. done.
  - destruct (Hmenu _ Hr_b) as (sub & Hsub & Htitle). by exists sub.
  - intros ref Hne1 Hne2. rewrite Hother by done. by apply Hother_b.
  - done.
Qed.

(** Adding the widgets of a plugin twice.  For a plugin with one widget
    at most, the check on the texts of the menu makes the second call
    change nothing.  For a plugin with several widgets there is no such
    check on the submenu: each call puts one more menu, under the name of
    the plugin, at the end of the plugins menu and into [_INSTANCES]. *)
Theorem add_plugin_actions_twice self hook_type plugin_name widgets st :
  let add := add_plugin_actions self hook_type plugin_name widgets in
  (length widgets ≤ 1 →
   qt (add (add st)) = qt (add st)
   ∧ _INSTANCES (add (add st)) = _INSTANCES st)
  ∧ (1 < length widgets → well_formed (qt st) →
     ∀ m, menus (qt st) !! self = Some m →
          let r := next_ref (qt st) in
          (entries <$> menus (qt (add (add st))) !! self
           = Some (entries m ++ [SubMenu r; SubMenu (S r)]))
          ∧ text_of (qt (add (add st))) <$> [SubMenu r; SubMenu (S r)]
            = [plugin_name; plugin_name]
          ∧ _INSTANCES (add (add st)) = _INSTANCES st ++ [r; S r]).
Proof.
  intros add. split.
  - intros Hlen. destruct widgets as [|w [|w' widgets]]; [done| |simpl in Hlen; lia].
    subst add. rewrite !add_plugin_actions_single. simpl. split; [|done].
    destruct (bool_decide (_ ∈ action_texts self (qt st))) eqn:Hin.
    { by rewrite Hin. }
    destruct (menus (qt st) !! self) as [m|] eqn:Hself.
    + rewrite bool_decide_eq_true_2; [done|].
      unfold action_texts. simpl. rewrite lookup_alter_eq, Hself. simpl.
      rewrite fmap_app. apply elem_of_app. right.
      by apply list_elem_of_singleton.
    + rewrite (update_menu_missing _ _ _ Hself), Hin.
      by rewrite (update_menu_missing _ _ _ Hself).
  - intros Hmulti Hwf m Hself r.
    destruct (add_plugin_actions_multi self hook_type plugin_name widgets st m
                Hmulti Hwf Hself)
      as (Hn1 & Hwf1 & Hself1 & (sub1 & Hsub1 & Htitle1) & Hother1 & Hinst1).
    fold add r in Hn1, Hwf1, Hself1, Hsub1, Hother1, Hinst1.
    destruct (add_plugin_actions_multi self hook_type plugin_name widgets
                (add st) _ Hmulti Hwf1 Hself1)
      as (Hn2 & Hwf2 & Hself2 & (sub2 & Hsub2 & Htitle2) & Hother2 & Hinst2).
    fold add in Hn2, Hwf2, Hself2, Hsub2, Hother2, Hinst2.
    rewrite Hn1 in Hself2, Hsub2, Hother2, Hinst2.
    assert (self < r) as Hlt by (apply Hwf; by exists m).
    split_and!.
    + rewrite Hself2. simpl. by rewrite <- app_assoc.
    + rewrite !fmap_cons, fmap_nil. unfold text_of.
      rewrite Hsub2, Htitle2, Hother2, Hsub1, Htitle1 by lia. done.
    + rewrite Hinst2, Hinst1, <- app_assoc. done.
Qed.

(** Removing, from a menu, entries that were put at its end and that
    alone bear the name. *)
Lemma remove_what_was_added self value st m new :
  menus (qt st) !! self
  = Some {| title := title m; parent := parent m;
            entries := entries m ++ new |} →
  Forall (λ e, is_substring value (text_of (qt st) e) = false) (entries m) →
  Forall (λ e, is_substring value (text_of (qt st) e) = true) new →
  entries <$> menus (qt (_remove_unregistered_widget self value st).2) !! self
  = Some (entries m)
  ∧ (_remove_unregistered_widget self value st).1 = (λ _, value) <$> new
  ∧ _INSTANCES (_remove_unregistered_widget self value st).2 = _INSTANCES st.
Proof.
  intros Hself Hold Hnew.
  unfold _remove_unregistered_widget. rewrite Hself. simpl.
  rewrite lookup_alter_eq, Hself. simpl. rewrite !filter_app.
  rewrite (filter_all _ _ Hold), (filter_none _ new), app_nil_r; cycle 1.
  { eapply Forall_impl; [exact Hnew|]. simpl. intros e ->. done. }
  rewrite (filter_none _ (entries m)), (filter_all _ _ Hnew); cycle 1.
  { eapply Forall_impl; [exact Hold|]. simpl. intros e ->. done. }
  done.
Qed.


(** Registering a plugin and unregistering it.  Take a plugins menu in
    which no text contains the name of the plugin, and a template that
    puts the name of the plugin into the text it makes.  After
    [_add_plugin_actions] for the widgets of the plugin,
    [_remove_unregistered_widget] for its name leaves the menu showing
    what it showed before; it asks the window once to remove the dock
    widget, when the plugin has a widget at all.  But the menu that was
    made for a plugin with several widgets stays in [_INSTANCES]. *)
Theorem add_then_remove_plugin self hook_type plugin_name widgets st m :
  well_formed (qt st) →
  menus (qt st) !! self = Some m →
  (∀ e, e ∈ entries m →
        is_substring plugin_name (text_of (qt st) e) = false) →
  (∀ ref, SubMenu ref ∈ entries m → is_Some (menus (qt st) !! ref)) →
  (∀ w, w ∈ widgets →
        is_substring plugin_name (menu_item_template_format plugin_name w)
        = true) →
  let added := add_plugin_actions self hook_type plugin_name widgets st in
  let removed := _remove_unregistered_widget self plugin_name added in
  entries <$> menus (qt removed.2) !! self = Some (entries m)
  ∧ removed.1 = match widgets with [] => [] | _ => [plugin_name] end
  ∧ _INSTANCES removed.2
    = _INSTANCES st
      ++ (if 1 <? length widgets then [next_ref (qt st)] else []).
Proof.
  intros Hwf Hself Hnone Hsubs Htemplate added removed.
  assert (self < next_ref (qt st)) as Hlt by (apply Hwf; by exists m).
  assert (∀ new, menus (qt added) !! self
                 = Some {| title := title m; parent := parent m;
                           entries := entries m ++ new |} →
                 (∀ e, e ∈ entries m →
                       text_of (qt added) e = text_of (qt st) e) →
                 Forall (λ e, is_substring plugin_name (text_of (qt added) e)
                              = true) new →
                 entries <$> menus (qt removed.2) !! self = Some (entries m)
                 ∧ removed.1 = (λ _, plugin_name) <$> new
                 ∧ _INSTANCES removed.2 = _INSTANCES added) as Hremove.
  { intros new Hadded Htexts Hnew. subst removed.
    apply (remove_what_was_added self plugin_name added m new);
      [done| |done].
    apply Forall_forall. intros e He. rewrite Htexts by done.
    by apply Hnone. }
  destruct widgets as [|w [|w' widgets]].
  - (* no widget *)
    destruct (Hremove []) as (H1 & H2 & H3).
    + subst added. unfold _add_plugin_actions. simpl.
      rewrite Hself, app_nil_r. by destruct m.
    + done.
    + done.
    + split_and!; try done. rewrite H3. simpl. by rewrite app_nil_r.
  - (* one widget *)
    assert (menu_item_template_format plugin_name w
              ∉ action_texts self (qt st)) as Hnew.
    { unfold action_texts. rewrite Hself.
      intros (e & Heq & He)%list_elem_of_fmap.
      specialize (Hnone e He). rewrite <- Heq in Hnone.
      rewrite Htemplate in Hnone; [done|]. by left. }
    destruct (Hremove [Action (widget_action hook_type plugin_name w false)])
      as (H1 & H2 & H3).
    + subst added. rewrite add_plugin_actions_single. simpl.
      rewrite bool_decide_eq_false_2 by done. simpl.
      by rewrite lookup_alter_eq, Hself.
    + intros e He. subst added. rewrite add_plugin_actions_single. simpl.
      rewrite bool_decide_eq_false_2 by done.
      destruct e as [|a|ref]; try done. simpl.
      destruct (decide (ref = self)) as [->|Hne].
      * by rewrite lookup_alter_eq, Hself.
      * by rewrite lookup_alter_ne.
    + constructor; [|done]. simpl. apply Htemplate. by left.
    + split_and!; try done. rewrite H3. simpl. by rewrite app_nil_r.
  - (* several widgets *)
    destruct (add_plugin_actions_multi self hook_type plugin_name
                (w :: w' :: widgets) st m)
      as (Hn1 & Hwf1 & Hself1 & (sub1 & Hsub1 & Htitle1) & Hother1 & Hinst1);
      [simpl; lia|done|done|].
    fold added in Hn1, Hwf1, Hself1, Hsub1, Hother1, Hinst1.
    destruct (Hremove [SubMenu (next_ref (qt st))]) as (H1 & H2 & H3).
    + done.
    + intros e He. destruct e as [|a|ref]; try done. unfold text_of.
      destruct (Hsubs ref He) as [sub Hsub].
      assert (ref < next_ref (qt st)) by (apply Hwf; by exists sub).
      destruct (decide (ref = self)) as [->|Hne].
      * by rewrite Hself1, Hself.
      * rewrite Hother1 by lia. done.
    + constructor; [|done]. unfold text_of. rewrite Hsub1, Htitle1.
      apply is_substring_refl.
    + split_and!; try done; by rewrite H3, Hinst1.
Qed.


Local Abbreviation add_registered :=
  (PluginsMenu.add_registered menu_item_template_format _add_toggle_widget).
Local Abbreviation add_registered_widget :=
  (PluginsMenu._add_registered_widget menu_item_template_format
     _add_toggle_widget).

Lemma add_registered_call_all self event event' widgets st :
  add_registered self event true widgets st
  = add_registered self event' true widgets st
  ∧ (add_registered self event true widgets st).2 = Returns tt.
Proof.
  revert st. induction widgets as [|[hook_type [plugin_name names]] widgets IH];
    intros st; [done|]. simpl. apply IH.
Qed.

Lemma add_registered_event self value widgets st :
  add_registered self (Some value) false widgets st
  = add_registered self None true
      (filter (λ x, x.2.1 = value) widgets) st.
Proof.
  revert st. induction widgets as [|[hook_type [plugin_name names]] widgets IH];
    intros st; [done|]. simpl.
  destruct (String.eqb value plugin_name) eqn:Heq.
  - apply String.eqb_eq in Heq as ->.
    rewrite filter_cons_True by done. simpl. apply IH.
  - apply String.eqb_neq in Heq.
    rewrite filter_cons_False by (simpl; congruence). apply IH.
Qed.

(** A registration event adds the widgets of its plugin alone.  With
    [call_all], [_add_registered_widget] does not look at the event, and
    does not raise.  Without it, for an event of a plugin, it does what
    it does with [call_all] for the widgets of that plugin alone; and for
    no event it ends in an [AttributeError] before it changes anything,
    unless there is no widget at all. *)
Theorem registered_event_adds_only_its_plugin
    self npe2_widgets iter_widgets event st :
  let offered :=
    match npe2_widgets with
    | None => []
    | Some contributions =>
        (λ x, ("dock"%string, x)) <$> group_widgets contributions
    end ++ iter_widgets in
  (∀ event',
     add_registered_widget self npe2_widgets iter_widgets event true st
     = add_registered_widget self npe2_widgets iter_widgets event' true st)
  ∧ (add_registered_widget self npe2_widgets iter_widgets event true st).2
    = Returns tt
  ∧ (∀ value,
       add_registered_widget self npe2_widgets iter_widgets (Some value)
         false st
       = add_registered self None true
           (filter (λ x, x.2.1 = value) offered) st)
  ∧ add_registered_widget self npe2_widgets iter_widgets None false st
    = (st, match offered with
           | [] => Returns tt
           | _ => Raises (OtherException "AttributeError")
           end).
Proof.
  intros offered. unfold _add_registered_widget. fold offered. split_and!.
  - intros event'. apply add_registered_call_all.
  - apply (add_registered_call_all self event event).
  - intros value. apply add_registered_event.
  - by destruct offered as [|[hook_type [plugin_name names]] rest].
Qed.

Lemma append_widget_cons q n p names wdgs :
  append_widget q n ((p, names) :: wdgs)
  = if String.eqb p q then (p, names ++ [n]) :: wdgs
    else (p, names) :: append_widget q n wdgs.
Proof. done. Qed.

Lemma append_widget_keys q n wdgs :
  (append_widget q n wdgs).*1
  = if bool_decide (q ∈ wdgs.*1) then wdgs.*1 else wdgs.*1 ++ [q].
Proof.
  induction wdgs as [|[p names] wdgs IH]; [done|].
  rewrite append_widget_cons. destruct (String.eqb_spec p q) as [->|Hne].
  - rewrite !fmap_cons. rewrite bool_decide_eq_true_2 by (by left). done.
  - rewrite !fmap_cons, IH. cbn [fst].
    destruct (decide (q ∈ wdgs.*1)) as [Hin|Hout].
    + rewrite !bool_decide_eq_true_2; [done|by right|done].
    + rewrite !bool_decide_eq_false_2; [done| |done].
      intros [->|?]%elem_of_cons; done.
Qed.

Lemma append_widget_elem q n wdgs p names :
  NoDup wdgs.*1 →
  (p, names) ∈ append_widget q n wdgs
  ↔ (p ≠ q ∧ (p, names) ∈ wdgs)
    ∨ (p = q ∧ ∃ old, names = old ++ [n]
                      ∧ ((q, old) ∈ wdgs ∨ ((q ∉ wdgs.*1) ∧ old = []))).
Proof.
  induction wdgs as [|[p0 names0] wdgs IH]; intros Hnodup.
  { simpl. rewrite list_elem_of_singleton. split.
    - intros [= -> ->]. right. split; [done|]. exists []. split; [done|].
      right. split; [apply not_elem_of_nil|done].
    - intros [[_ Hin]|[-> (old & -> & [Hin|[_ ->]])]];
        try (by apply elem_of_nil in Hin). done. }
  rewrite fmap_cons in Hnodup. apply NoDup_cons in Hnodup as [Hp0 Hnodup].
  cbn [fst] in Hp0. specialize (IH Hnodup).
  assert (∀ names', (p0, names') ∉ wdgs) as Hfresh.
  { intros names' Hin. apply Hp0.
    apply list_elem_of_fmap. by exists (p0, names'). }
  rewrite append_widget_cons. destruct (String.eqb_spec p0 q) as [->|Hne].
  - rewrite !elem_of_cons. split.
    + intros [[= -> ->]|Hin].
      * right. split; [done|]. exists names0. split; [done|]. left. by left.
      * left. split; [|by right]. intros ->. by apply (Hfresh names).
    + intros [[Hpq [[= -> ->]|Hin]]|[-> (old & -> & [Hin|[Hout ->]])]].
      * done.
      * by right.
      * apply elem_of_cons in Hin as [[= ->]|Hin]; [by left|].
        by apply Hfresh in Hin.
      * exfalso. apply Hout. rewrite fmap_cons. by left.
  - rewrite !elem_of_cons, IH. split.
    + intros [[= -> ->]|[[Hpq Hin]|[-> (old & -> & Hold)]]].
      * left. split; [done|by left].
      * left. split; [done|by right].
      * right. split; [done|]. exists old. split; [done|].
        destruct Hold as [Hin|[Hout ->]].
        -- left. by right.
        -- right. split; [|done]. rewrite fmap_cons.
           intros [?|?]%elem_of_cons; done.
    + intros [[Hpq [[= -> ->]|Hin]]|[-> (old & -> & Hold)]].
      * by left.
      * right. left. done.
      * right. right. split; [done|]. exists old. split; [done|].
        destruct Hold as [[[= Heq _]|Hin]%elem_of_cons|[Hout ->]].
        -- done.
        -- by left.
        -- right. split; [|done]. intros Hin. apply Hout.
           rewrite fmap_cons. by right.
Qed.

(** The widgets of npe2, by plugin.  [_add_registered_widget] groups the
    widget contributions of npe2 by the name of their plugin: each plugin
    that contributes comes up once, with the names of all its widgets in
    the order of the contributions, so that it gets one call of
    [_add_plugin_actions]. *)
Theorem npe2_widgets_grouped_by_plugin contributions :
  NoDup (group_widgets contributions).*1
  ∧ ∀ plugin_name names,
      (plugin_name, names) ∈ group_widgets contributions
      ↔ plugin_name ∈ contributions.*1
        ∧ names = (filter (λ c, c.1 = plugin_name) contributions).*2.
Proof.
  unfold group_widgets.
  induction contributions as [|[q n] cs IH] using rev_ind.
  { split; [constructor|]. intros p names. simpl. split.
    - by intros ?%elem_of_nil.
    - by intros [?%elem_of_nil _]. }
  destruct IH as [Hnodup IH]. rewrite foldl_app. simpl.
  set (wdgs := foldl _ [] cs) in *. split.
  - rewrite append_widget_keys. destruct (bool_decide _) eqn:Hq; [done|].
    apply bool_decide_eq_false_1 in Hq.
    apply NoDup_app. split_and!; [done| |apply NoDup_singleton].
    intros x Hx ->%list_elem_of_singleton. done.
  - intros p names. rewrite append_widget_elem by done.
    rewrite fmap_app, filter_app, fmap_app, elem_of_app. simpl.
    rewrite list_elem_of_singleton. split.
    + intros [[Hpq Hin]|[-> (old & -> & Hold)]].
      * apply IH in Hin as [Hin ->]. split; [by left|].
        rewrite filter_cons_False by (simpl; congruence).
        by rewrite app_nil_r.
      * split; [by right|]. rewrite filter_cons_True by done. simpl.
        f_equal. destruct Hold as [Hin|[Hout ->]].
        -- by apply IH in Hin as [_ ->].
        -- rewrite filter_none; [done|]. apply Forall_forall.
           intros [q' n'] Hin Heq. simpl in Heq. subst q'. apply Hout.
           destruct (decide (q ∈ wdgs.*1)) as [?|Hnot]; [done|].
           exfalso. apply Hnot.
           apply list_elem_of_fmap.
           exists (q, (filter (λ c, c.1 = q) cs).*2). split; [done|].
           apply IH. split; [|done].
           apply list_elem_of_fmap. by exists (q, n').
    + intros [Hin ->]. destruct (decide (p = q)) as [->|Hne].
      * right. split; [done|]. rewrite filter_cons_True by done. simpl.
        exists (filter (λ c, c.1 = q) cs).*2. split; [done|].
        destruct (decide (q ∈ cs.*1)) as [Hq|Hq].
        -- left. apply IH. done.
        -- right. split.
           ++ intros ([q' names] & -> & Hin')%list_elem_of_fmap.
              apply IH in Hin' as [Hin' _]. done.
           ++ rewrite filter_none; [done|]. apply Forall_forall.
              intros [q' n'] Hin' Heq. simpl in Heq. subst q'. apply Hq.
              apply list_elem_of_fmap. by exists (q, n').
      * left. split; [done|]. apply IH.
        rewrite filter_cons_False by (simpl; congruence).
        rewrite app_nil_r. split; [|done].
        destruct Hin as [Hin| ->]; done.
Qed.


Lemma add_widget_actions_grows menu hook_type plugin_name multi widgets qt :
  well_formed qt →
  well_formed (add_widget_actions menu hook_type plugin_name multi widgets qt)
  ∧ grows qt (add_widget_actions menu hook_type plugin_name multi widgets qt).
Proof.
  revert qt. induction widgets as [|w widgets IH]; intros qt Hwf.
  { split; [done|apply grows_refl]. }
  simpl. set (qt' := if bool_decide _ then qt else _).
  assert (well_formed qt' ∧ grows qt qt') as [Hwf' Hgrows'].
  { subst qt'. destruct (bool_decide _).
    - split; [done|apply grows_refl].
    - split; [by apply well_formed_update_menu|apply grows_append]. }
  destruct (IH qt' Hwf') as [Hwf'' Hgrows'']. split; [done|].
  by eapply grows_trans.
Qed.

Lemma add_plugin_actions_grows self hook_type plugin_name widgets st :
  well_formed (qt st) →
  well_formed (qt (add_plugin_actions self hook_type plugin_name widgets st))
  ∧ grows (qt st)
          (qt (add_plugin_actions self hook_type plugin_name widgets st)).
Proof.
  intros Hwf. unfold _add_plugin_actions.
  destruct (1 <? length widgets); cbv zeta; simpl.
  - change (addMenu self (next_ref (qt st)) _)
      with (addMenu_titled self (VStr plugin_name) (qt st)).2.
    destruct (addMenu_titled_grows self (VStr plugin_name) (qt st) Hwf)
      as [Hwf' Hgrows'].
    destruct (add_widget_actions_grows (next_ref (qt st)) hook_type
                plugin_name true widgets _ Hwf') as [Hwf'' Hgrows''].
    split; [done|]. by eapply grows_trans.
  - by apply add_widget_actions_grows.
Qed.

Lemma add_registered_grows self event widgets st :
  well_formed (qt st) →
  well_formed (qt (add_registered self event true widgets st).1)
  ∧ grows (qt st) (qt (add_registered self event true widgets st).1).
Proof.
  revert st. induction widgets as [|[hook_type [plugin_name names]] widgets IH];
    intros st Hwf.
  { split; [done|apply grows_refl]. }
  simpl.
  destruct (add_plugin_actions_grows self hook_type plugin_name names st Hwf)
    as [Hwf' Hgrows'].
  destruct (IH _ Hwf') as [Hwf'' Hgrows'']. split; [done|].
  by eapply grows_trans.
Qed.

Section build.
Context (trans : string → string).
Context (_show_plugin_install_dialog _show_plugin_err_reporter : nat).

Local Abbreviation build :=
  (PluginsMenu._build trans menu_item_template_format _add_toggle_widget
     _show_plugin_install_dialog _show_plugin_err_reporter).

(** Building the plugins menu.  [_build] does not raise.  Whatever the
    menu showed before, it then shows the action that installs plugins,
    the action that reports the errors of plugins and a separator, each
    connected to its dialog, ahead of what the widgets of the plugins
    add; its title is as before, and every other menu shows what it
    showed, ahead of anything new. *)
Theorem build_shows_fixed_actions_first
    self npe2_widgets iter_widgets st m :
  well_formed (qt st) →
  menus (qt st) !! self = Some m →
  let built := build self npe2_widgets iter_widgets st in
  built.2 = Returns tt
  ∧ (∃ m' install errors rest,
       menus (qt built.1) !! self = Some m'
       ∧ title m' = title m
       ∧ entries m' = Action install :: Action errors :: Separator :: rest
       ∧ text install = VStr (trans "Install/Uninstall Plugins...")
       ∧ triggered install = [VObject _show_plugin_install_dialog]
       ∧ text errors = VStr (trans "Plugin Errors...")
       ∧ triggered errors = [VObject _show_plugin_err_reporter])
  ∧ (∀ ref other,
       ref ≠ self → menus (qt st) !! ref = Some other →
       ∃ other', menus (qt built.1) !! ref = Some other'
                 ∧ title other' = title other
                 ∧ entries other `prefix_of` entries other').
Proof.
  intros Hwf Hself built. subst built.
  unfold _build, _add_registered_widget.
  set (offered := _ ++ iter_widgets).
  set (cleared := {| qt := update_menu _ self (qt st); _INSTANCES := _ |}).
  destruct (add_registered_call_all self None None offered cleared)
    as [_ Hreturns].
  destruct (add_registered_grows self None offered cleared)
    as [_ [_ Hgrows]].
  { by apply well_formed_update_menu. }
  split_and!; [done| |].
  - edestruct (Hgrows self) as (m' & Hm' & Htitle & Hprefix).
    { subst cleared. simpl. by rewrite lookup_alter_eq, Hself. }
    destruct Hprefix as [rest Hrest]. simpl in Hrest, Htitle.
    eexists m', _, _, rest. split_and!; try done.
  - intros ref other Hne Hother. apply Hgrows. subst cleared. simpl.
    by rewrite lookup_alter_ne.
Qed.

End build.

End plugins_menu.

Lemma add_then_remove_plugin_witness :
  let added :=
    PluginsMenu._add_plugin_actions PluginsMenuExample.template
      PluginsMenuExample.closures 0 "dock" "svg" ["Export"; "Import"]
      PluginsMenuExample.a_state in
  let removed := PluginsMenu._remove_unregistered_widget 0 "svg" added in
  Menus.entries <$> Menus.menus (NapariMenus.qt removed.2) !! 0
  = Some (Menus.entries PluginsMenuExample.a_menu)
  ∧ removed.1 = ["svg"]
  ∧ NapariMenus._INSTANCES removed.2 = [0; 1].
Proof.
  apply (add_then_remove_plugin PluginsMenuExample.template
           PluginsMenuExample.closures 0 "dock" "svg" ["Export"; "Import"]
           PluginsMenuExample.a_state PluginsMenuExample.a_menu).
  - intros ref [m Hm]. simpl in Hm.
    apply lookup_singleton_Some in Hm as [<- _]. simpl. lia.
  - by vm_compute.
  - intros e He. simpl in He.
    repeat (apply elem_of_cons in He as [->|He]; [by vm_compute|]).
    by apply elem_of_nil in He.
  - intros ref He. simpl in He.
    repeat (apply elem_of_cons in He as [He|He]; [discriminate He|]).
    by apply elem_of_nil in He.
  - intros w He.
    repeat (apply elem_of_cons in He as [->|He]; [by vm_compute|]).
    by apply elem_of_nil in He.
Defined.

(** ** Menus from the manifest *)

Section manifest.
Import Menus Manifest.

Lemma keeps_refl menu call st : keeps menu call st st.
Proof. by repeat split. Qed.

Lemma keeps_trans menu call st1 st2 st3 :
  keeps menu call st1 st2 → keeps menu call st2 st3 → keeps menu call st1 st3.
Proof.
  intros (Hr & Hc & Hf & Hmenus & Hvars & Hlambdas)
         (Hr' & Hc' & Hf' & Hmenus' & Hvars' & Hlambdas').
  split_and!; try lia.
  - intros ref Hlt Hne. rewrite Hmenus' by (done || lia). by apply Hmenus.
  - intros c Hlt Hne. rewrite Hvars' by (done || lia). by apply Hvars.
  - intros f Hlt. rewrite Hlambdas' by lia. by apply Hlambdas.
Qed.

(** What a call for a submenu keeps, seen from the call that makes the
    submenu. *)
Lemma keeps_submenu menu call st t st' :
  call < next_call st →
  let subm := addMenu_titled menu t (qt st) in
  keeps subm.1 (next_call st)
    {| qt := subm.2; variables := variables st; next_call := next_call st;
       lambdas := lambdas st; next_object := next_object st |} st' →
  keeps menu call st st'.
Proof.
  intros Hcall subm (Hr & Hc & Hf & Hmenus & Hvars & Hlambdas).
  simpl in *. split_and!; try lia.
  - intros ref Hlt Hne. rewrite Hmenus by lia.
    rewrite lookup_alter_ne by done. rewrite lookup_insert_ne by lia. done.
  - intros c Hlt Hne. apply Hvars; lia.
  - done.
Qed.

Section loop.
Context (populate : nat → string → State → State * result unit).
Context (pm : PluginManager).
Hypothesis populate_keeps :
  ∀ menu menu_key st st' r,
    populate menu menu_key st = (st', r) → keeps menu (next_call st) st st'.

Lemma populate_items_keeps menu call items st st' r :
  call < next_call st →
  populate_items populate pm menu call items st = (st', r) →
  keeps menu call st st'.
Proof.
  revert st. induction items as [|[submenu|command] items IH]; intros st Hcall.
  - intros [= <- <-]. apply keeps_refl.
  - simpl. destruct (get_submenu pm submenu) as [subm_contrib|e]; cycle 1.
    { intros [= <- <-]. apply keeps_refl. }
    destruct (populate _ _ _) as [st1 r1] eqn:Hsub.
    apply populate_keeps in Hsub.
    apply (keeps_submenu menu call st (VStr (label subm_contrib)) st1 Hcall)
      in Hsub.
    assert (call < next_call st1) by (destruct Hsub as (_ & ? & _); lia).
    destruct r1 as [[]| |].
    + intros Hrest. eapply keeps_trans; [exact Hsub|by apply IH].
    + by intros [= <- <-].
    + by intros [= <- <-].
  - simpl. destruct (get_command pm command) as [cmd|e]; cycle 1.
    { intros [= <- <-]. apply keeps_refl. }
    intros Hrest. apply IH in Hrest; [|done].
    eapply keeps_trans; [|exact Hrest].
    split_and!; simpl; try lia.
    + intros ref _ Hne. by rewrite lookup_alter_ne.
    + intros c _ Hne. by rewrite lookup_insert_ne.
    + intros f Hlt. rewrite lookup_insert_ne by lia. done.
Qed.

End loop.

Lemma populate_qmenu_from_manifest_keeps fuel npe2 menu menu_key st st' r :
  populate_qmenu_from_manifest fuel npe2 menu menu_key st = (st', r) →
  keeps menu (next_call st) st st'.
Proof.
  revert menu menu_key st st' r.
  induction fuel as [|fuel IH]; intros menu menu_key st st' r;
    destruct npe2 as [pm|]; simpl;
    try (intros [= <- <-]; apply keeps_refl).
  intros Hitems. apply populate_items_keeps in Hitems; [|exact IH|simpl; lia].
  destruct Hitems as (Hr & Hc & Hf & Hmenus & Hvars & Hlambdas). simpl in *.
  split_and!; try done; try lia.
  intros c Hlt Hne. apply Hvars; lia.
Qed.


(** What the variable [cmd] of a call is bound to when the call has gone
    through [items]: the command of the last item that has one, if it is
    known. *)
Local Abbreviation last_command pm items :=
  (c ← last (commands_of items);
   match get_command pm c with Returns cmd => Some cmd | Raises _ => None end).

Lemma populate_items_commands populate pm menu call items st st' :
  (∀ menu menu_key st st' r,
     populate menu menu_key st = (st', r) →
     keeps menu (next_call st) st st') →
  menu < next_ref (qt st) →
  call < next_call st →
  populate_items populate pm menu call items st = (st', Ok tt) →
  (∃ new,
     (∀ m, menus (qt st) !! menu = Some m →
           ∃ m', menus (qt st') !! menu = Some m'
                 ∧ entries m' = entries m ++ new)
     ∧ Forall2 (λ a command,
                  ∃ cmd f, get_command pm command = Returns cmd
                           ∧ text a = VStr (command_title cmd)
                           ∧ triggered a = [VObject f]
                           ∧ lambdas st' !! f = Some call)
               (actions_of new) (commands_of items))
  ∧ variables st' !! call
    = match last (commands_of items) with
      | Some _ => last_command pm items
      | None => variables st !! call
      end.
Proof.
  intros Hpopulate. revert st.
  induction items as [|[submenu|command] items IH]; intros st Hmenu Hcall.
  - intros [= <-]. split; [|done]. exists []. split; [|constructor].
    intros m Hm. exists m. by rewrite app_nil_r.
  - simpl. destruct (get_submenu pm submenu) as [subm_contrib|e]; [|done].
    destruct (populate _ _ _) as [st1 r1] eqn:Hsub.
    pose proof (Hpopulate _ _ _ _ _ Hsub)
      as (Hr & Hc & Hf & Hmenus & Hvars & Hlambdas). simpl in *.
    destruct r1 as [[]| |]; try done. intros Hrest.
    destruct (IH st1) as [(new & Hentries & Hactions) Hvariable];
      [lia|lia|done|].
    split.
    + exists (SubMenu (next_ref (qt st)) :: new). split; [|done].
      intros m Hm. destruct (Hentries (append_entry (SubMenu (next_ref (qt st))) m))
        as (m' & Hm' & Heq).
      { rewrite Hmenus by lia. rewrite lookup_alter_eq.
        rewrite lookup_insert_ne by lia. by rewrite Hm. }
      exists m'. split; [done|]. rewrite Heq. simpl. by rewrite <- app_assoc.
    + rewrite Hvariable. rewrite Hvars by lia. done.
  - simpl. destruct (get_command pm command) as [cmd|e] eqn:Hcmd; [|done].
    intros Hrest.
    pose proof Hrest as Hkeeps.
    apply (populate_items_keeps populate pm Hpopulate) in Hkeeps;
      [|simpl; exact Hcall].
    destruct Hkeeps as (_ & _ & _ & _ & _ & Hlambdas). simpl in Hlambdas.
    apply IH in Hrest as [(new & Hentries & Hactions) Hvariable];
      [|simpl; exact Hmenu|simpl; exact Hcall].
    simpl in Hentries, Hvariable. split.
    + eexists (Action _ :: new). split.
      * intros m Hm. edestruct Hentries as (m' & Hm' & Heq).
        { rewrite lookup_alter_eq, Hm. done. }
        exists m'. split; [done|]. rewrite Heq. simpl. by rewrite <- app_assoc.
      * simpl. constructor; [|done]. exists cmd, (next_object st).
        split_and!; try done.
        rewrite Hlambdas by lia. by rewrite lookup_insert_eq.
    + rewrite Hvariable. rewrite last_cons.
      destruct (last (commands_of items)) as [c|]; [done|].
      simpl. by rewrite lookup_insert_eq, Hcmd.
Qed.

(** Every action runs the last command.  When
    [populate_qmenu_from_manifest] returns, the menu shows what it showed
    before and then what the call has added; the actions added bear the
    titles of the commands of the menu items, one each and in their
    order.  But the functions connected to them all read the one variable
    [cmd] of the call, which is by then bound to the command of the last
    item: whichever of these actions is triggered, it is that command
    that is executed. *)
Theorem manifest_actions_run_last_command fuel pm menu menu_key st st' m :
  menus (qt st) !! menu = Some m →
  menu < next_ref (qt st) →
  populate_qmenu_from_manifest fuel (Some pm) menu menu_key st = (st', Ok tt) →
  ∃ m' new,
    menus (qt st') !! menu = Some m'
    ∧ entries m' = entries m ++ new
    ∧ Forall2 (λ a command,
                 ∃ cmd, get_command pm command = Returns cmd
                        ∧ text a = VStr (command_title cmd)
                        ∧ triggered_commands st' a
                          = option_list
                              (last_command pm (iter_menu pm menu_key)))
              (actions_of new) (commands_of (iter_menu pm menu_key)).
Proof.
  intros Hm Hmenu. destruct fuel as [|fuel]; [done|]. simpl. intros Hitems.
  apply populate_items_commands in Hitems
      as [(new & Hentries & Hactions) Hvariable]; try (simpl; lia); cycle 1.
  { intros menu' menu_key' st1 st1' r.
    apply populate_qmenu_from_manifest_keeps. }
  simpl in Hentries. destruct (Hentries m Hm) as (m' & Hm' & Heq).
  exists m', new. split; [done|]. split; [done|].
  destruct (last (commands_of (iter_menu pm menu_key))) as [c|] eqn:Hlast;
    cycle 1.
  { apply last_None in Hlast. rewrite Hlast in *.
    apply Forall2_nil_inv_r in Hactions. rewrite Hactions. constructor. }
  eapply Forall2_impl; [exact Hactions|]. simpl.
  intros a command (cmd & f & Hcmd & Htext & Htriggered & Hlambda).
  exists cmd. split; [done|]. split; [done|].
  unfold triggered_commands. rewrite Htriggered. simpl. rewrite Hlambda. simpl.
  simpl in Hvariable. rewrite Hvariable. by destruct (get_command pm c).
Qed.


(** A menu of the manifest without submenus.  When the items of the menu
    are all commands that the plugin manager knows,
    [populate_qmenu_from_manifest] returns, and calls itself for no
    submenu: any fuel but none is enough. *)
Theorem manifest_flat_menu_returns fuel pm menu menu_key st :
  (∀ item, item ∈ iter_menu pm menu_key →
           ∃ command cmd, item = CommandItem command
                          ∧ get_command pm command = Returns cmd) →
  ∃ st', populate_qmenu_from_manifest (S fuel) (Some pm) menu menu_key st
         = (st', Ok tt).
Proof.
  simpl. generalize (next_call st). intros call.
  generalize ({| qt := qt st; variables := variables st;
                 next_call := S call; lambdas := lambdas st;
                 next_object := next_object st |}).
  induction (iter_menu pm menu_key) as [|item items IH]; intros st0 Hitems.
  { by eexists. }
  destruct (Hitems item) as (command & cmd & -> & Hcmd); [by left|].
  simpl. rewrite Hcmd. apply IH. intros item Hin. apply Hitems. by right.
Qed.

End manifest.

Lemma manifest_actions_run_last_command_witness :
  ManifestExample.populated.2 = Ok tt
  ∧ ∃ m' new,
      Menus.menus (Manifest.qt ManifestExample.populated.1) !! 0 = Some m'
      ∧ Menus.entries m' = [] ++ new
      ∧ Forall2
          (λ a command,
             ∃ cmd, Manifest.get_command ManifestExample.pm command
                    = Returns cmd
                    ∧ Menus.text a = Menus.VStr (Manifest.command_title cmd)
                    ∧ Manifest.triggered_commands ManifestExample.populated.1 a
                      = [{| Manifest.command_id := "svg.import";
                            Manifest.command_title := "Import" |}])
          (Manifest.actions_of new) ["svg.export"; "svg.import"].
Proof.
  split; [by vm_compute|].
  apply (manifest_actions_run_last_command 2 ManifestExample.pm 0
           "napari/layers" ManifestExample.no_function_yet
           ManifestExample.populated.1
           {| Menus.title := Menus.VStr "File"; Menus.parent := None;
              Menus.entries := [] |}).
  - by vm_compute.
  - simpl. lia.
  - by vm_compute.
Defined.

Lemma manifest_flat_menu_returns_witness :
  ∃ st', Manifest.populate_qmenu_from_manifest 1 (Some ManifestExample.pm) 0
           "svg/more" ManifestExample.no_function_yet = (st', Ok tt).
Proof.
  apply (manifest_flat_menu_returns 0 ManifestExample.pm 0 "svg/more"
           ManifestExample.no_function_yet).
  intros item Hin. simpl in Hin. apply list_elem_of_singleton in Hin as ->.
  by eexists _, _.
Defined.

Lemma build_shows_fixed_actions_first_witness :
  (PluginsMenu._build id PluginsMenuExample.template
     PluginsMenuExample.closures 3 4 0
     (Some [("svg", "Export"); ("svg", "Import")])
     [("dock", ("console", ["Console"]))]
     PluginsMenuExample.a_state).2 = Returns tt.
Proof.
  destruct (build_shows_fixed_actions_first PluginsMenuExample.template
              PluginsMenuExample.closures id 3 4 0
              (Some [("svg", "Export"); ("svg", "Import")])
              [("dock", ("console", ["Console"]))]
              PluginsMenuExample.a_state PluginsMenuExample.a_menu)
    as [H _].
  - intros ref [m Hm]. simpl in Hm.
    apply lookup_singleton_Some in Hm as [<- _]. simpl. lia.
  - by vm_compute.
  - exact H.
Defined.

(** ** The file menu *)

Section file_menu.
Import Menus NapariMenus FileMenu.

Lemma dialogs_made_app t1 t2 :
  dialogs_made (t1 ++ t2) = dialogs_made t1 + dialogs_made t2.
Proof.
  induction t1 as [|c t1 IH]; [done|]. destruct c; simpl; by rewrite ?IH.
Qed.

(** What happens one after the other: [run] on [before ++ after] is
    [run] on [before], then [run] on [after], with the dialogs numbered
    on. *)
Lemma run_app before after opened menu :
  run (before ++ after) opened menu
  = let first := run before opened menu in
    let second := run after (opened + dialogs_made first.1) first.2 in
    (first.1 ++ second.1, second.2).
Proof.
  revert opened menu.
  induction before as [|[size|] before IH]; intros opened menu; simpl.
  - rewrite Nat.add_0_r. by destruct (run after opened menu).
  - rewrite IH. unfold _open_preferences.
    destruct (_pref_dialog menu) as [dialog|]; simpl; [done|].
    destruct size as [size|]; simpl;
      by rewrite <- !Nat.add_succ_comm.
  - destruct (_pref_dialog menu) as [dialog|]; simpl; by rewrite IH.
Qed.

(** One preferences dialog at a time.  Whatever the user does, and from
    whatever state of the menu: [_open_preferences] makes and shows a
    dialog only when none is open, and raises the open one otherwise; the
    dialog that finishes is the open one, and a new dialog is shown only
    after it.  And each thing that happens is answered, after whatever
    happened before.  A request for the preferences when no dialog is
    open makes a new dialog, gives it the size of the settings if there
    is one, connects its signals [resized] and [finished], shows it and
    keeps it in [_pref_dialog]; a request when a dialog is open raises
    that dialog, and nothing else; when the open dialog finishes,
    [_pref_dialog] is [None] again, so that the next request makes a new
    dialog. *)
Theorem preferences_dialog_one_at_a_time happenings opened menu :
  one_at_a_time (_pref_dialog menu) (run happenings opened menu).1
  ∧ ∀ before happening,
      happenings = before ++ [happening] →
      let earlier := run before opened menu in
      let win := opened + dialogs_made earlier.1 in
      run happenings opened menu
      = match happening, _pref_dialog earlier.2 with
        | OpenPreferences preferences_size, None =>
            (earlier.1
             ++ [PreferencesDialog win]
             ++ match preferences_size with
                | Some size => [resize win size]
                | None => []
                end
             ++ [connect_resized win; connect_finished win; show win],
             {| self := self earlier.2;
                open_sample_menu := open_sample_menu earlier.2;
                _pref_dialog := Some win |})
        | OpenPreferences _, Some dialog =>
            (earlier.1 ++ [raise_ dialog], earlier.2)
        | DialogFinished, Some dialog =>
            (earlier.1 ++ [finished dialog],
             {| self := self earlier.2;
                open_sample_menu := open_sample_menu earlier.2;
                _pref_dialog := None |})
        | DialogFinished, None => earlier
        end.
Proof.
  split.
  - revert opened menu.
    induction happenings as [|[size|] happenings IH]; intros opened menu;
      [done| |].
    + simpl. unfold _open_preferences.
      destruct (_pref_dialog menu) as [dialog|] eqn:Hdialog; simpl.
      * split; [done|]. rewrite <- Hdialog. apply IH.
      * split; [done|]. destruct size as [size|]; simpl; (split; [done|]);
          apply (IH (S opened)
                   {| self := self menu;
                      open_sample_menu := open_sample_menu menu;
                      _pref_dialog := Some opened |}).
    + simpl. destruct (_pref_dialog menu) as [dialog|] eqn:Hdialog; simpl.
      * split; [done|]. apply (IH opened (_clean_pref_dialog menu)).
      * rewrite <- Hdialog. apply IH.
  - intros before happening -> earlier win. rewrite run_app. cbv zeta.
    fold earlier. fold win.
    destruct happening as [size|]; simpl; unfold _open_preferences.
    + destruct (_pref_dialog earlier.2) as [dialog|]; simpl; [done|].
      by destruct size.
    + destruct (_pref_dialog earlier.2) as [dialog|] eqn:Hdialog; simpl.
      * done.
      * rewrite app_nil_r. by destruct earlier.
Qed.


(** [populate_menu] on entries that make no new menu. *)
Lemma populate_menu_flat menu actions qt m :
  menus qt !! menu = Some m →
  Forall (is_flat menu) actions →
  ∃ qt',
    populate_menu menu actions qt = (qt', Done)
    ∧ next_ref qt' = next_ref qt
    ∧ menus qt' !! menu
      = Some {| title := title m; parent := parent m;
                entries := entries m ++ omap flat_entry actions |}
    ∧ (∀ ref, ref ≠ menu →
              entries <$> menus qt' !! ref = entries <$> menus qt !! ref
              ∧ title <$> menus qt' !! ref = title <$> menus qt !! ref).
Proof.
  intros Hm Hflat. revert qt m Hm.
  induction Hflat as [|ax actions [Hitems Hax] _ IH]; intros qt m Hm.
  { exists qt. split_and!; try done. rewrite app_nil_r. by destruct m. }
  assert (∃ qt1,
            populate_item menu ax qt = (qt1, Done)
            ∧ next_ref qt1 = next_ref qt
            ∧ menus qt1 !! menu
              = Some {| title := title m; parent := parent m;
                        entries := entries m ++ option_list (flat_entry ax) |}
            ∧ (∀ ref, ref ≠ menu →
                      entries <$> menus qt1 !! ref = entries <$> menus qt !! ref
                      ∧ title <$> menus qt1 !! ref = title <$> menus qt !! ref))
    as (qt1 & Hitem & Hn1 & Hm1 & Hother1).
  { rewrite populate_item_eq. unfold flat_entry.
    destruct (item_truthy ax) eqn:Htruthy; simpl; cycle 1.
    { eexists. split_and!; try done.
      - simpl. by rewrite lookup_alter_eq, Hm.
      - intros ref Hne. simpl. by rewrite lookup_alter_ne. }
    destruct (truthy (get ax "when" (VBool true))) eqn:Hwhen; simpl; cycle 1.
    { exists qt. split_and!; try done. rewrite app_nil_r. by destruct m. }
    specialize (Hax eq_refl eq_refl). rewrite Hitems.
    destruct (keys ax !! "menu") as [[| | |sub|]|]; try done.
    - simpl. eexists. split_and!; try done.
      + simpl. rewrite lookup_alter_ne by done.
        by rewrite lookup_alter_eq, Hm.
      + intros ref Hne. simpl.
        destruct (decide (ref = sub)) as [->|Hne'].
        * rewrite lookup_alter_eq, lookup_alter_ne by done.
          by destruct (menus qt !! sub).
        * by rewrite !lookup_alter_ne.
    - destruct Hax as [t Ht]. rewrite Ht. eexists. split_and!; try done.
      + simpl. by rewrite lookup_alter_eq, Hm.
      + intros ref Hne. simpl. by rewrite lookup_alter_ne. }
  destruct (IH qt1 _ Hm1) as (qt' & Hrest & Hn' & Hm' & Hother').
  exists qt'. simpl. rewrite Hitem. split_and!; try done.
  - congruence.
  - rewrite Hm'. simpl. rewrite <- app_assoc. do 3 f_equal.
    by destruct (flat_entry ax).
  - intros ref Hne. destruct (Hother' ref Hne) as [-> ->].
    by apply Hother1.
Qed.


Section samples.
Context (menu_item_template_format : string → string → string).
Context (_add_sample : string → string → nat).

Local Abbreviation add_samples :=
  (FileMenu.add_samples menu_item_template_format _add_sample).
Local Abbreviation add_sample_plugins :=
  (FileMenu.add_sample_plugins menu_item_template_format _add_sample).
Local Abbreviation rebuild_samples_menu :=
  (FileMenu._rebuild_samples_menu menu_item_template_format _add_sample).
Local Abbreviation sample_entries :=
  (FileMenu.sample_entries menu_item_template_format _add_sample).
Local Abbreviation shows_plugin :=
  (FileMenu.shows_plugin menu_item_template_format _add_sample).

(** Every sample has a display name. *)
Local Abbreviation named samples :=
  (Forall (λ sample : string * option string, is_Some sample.2) samples).

(** The text under which a plugin shows in the menu of the samples. *)
Local Abbreviation plugin_text :=
  (λ plugin : string * list (string * option string),
     match plugin.2 with
     | [] => None
     | [(_, display_name)] =>
         Some (menu_item_template_format plugin.1
                 (default EmptyString display_name))
     | _ => Some plugin.1
     end).

Lemma add_samples_named menu plugin_name multi samples qt :
  named samples →
  ∃ qt',
    add_samples menu plugin_name multi samples qt = (qt', Returns tt)
    ∧ next_ref qt' = next_ref qt
    ∧ (∀ ref, ref ≠ menu → menus qt' !! ref = menus qt !! ref)
    ∧ (∀ m, menus qt !! menu = Some m →
            ∃ new, menus qt' !! menu
                   = Some {| title := title m; parent := parent m;
                             entries := entries m ++ new |}
                   ∧ Forall (λ e, ∃ a, e = Action a) new
                   ∧ PluginsMenu.text_of qt' <$> new
                     = (λ sample : string * option string,
                          let display_name := default EmptyString sample.2 in
                          if multi then display_name
                          else menu_item_template_format plugin_name
                                 display_name) <$> samples).
Proof.
  intros Hnamed. revert qt.
  induction Hnamed as [|[name [display_name|]] samples Hname _ IH]; intros qt;
    try (by destruct Hname).
  { exists qt. split_and!; try done. intros m Hm. exists [].
    rewrite app_nil_r. split; [by destruct m|done]. }
  simpl. destruct (IH (update_menu
                         (append_entry
                            (Action (sample_action _add_sample plugin_name name
                                       (if multi then display_name
                                        else menu_item_template_format
                                               plugin_name display_name))))
                         menu qt))
    as (qt' & Hrest & Hn & Hother & Hmenu).
  exists qt'. split_and!; try done.
  - intros ref Hne. rewrite Hother by done. simpl. by rewrite lookup_alter_ne.
  - intros m Hm. edestruct Hmenu as (new & Hm' & Hactions & Htexts).
    { simpl. by rewrite lookup_alter_eq, Hm. }
    eexists (_ :: new). split_and!.
    + rewrite Hm'. simpl. by rewrite <- app_assoc.
    + constructor; [by eexists|done].
    + rewrite !fmap_cons, Htexts. simpl. by destruct multi.
Qed.

Lemma text_of_actions qt qt' (shown : list entry) :
  Forall (λ e, ∃ a, e = Action a) shown →
  PluginsMenu.text_of qt <$> shown = PluginsMenu.text_of qt' <$> shown.
Proof.
  induction 1 as [|e shown [a ->] _ IH]; [done|].
  rewrite !fmap_cons. by rewrite IH.
Qed.

Lemma add_samples_unnamed menu plugin_name multi samples qt :
  ¬ named samples →
  (add_samples menu plugin_name multi samples qt).2
  = Raises (key_error "display_name").
Proof.
  revert qt. induction samples as [|[name [display_name|]] samples IH];
    intros qt Hnamed.
  - destruct Hnamed. constructor.
  - simpl. apply IH. intros Hrest. apply Hnamed. by constructor.
  - done.
Qed.

Lemma add_sample_plugins_named open_sample_menu sample_data qt m :
  open_sample_menu < next_ref qt →
  menus qt !! open_sample_menu = Some m →
  Forall (λ plugin, named plugin.2) sample_data →
  ∃ qt' new,
    add_sample_plugins open_sample_menu sample_data qt = (qt', Returns tt)
    ∧ next_ref qt ≤ next_ref qt'
    ∧ (∀ ref, ref < next_ref qt → ref ≠ open_sample_menu →
              menus qt' !! ref = menus qt !! ref)
    ∧ menus qt' !! open_sample_menu
      = Some {| title := title m; parent := parent m;
                entries := entries m ++ new |}
    ∧ PluginsMenu.text_of qt' <$> new = omap plugin_text sample_data.
Proof.
  intros Hlt Hm Hnamed. revert qt m Hlt Hm.
  induction Hnamed as [|[plugin_name samples] sample_data Hsamples _ IH];
    intros qt m Hlt Hm.
  { exists qt, []. split_and!; try done. rewrite app_nil_r. by destruct m. }
  simpl in Hsamples. cbn [add_sample_plugins FileMenu.add_sample_plugins].
  destruct (1 <? length samples) eqn:Hmulti.
  - (* several samples: a submenu *)
    cbv zeta. cbn [fst snd].
    change (addMenu_titled open_sample_menu (VStr plugin_name) qt).1
      with (next_ref qt).
    set (qt0 := (addMenu_titled open_sample_menu (VStr plugin_name) qt).2).
    assert (next_ref qt0 = S (next_ref qt)) as Hn0 by done.
    assert (menus qt0 !! open_sample_menu
            = Some (append_entry (SubMenu (next_ref qt)) m)) as Hm0.
    { subst qt0. simpl. rewrite lookup_alter_eq.
      rewrite lookup_insert_ne by lia. by rewrite Hm. }
    assert (menus qt0 !! next_ref qt
            = Some {| title := VStr plugin_name;
                      parent := Some open_sample_menu; entries := [] |})
      as Hsub0.
    { subst qt0. simpl. rewrite lookup_alter_ne by lia.
      by rewrite lookup_insert_eq. }
    assert (∀ ref, ref < next_ref qt → ref ≠ open_sample_menu →
                   menus qt0 !! ref = menus qt !! ref) as Hother0.
    { intros ref Hlt' Hne. subst qt0. simpl.
      rewrite lookup_alter_ne by done. by rewrite lookup_insert_ne by lia. }
    destruct (add_samples_named (next_ref qt) plugin_name true samples qt0
                Hsamples) as (qt1 & -> & Hn1 & Hother1 & Hmenu1).
    destruct (Hmenu1 _ Hsub0) as (shown & Hsub1 & _ & _).
    destruct (IH qt1 (append_entry (SubMenu (next_ref qt)) m))
      as (qt' & new & -> & Hn' & Hother' & Hm' & Htexts); [lia| |].
    { rewrite Hother1 by lia. done. }
    exists qt', (SubMenu (next_ref qt) :: new). split_and!; try done.
    + lia.
    + intros ref Hlt' Hne. rewrite Hother' by (done || lia).
      rewrite Hother1 by lia. by apply Hother0.
    + rewrite Hm'. simpl. by rewrite <- app_assoc.
    + rewrite fmap_cons, Htexts. simpl.
      rewrite Hother' by lia. rewrite Hsub1. simpl.
      destruct samples as [|[? ?] [|[? ?] ?]]; done.
  - (* one sample at most: the menu itself *)
    cbv zeta. cbn [fst snd].
    destruct (add_samples_named open_sample_menu plugin_name false samples qt
                Hsamples) as (qt1 & -> & Hn1 & Hother1 & Hmenu1).
    destruct (Hmenu1 _ Hm) as (shown & Hm1 & Hactions & Hshown).
    destruct (IH qt1 _ ltac:(lia) Hm1)
      as (qt' & new & -> & Hn' & Hother' & Hm' & Htexts).
    exists qt', (shown ++ new). split_and!; try done.
    + lia.
    + intros ref Hlt' Hne. rewrite Hother' by (done || lia).
      by apply Hother1.
    + rewrite Hm'. simpl. by rewrite <- app_assoc.
    + rewrite fmap_app, Htexts.
      rewrite (text_of_actions qt' qt1 shown Hactions).
      rewrite Hshown. simpl.
      destruct samples as [|[? ?] [|? ?]]; try done.
Qed.


Lemma add_sample_plugins_unnamed open_sample_menu sample_data qt :
  ¬ Forall (λ plugin, named plugin.2) sample_data →
  (add_sample_plugins open_sample_menu sample_data qt).2
  = Raises (key_error "display_name").
Proof.
  revert qt. induction sample_data as [|[plugin_name samples] sample_data IH];
    intros qt Hnamed.
  { destruct Hnamed. constructor. }
  cbn [add_sample_plugins FileMenu.add_sample_plugins]. cbv zeta.
  set (menu_qt := if 1 <? length samples then _ else _).
  destruct (decide (named samples)) as [Hsamples|Hsamples].
  - destruct (add_samples_named menu_qt.1 plugin_name (1 <? length samples)
                samples menu_qt.2 Hsamples) as (qt1 & -> & _).
    apply IH. intros Hrest. apply Hnamed. by constructor.
  - pose proof (add_samples_unnamed menu_qt.1 plugin_name
                  (1 <? length samples) samples menu_qt.2 Hsamples) as Hraises.
    destruct (add_samples _ _ _ _ _) as [qt1 r]. simpl in Hraises.
    by rewrite Hraises.
Qed.

Lemma add_samples_shown menu plugin_name multi samples qt m :
  named samples →
  menus qt !! menu = Some m →
  ∃ qt',
    add_samples menu plugin_name multi samples qt = (qt', Returns tt)
    ∧ next_ref qt' = next_ref qt
    ∧ (∀ ref, ref ≠ menu → menus qt' !! ref = menus qt !! ref)
    ∧ menus qt' !! menu
      = Some {| title := title m; parent := parent m;
                entries := entries m
                           ++ sample_entries plugin_name multi samples |}.
Proof.
  intros Hnamed. revert qt m.
  induction Hnamed as [|[name [display_name|]] samples Hname _ IH];
    intros qt m Hm; try (by destruct Hname).
  { exists qt. split_and!; try done. unfold FileMenu.sample_entries.
    simpl. rewrite app_nil_r. by destruct m. }
  simpl.
  edestruct (IH (update_menu
                   (append_entry
                      (Action (sample_action _add_sample plugin_name name
                                 (if multi then display_name
                                  else menu_item_template_format
                                         plugin_name display_name))))
                   menu qt))
    as (qt' & Hrest & Hn & Hother & Hmenu).
  { simpl. by rewrite lookup_alter_eq, Hm. }
  exists qt'. split_and!; try done.
  - intros ref Hne. rewrite Hother by done. simpl. by rewrite lookup_alter_ne.
  - rewrite Hmenu. unfold FileMenu.sample_entries. simpl.
    by rewrite <- app_assoc.
Qed.

Lemma shows_plugin_later qt qt' made made' open_sample_menu plugin shown :
  made' ≤ made →
  next_ref qt ≤ next_ref qt' →
  (∀ ref, made ≤ ref < next_ref qt → menus qt' !! ref = menus qt !! ref) →
  shows_plugin qt made open_sample_menu plugin shown →
  shows_plugin qt' made' open_sample_menu plugin shown.
Proof.
  intros Hmade Hn Hsame. unfold FileMenu.shows_plugin.
  destruct (plugin.2) as [|sample [|sample' samples]]; try done.
  intros (sub & -> & Hsub & Hmenu). exists sub. split; [done|].
  split; [lia|]. by rewrite Hsame.
Qed.

Lemma add_sample_plugins_shown open_sample_menu sample_data qt m :
  open_sample_menu < next_ref qt →
  menus qt !! open_sample_menu = Some m →
  Forall (λ plugin, named plugin.2) sample_data →
  ∃ qt' shown,
    add_sample_plugins open_sample_menu sample_data qt = (qt', Returns tt)
    ∧ next_ref qt ≤ next_ref qt'
    ∧ (∀ ref, ref < next_ref qt → ref ≠ open_sample_menu →
              menus qt' !! ref = menus qt !! ref)
    ∧ menus qt' !! open_sample_menu
      = Some {| title := title m; parent := parent m;
                entries := entries m ++ concat shown |}
    ∧ Forall2 (shows_plugin qt' (next_ref qt) open_sample_menu)
              sample_data shown.
Proof.
  intros Hlt Hm Hnamed. revert qt m Hlt Hm.
  induction Hnamed as [|[plugin_name samples] sample_data Hsamples _ IH];
    intros qt m Hlt Hm.
  { exists qt, []. split_and!; try done.
    simpl. rewrite app_nil_r. by destruct m. }
  simpl in Hsamples. cbn [add_sample_plugins FileMenu.add_sample_plugins].
  destruct (1 <? length samples) eqn:Hmulti.
  - (* several samples: a submenu *)
    cbv zeta. cbn [fst snd].
    change (addMenu_titled open_sample_menu (VStr plugin_name) qt).1
      with (next_ref qt).
    set (qt0 := (addMenu_titled open_sample_menu (VStr plugin_name) qt).2).
    assert (next_ref qt0 = S (next_ref qt)) as Hn0 by done.
    assert (menus qt0 !! open_sample_menu
            = Some (append_entry (SubMenu (next_ref qt)) m)) as Hm0.
    { subst qt0. simpl. rewrite lookup_alter_eq.
      rewrite lookup_insert_ne by lia. by rewrite Hm. }
    assert (menus qt0 !! next_ref qt
            = Some {| title := VStr plugin_name;
                      parent := Some open_sample_menu; entries := [] |})
      as Hsub0.
    { subst qt0. simpl. rewrite lookup_alter_ne by lia.
      by rewrite lookup_insert_eq. }
    assert (∀ ref, ref < next_ref qt → ref ≠ open_sample_menu →
                   menus qt0 !! ref = menus qt !! ref) as Hother0.
    { intros ref Hlt' Hne. subst qt0. simpl.
      rewrite lookup_alter_ne by done. by rewrite lookup_insert_ne by lia. }
    destruct (add_samples_shown (next_ref qt) plugin_name true samples qt0 _
                Hsamples Hsub0) as (qt1 & -> & Hn1 & Hother1 & Hsub1).
    destruct (IH qt1 (append_entry (SubMenu (next_ref qt)) m))
      as (qt' & shown & -> & Hn' & Hother' & Hm' & Hshown); [lia| |].
    { rewrite Hother1 by lia. done. }
    exists qt', ([SubMenu (next_ref qt)] :: shown). split_and!; try done.
    + lia.
    + intros ref Hlt' Hne. rewrite Hother' by (done || lia).
      rewrite Hother1 by lia. by apply Hother0.
    + rewrite Hm'. simpl. by rewrite <- app_assoc.
    + constructor.
      * unfold FileMenu.shows_plugin. simpl.
        destruct samples as [|sample [|sample' samples]]; try done.
        exists (next_ref qt). split; [done|]. split; [lia|].
        rewrite Hother' by lia. exact Hsub1.
      * eapply Forall2_impl; [exact Hshown|]. intros plugin es.
        apply shows_plugin_later; [lia|done|done].
  - (* one sample at most: the menu itself *)
    cbv zeta. cbn [fst snd].
    destruct (add_samples_shown open_sample_menu plugin_name false samples qt
                _ Hsamples Hm) as (qt1 & -> & Hn1 & Hother1 & Hm1).
    destruct (IH qt1 _ ltac:(lia) Hm1)
      as (qt' & shown & -> & Hn' & Hother' & Hm' & Hshown).
    exists qt', (sample_entries plugin_name false samples :: shown).
    split_and!; try done.
    + lia.
    + intros ref Hlt' Hne. rewrite Hother' by (done || lia).
      by apply Hother1.
    + rewrite Hm'. simpl. by rewrite <- app_assoc.
    + constructor.
      * unfold FileMenu.shows_plugin. simpl.
        by destruct samples as [|sample [|sample' samples]].
      * eapply Forall2_impl; [exact Hshown|]. intros plugin es.
        apply shows_plugin_later; [lia|done|done].
Qed.

(** Rebuilding the menu of the samples.  When every sample has a display
    name, [_rebuild_samples_menu] returns, and the menu of the samples
    then shows, whatever it showed before, what the plugins give, one
    after the other in the order of the plugins.  A plugin with one
    sample gives an action, which opens the sample when triggered, under
    the name that the template makes of the plugin and the sample.  A
    plugin with several samples gives a submenu, newly made as a child of
    the menu of the samples, whose title is the name of the plugin and
    which shows one action for each sample, under the display name of
    the sample.  A plugin with no sample gives nothing.  The menus that
    were there, but for the menu of the samples, are as they were.  When
    a sample has no display name, it ends in a [KeyError]. *)
Theorem rebuild_samples_menu_shows_each_plugin
    open_sample_menu sample_data qt m :
  open_sample_menu < next_ref qt →
  menus qt !! open_sample_menu = Some m →
  let rebuilt := rebuild_samples_menu open_sample_menu sample_data qt in
  (Forall (λ plugin, named plugin.2) sample_data →
   rebuilt.2 = Returns tt
   ∧ (∃ m', menus rebuilt.1 !! open_sample_menu = Some m'
            ∧ title m' = title m
            ∧ PluginsMenu.text_of rebuilt.1 <$> entries m'
              = omap plugin_text sample_data)
   ∧ (∀ ref, ref < next_ref qt → ref ≠ open_sample_menu →
             menus rebuilt.1 !! ref = menus qt !! ref)
   ∧ (∃ shown,
        menus rebuilt.1 !! open_sample_menu
        = Some {| title := title m; parent := parent m;
                  entries := concat shown |}
        ∧ Forall2 (shows_plugin rebuilt.1 (next_ref qt) open_sample_menu)
                  sample_data shown))
  ∧ (¬ Forall (λ plugin, named plugin.2) sample_data →
     rebuilt.2 = Raises (key_error "display_name")).
Proof.
  intros Hlt Hm rebuilt. subst rebuilt. unfold _rebuild_samples_menu. split.
  - intros Hnamed.
    set (qt0 := update_menu _ open_sample_menu qt).
    assert (menus qt0 !! open_sample_menu
            = Some {| title := title m; parent := parent m; entries := [] |})
      as Hm0 by (subst qt0; simpl; by rewrite lookup_alter_eq, Hm).
    destruct (add_sample_plugins_named open_sample_menu sample_data qt0 _
                Hlt Hm0 Hnamed)
      as (qt' & new & Heq & Hn & Hother & Hm' & Htexts).
    destruct (add_sample_plugins_shown open_sample_menu sample_data qt0 _
                Hlt Hm0 Hnamed)
      as (qt'' & shown & Heq' & _ & _ & Hm'' & Hshown).
    rewrite Heq in Heq'. injection Heq' as <-. rewrite Heq.
    subst qt0. simpl in *. split_and!; [done| | |].
    + eexists. split; [exact Hm'|]. done.
    + intros ref Hlt' Hne. rewrite Hother by done.
      by rewrite lookup_alter_ne.
    + exists shown. split; [exact Hm''|exact Hshown].
  - apply add_sample_plugins_unnamed.
Qed.


Section init.
Context (trans : string → string) (running_as_bundled_app : bool).
Context (objects : Objects).
Context (call_object : nat → value → outcome pyval).

Local Abbreviation ACTIONS := (FileMenu.ACTIONS trans running_as_bundled_app objects).
Local Abbreviation init :=
  (FileMenu.__init__ trans running_as_bundled_app menu_item_template_format
     _add_sample objects call_object).

Lemma ACTIONS_flat self open_sample_menu :
  open_sample_menu ≠ self →
  Forall (is_flat self) (ACTIONS open_sample_menu).
Proof.
  intros Hne.
  repeat (apply Forall_cons_2 || apply Forall_nil_2);
    (split; [done|]); intros Htruthy _;
    try (by vm_compute in Htruthy); vm_compute; try (by eexists); done.
Qed.


(** Making the file menu.  When every sample has a display name,
    [FileMenu.__init__] returns, with the file menu and the menu of the
    samples made and put into [_INSTANCES], and with no preferences
    dialog.  The [update] at its end enables every action of the menu but
    the two that save layers; these it enables exactly when the viewer
    has a layer, as [_layer_count] tells.  (The action that restarts is
    in the menu only in a bundled application.) *)
Theorem file_menu_enables_saving_iff_layers {A}
    (layers : list A) sample_data st :
  (∀ event, call_object (_layer_count_method objects) event
            = Returns (_layer_count layers)) →
  Forall (λ plugin, named plugin.2) sample_data →
  let self := next_ref (qt st) in
  let has_layers := negb (length layers =? 0) in
  ∃ st',
    init sample_data st
    = (Some {| self := self; open_sample_menu := S self;
               _pref_dialog := None |},
       st',
       [(0, true); (1, true); (2, true); (5, true);
        (7, has_layers); (8, has_layers);
        (9, true); (10, true); (11, true); (12, true); (14, true);
        (15, true)]
       ++ (if running_as_bundled_app then [(16, true)] else []),
       Returns tt)
    ∧ _INSTANCES st' = _INSTANCES st ++ [self; S self].
Proof.
  intros Hcount Hnamed self has_layers.
  unfold FileMenu.__init__, NapariMenus.__init__.
  cbn [fst snd qt _INSTANCES next_ref]. fold self.
  match goal with
  | |- context [populate_menu _ _ ?q] => set (qt0 := q)
  end.
  assert (menus qt0 !! self
          = Some {| title := VStr (trans "&File"); parent := None;
                    entries := [] |}) as Hself0.
  { subst qt0. simpl. rewrite lookup_insert_ne by lia.
    by rewrite lookup_insert_eq. }
  assert (menus qt0 !! S self
          = Some {| title := VStr "Open Sample"; parent := Some self;
                    entries := [] |}) as Hsample0.
  { subst qt0. simpl. by rewrite lookup_insert_eq. }
  destruct (populate_menu_flat self (ACTIONS (S self)) qt0 _ Hself0)
    as (qt1 & -> & Hn1 & Hself1 & Hother1).
  { apply ACTIONS_flat. lia. }
  destruct (Hother1 (S self)) as [Hsample1 _]; [lia|].
  rewrite Hsample0 in Hsample1.
  destruct (menus qt1 !! S self) as [sample_menu|] eqn:Hsample_menu; [|done].
  unfold _rebuild_samples_menu.
  edestruct (add_sample_plugins_named (S self) sample_data)
    as (qt2 & new & -> & Hn2 & Hother2 & _ & _); [| |exact Hnamed|].
  { simpl. rewrite Hn1. simpl. lia. }
  { simpl. by rewrite lookup_alter_eq, Hsample_menu. }
  simpl in Hother2. rewrite Hn1 in Hother2. simpl in Hother2.
  exists {| qt := qt2; _INSTANCES := (_INSTANCES st ++ [self]) ++ [S self] |}.
  split; cycle 1.
  { cbn [_INSTANCES]. by rewrite <- app_assoc. }
  unfold NapariMenus.update. rewrite Hother2 by lia.
  rewrite lookup_alter_ne by lia. rewrite Hself1. cbn [entries app].
  assert (bool_of (_layer_count layers) = has_layers) as Hhas.
  { subst has_layers. unfold bool_of, _layer_count. by destruct layers. }
  rewrite <- Hhas. clear Hhas has_layers.
  generalize dependent (_layer_count layers). intros count Hcount.
  match goal with
  | |- context [NapariMenus.update_from ?c ?i ?es ?ev] =>
      assert (NapariMenus.update_from c i es ev
              = ([(0, true); (1, true); (2, true); (5, true);
                  (7, bool_of count); (8, bool_of count);
                  (9, true); (10, true); (11, true); (12, true); (14, true);
                  (15, true)]
                 ++ (if running_as_bundled_app then [(16, true)] else []),
                 Returns tt)) as ->; [|done]
  end.
  vm_compute in Hcount.
  destruct running_as_bundled_app; vm_compute; rewrite !Hcount; done.
Qed.

End init.

End samples.

End file_menu.

Lemma rebuild_samples_menu_shows_each_plugin_witness :
  let rebuilt :=
    FileMenu._rebuild_samples_menu PluginsMenuExample.template
      FileMenuExample.add_sample 0 FileMenuExample.sample_data
      MenuExample.empty_menu_bar in
  rebuilt.2 = Returns tt
  ∧ (∃ m', Menus.menus rebuilt.1 !! 0 = Some m'
           ∧ Menus.title m' = Menus.VStr "File"
           ∧ PluginsMenu.text_of rebuilt.1 <$> Menus.entries m'
             = ["napari: Cells (3D)"; "scikit-image"])
  ∧ ∃ sub,
      Menus.entries <$> Menus.menus rebuilt.1 !! 0
      = Some [Menus.Action
                (FileMenu.sample_action FileMenuExample.add_sample "napari"
                   "cells3d" "napari: Cells (3D)");
              Menus.SubMenu sub]
      ∧ Menus.menus rebuilt.1 !! sub
        = Some {| Menus.title := Menus.VStr "scikit-image";
                  Menus.parent := Some 0;
                  Menus.entries :=
                    [Menus.Action
                       (FileMenu.sample_action FileMenuExample.add_sample
                          "scikit-image" "astronaut" "Astronaut");
                     Menus.Action
                       (FileMenu.sample_action FileMenuExample.add_sample
                          "scikit-image" "coins" "Coins")] |}.
Proof.
  destruct (rebuild_samples_menu_shows_each_plugin PluginsMenuExample.template
              FileMenuExample.add_sample 0 FileMenuExample.sample_data
              MenuExample.empty_menu_bar
              {| Menus.title := Menus.VStr "File"; Menus.parent := None;
                 Menus.entries := [] |}) as [Hnamed _].
  - simpl. lia.
  - by vm_compute.
  - destruct Hnamed as (Hreturns & Hshown & _ & shown & Hmenu & Hplugins).
    + repeat constructor; by eexists.
    + split; [exact Hreturns|]. split; [exact Hshown|].
      apply Forall2_cons_inv_l in Hplugins
        as (one & shown' & Hone & Hplugins & ->).
      apply Forall2_cons_inv_l in Hplugins
        as (several & shown'' & (sub & -> & _ & Hsub) & Hplugins & ->).
      apply Forall2_nil_inv_l in Hplugins as ->.
      unfold FileMenu.shows_plugin in Hone. simpl in Hone. subst one.
      exists sub. split; [|exact Hsub].
      cbv zeta. rewrite Hmenu. reflexivity.
Defined.

Lemma file_menu_enables_saving_iff_layers_witness :
  ∃ st',
    FileMenu.__init__ id false PluginsMenuExample.template
      FileMenuExample.add_sample FileMenuExample.objects
      FileMenuExample.call_object FileMenuExample.sample_data
      FileMenuExample.no_menu
    = (Some {| FileMenu.self := 0; FileMenu.open_sample_menu := 1;
               FileMenu._pref_dialog := None |},
       st',
       [(0, true); (1, true); (2, true); (5, true); (7, true); (8, true);
        (9, true); (10, true); (11, true); (12, true); (14, true); (15, true)]
       ++ [],
       Returns tt)
    ∧ NapariMenus._INSTANCES st' = [] ++ [0; 1].
Proof.
  apply (file_menu_enables_saving_iff_layers PluginsMenuExample.template
           FileMenuExample.add_sample id false FileMenuExample.objects
           FileMenuExample.call_object Examples.two_images
           FileMenuExample.sample_data FileMenuExample.no_menu).
  - intros event. reflexivity.
  - repeat constructor; by eexists.
Defined.
